(** * Endpoint selection, latency probing and pool loading of the dashboard

    A shallow embedding of the decision logic of the Next.js dashboard
    (webui2): the pool detail page's endpoint selection, the /api/latency
    route, the pool data hook and the stratum latency panel.

    Conventions of the embedding.
    - A JavaScript string is a [string]: a sequence of code units below 256
      (the Latin-1 range).  [toLowerCase] is exact on that range.
    - A JavaScript number read from JSON is a rational [Q] (every finite
      double is one); [number] adds NaN, which only conversions produce.
      Infinity is outside the model, except as the initial bound of the
      latency search, written [None] there.
    - [Record<string, T>] objects read from JSON are association lists in
      the order [Object.entries] enumerates them; [latencyMap], which the
      page only indexes and extends, is a [gmap]. *)

From Stdlib Require Import ZArith QArith Qround Lqa Ascii String DecimalString List
  Sorted.
From stdpp Require Import base option list strings gmap.
Import ListNotations.

Local Open Scope string_scope.
Local Open Scope Z_scope.
Local Set Warnings "-register-all".

(** ** JavaScript values used by the code *)

Module JS.

(** A number: NaN or a finite value. *)
Inductive number : Type :=
| NaN
| Num (q : Q).

(** A field that may be absent ([undefined]), [null] or present. *)
Inductive field (A : Type) : Type :=
| Undefined
| Null
| Val (a : A).
Arguments Undefined {A}.
Arguments Null {A}.
Arguments Val {A} a.

(** [x ?? y] *)
Definition nullish {A} (x : field A) (y : field A) : field A :=
  match x with
  | Val a => Val a
  | _ => y
  end.

(** [x ?? null] on a JSON field ([None] is absent or null). *)
Definition orNull {A} (x : option A) : field A :=
  match x with
  | Some a => Val a
  | None => Null
  end.

(** [x !== null] and [x === null] *)
Definition notNull {A} (x : field A) : bool :=
  match x with
  | Null => false
  | _ => true
  end.

Definition isNull {A} (x : field A) : bool := negb (notNull x).

Definition Qltb (a b : Q) : bool := negb (Qle_bool b a).

(** Truthiness of a number: NaN and zero are falsy. *)
Definition truthy (n : number) : bool :=
  match n with
  | NaN => false
  | Num q => negb (Qeq_bool q 0)
  end.

Definition isNaN (n : number) : bool :=
  match n with
  | NaN => true
  | Num _ => false
  end.

(** [a <= b], [a < b], [a > b]: false as soon as one side is NaN. *)
Definition leb (a b : number) : bool :=
  match a, b with
  | Num x, Num y => Qle_bool x y
  | _, _ => false
  end.

Definition ltb (a b : number) : bool :=
  match a, b with
  | Num x, Num y => Qltb x y
  | _, _ => false
  end.

Definition gtb (a b : number) : bool := ltb b a.

Definition sub (a b : number) : number :=
  match a, b with
  | Num x, Num y => Num (x - y)
  | _, _ => NaN
  end.

(** [Math.max] and [Math.min]: NaN is contagious. *)
Definition Math_max (a b : number) : number :=
  match a, b with
  | Num x, Num y => if Qle_bool x y then Num y else Num x
  | _, _ => NaN
  end.

Definition Math_min (a b : number) : number :=
  match a, b with
  | Num x, Num y => if Qle_bool x y then Num x else Num y
  | _, _ => NaN
  end.

(** [a || b] on numbers *)
Definition orElse (a b : number) : number := if truthy a then a else b.

(** *** Strings *)

Definition code (c : ascii) : N := N_of_ascii c.

Definition between (lo hi : N) (c : ascii) : bool :=
  ((lo <=? code c) && (code c <=? hi))%N.

(** [String.prototype.toLowerCase] on one code unit of the Latin-1 range:
    A-Z, and the accented capitals U+00C0..U+00DE except the
    multiplication sign U+00D7. *)
Definition lowerChar (c : ascii) : ascii :=
  if between 65 90 c || between 192 214 c || between 216 222 c
  then ascii_of_N (code c + 32)
  else c.

Fixpoint toLowerCase (s : string) : string :=
  match s with
  | EmptyString => EmptyString
  | String c s' => String (lowerChar c) (toLowerCase s')
  end.

Fixpoint startsWith (p s : string) : bool :=
  match p, s with
  | EmptyString, _ => true
  | String a p', String b s' => if Ascii.eqb a b then startsWith p' s' else false
  | String _ _, EmptyString => false
  end.

(** [s.includes(p)] *)
Fixpoint includes (s p : string) : bool :=
  startsWith p s ||
  match s with
  | EmptyString => false
  | String _ s' => includes s' p
  end.

Fixpoint filterChars (keep : ascii -> bool) (s : string) : string :=
  match s with
  | EmptyString => EmptyString
  | String c s' =>
      if keep c then String c (filterChars keep s') else filterChars keep s'
  end.

(** The character class [a-z0-9]. *)
Definition isLowerAlnum (c : ascii) : bool :=
  between 97 122 c || between 48 57 c.

(** [s.replace(/[^a-z0-9]/g, '')] *)
Definition stripNonAlnum (s : string) : string := filterChars isLowerAlnum s.

(** White space of the Latin-1 range: TAB, LF, VT, FF, CR, SP, NBSP. *)
Definition isSpace (c : ascii) : bool :=
  between 9 13 c || N.eqb (code c) 32 || N.eqb (code c) 160.

Fixpoint trimStart (s : string) : string :=
  match s with
  | EmptyString => EmptyString
  | String c s' => if isSpace c then trimStart s' else s
  end.

Fixpoint trimEnd (s : string) : string :=
  match s with
  | EmptyString => EmptyString
  | String c s' =>
      match trimEnd s' with
      | EmptyString => if isSpace c then EmptyString else String c EmptyString
      | t => String c t
      end
  end.

(** [s.trim()] *)
Definition trim (s : string) : string := trimEnd (trimStart s).

(** Truthiness of a string: only the empty string is falsy. *)
Definition nonEmpty (s : string) : bool :=
  match s with
  | EmptyString => false
  | String _ _ => true
  end.

(** *** [Number(string)]

    The decimal literals a port key or a request field can hold: blanks
    around, an optional sign, digits with an optional fraction.  The
    empty string converts to 0.  Exponents, radix prefixes and the
    literal Infinity are not covered; the value is kept exact. *)

Definition isDigit (c : ascii) : bool := between 48 57 c.

(** Reads a run of digits: the value of [acc] followed by the digits, the
    number of digits read, and the rest of the string. *)
Fixpoint readDigits (acc : Z) (count : nat) (s : string) : Z * nat * string :=
  match s with
  | String c s' =>
      if isDigit c
      then readDigits (10 * acc + (Z.of_N (code c) - 48)) (S count) s'
      else (acc, count, s)
  | EmptyString => (acc, count, s)
  end.

(** An unsigned decimal literal: [digits], [digits.], [digits.digits] or
    [.digits]. *)
Definition unsignedDecimal (s : string) : number :=
  let '(int, n, rest) := readDigits 0 0 s in
  match rest with
  | EmptyString => if Nat.eqb n 0 then NaN else Num (inject_Z int)
  | String c rest' =>
      if Ascii.eqb c "." then
        let '(all, m, rest'') := readDigits int 0 rest' in
        match rest'' with
        | EmptyString =>
            if Nat.eqb (n + m) 0 then NaN
            else Num (Qmake all (Pos.of_nat (Nat.pow 10 m)))
        | String _ _ => NaN
        end
      else NaN
  end.

Definition Number_of_string (s : string) : number :=
  match trim s with
  | EmptyString => Num 0
  | String c s' =>
      if Ascii.eqb c "-" then
        match unsignedDecimal s' with
        | Num q => Num (- q)
        | NaN => NaN
        end
      else if Ascii.eqb c "+" then unsignedDecimal s'
      else unsignedDecimal (String c s')
  end.

End JS.


(** ** The pool detail page: rows, groups and the two selections *)

Module PoolPage.
Import JS.

(** [VarDiffConfig] and [PortConfig] of types/miningcore.ts.  A [None]
    field is absent or null in the JSON document. *)
Record VarDiffConfig : Type := {
  minDiff : option Q;
  maxDiff : option Q;
  maxDelta : option Q;
  targetTime : option Q;
  retargetTime : option Q;
  variancePercent : option Q
}.

Record PortConfig : Type := {
  name : option string;
  protocol : option string;
  listenAddress : option string;
  difficulty : option Q;
  varDiff : option VarDiffConfig;
  tls : option bool;
  tlsAuto : option bool
}.

(** [config?.varDiff?.f ?? null] *)
Definition varDiffField (f : VarDiffConfig -> option Q) (config : PortConfig)
  : field Q :=
  match varDiff config with
  | Some v => orNull (f v)
  | None => Null
  end.

Inductive Status : Type := idle | testing | success | error.

Definition Status_eqb (a b : Status) : bool :=
  match a, b with
  | idle, idle | testing, testing | success, success | error, error => true
  | _, _ => false
  end.

(** [LatencyState].  The page writes [latency] through [Math.round] only,
    so it is a whole number of milliseconds. *)
Record LatencyState : Type := {
  latency : option Z;
  status : Status;
  failure : option string   (* the [error] field *)
}.

(** [ConnectionRow], without its [flag] pictograph; [rowDifficulty] is its
    [difficulty] field. *)
Record ConnectionRow : Type := {
  id : string;
  label : string;
  host : string;
  port : number;
  endpoint : string;
  profileName : field string;
  rowDifficulty : field Q;
  varDiffMin : field Q;
  varDiffMax : field Q;
  varDiffTarget : field Q;
  varDiffRetarget : field Q;
  varDiffVariance : field Q
}.

(** [ConnectionGroup], without its [flag] pictograph; [groupId],
    [groupLabel] and [groupHost] are its [id], [label] and [host] fields. *)
Record ConnectionGroup : Type := {
  groupId : string;
  groupLabel : string;
  groupHost : string;
  endpoints : list ConnectionRow
}.

(** [friendlyRegion(host).label] *)
Definition friendlyRegion (h : string) : string :=
  let normalized := toLowerCase h in
  if includes normalized "eu" then "Europe"
  else if includes normalized "us" then "North America"
  else if includes normalized "sg" || includes normalized "asia"
          || includes normalized "ap" then "Asia"
  else if includes normalized "ru" then "Russia"
  else if includes normalized "br" || includes normalized "sa" then "South America"
  else "Global".

(** [tierLabelFor]: the tier shown beside an endpoint of the profile name
    [profile]. *)
Definition tierLabelFor (profile : field string) : option string :=
  let value := match profile with Val s => toLowerCase s | _ => "" end in
  if negb (nonEmpty value) then None
  else if includes value "nerd" then Some "NerdMiner"
  else if includes value "low" then Some "Low-end hardware"
  else if includes value "mid" || includes value "medium"
       then Some "Mid-range hardware"
  else if includes value "high" then Some "High-end hardware"
  else if includes value "solo" then Some "Solo tier"
  else match profile with Val s => Some s | _ => None end.

(** [process.env.NEXT_PUBLIC_STRATUM_HOST || 'pool.local'] *)
Definition stratumHost (env : option string) : string :=
  match env with
  | Some h => if nonEmpty h then h else "pool.local"
  | None => "pool.local"
  end.

(** The row of one port entry. *)
Definition rowOfEntry (stratumHost : string) (entry : string * PortConfig)
  : ConnectionRow :=
  let '(port, config) := entry in
  let endpointHost := stratumHost +:+ ":" +:+ port in
  {| id := stratumHost +:+ "-" +:+ port;
     label := friendlyRegion endpointHost;
     host := stratumHost;
     port := Number_of_string port;
     endpoint := "stratum+tcp://" +:+ stratumHost +:+ ":" +:+ port;
     profileName := orNull (name config);
     rowDifficulty := orNull (difficulty config);
     varDiffMin := varDiffField minDiff config;
     varDiffMax := varDiffField maxDiff config;
     varDiffTarget := varDiffField targetTime config;
     varDiffRetarget := varDiffField retargetTime config;
     varDiffVariance := varDiffField variancePercent config |}.

(** The single row shown when the pool has no port entry. *)
Definition defaultRow (stratumHost : string) : ConnectionRow :=
  {| id := "default";
     label := friendlyRegion stratumHost;
     host := stratumHost;
     port := Num 3333;
     endpoint := "stratum+tcp://" +:+ stratumHost;
     profileName := Undefined;
     rowDifficulty := Undefined;
     varDiffMin := Undefined;
     varDiffMax := Undefined;
     varDiffTarget := Undefined;
     varDiffRetarget := Undefined;
     varDiffVariance := Undefined |}.

(** [connectionRows]; [portEntries] is [Object.entries(pool.ports)], or
    empty when the pool or its port map is missing. *)
Definition connectionRows (stratumHost : string)
    (portEntries : list (string * PortConfig)) : list ConnectionRow :=
  match portEntries with
  | [] => [defaultRow stratumHost]
  | _ :: _ => map (rowOfEntry stratumHost) portEntries
  end.

(** *** Grouping by host *)

(** [(a, b) => a.port - b.port] *)
Definition comparePort (a b : ConnectionRow) : number := sub (port a) (port b).

(** [Array.prototype.sort] as a stable insertion sort: an element goes
    before the first one the comparator places after it (a NaN result
    counts as 0).  This is the order of every engine when the ports are
    numbers; with a NaN port the comparator is inconsistent and the order
    is left to the engine, so that only the elements of the result are
    modelled then, not their order. *)
Fixpoint insertSorted (x : ConnectionRow) (l : list ConnectionRow)
  : list ConnectionRow :=
  match l with
  | [] => [x]
  | y :: l' =>
      if gtb (comparePort y x) (Num 0) then x :: y :: l'
      else y :: insertSorted x l'
  end.

Definition sortByPort (l : list ConnectionRow) : list ConnectionRow :=
  fold_left (fun acc x => insertSorted x acc) l [].

(** The [byHost] map, in insertion order: each host with its group header
    and the rows pushed so far. *)
Definition HostTable : Type := list (string * (ConnectionGroup * list ConnectionRow)).

Definition hasHost (key : string) (byHost : HostTable) : bool :=
  existsb (fun e => String.eqb (fst e) key) byHost.

(** [byHost.get(key)?.endpoints.push(row)] *)
Fixpoint pushRow (key : string) (row : ConnectionRow) (byHost : HostTable)
  : HostTable :=
  match byHost with
  | [] => []
  | (k, (g, rows)) :: rest =>
      if String.eqb k key then (k, (g, (rows ++ [row])%list)) :: rest
      else (k, (g, rows)) :: pushRow key row rest
  end.

Definition addRow (byHost : HostTable) (row : ConnectionRow) : HostTable :=
  let key := host row in
  let byHost' :=
    if hasHost key byHost then byHost
    else (byHost ++ [(key, ({| groupId := key; groupLabel := label row;
                               groupHost := host row; endpoints := [] |}, []))])%list in
  pushRow key row byHost'.

Definition connectionGroups (rows : list ConnectionRow) : list ConnectionGroup :=
  map (fun e : string * (ConnectionGroup * list ConnectionRow) =>
         let '(_, (g, rs)) := e in
         {| groupId := groupId g; groupLabel := groupLabel g;
            groupHost := groupHost g; endpoints := sortByPort rs |})
      (fold_left addRow rows []).

(** *** The default endpoint *)

Definition isMidTier (row : ConnectionRow) : bool :=
  let profile :=
    toLowerCase (match profileName row with Val s => s | _ => "" end) in
  let condensed := stripNonAlnum profile in
  includes condensed "midrange" || includes condensed "midtier"
  || includes condensed "medium".

(** [row.difficulty ?? row.varDiffMin ?? null] *)
Definition effectiveDifficulty (row : ConnectionRow) : field Q :=
  nullish (rowDifficulty row) (nullish (varDiffMin row) Null).

Definition isPreferred (row : ConnectionRow) : bool :=
  match effectiveDifficulty row with
  | Val diff => Qltb 0 diff && Qle_bool diff 2048
  | _ => false
  end.

Definition defaultEndpointRow (rows : list ConnectionRow) : option ConnectionRow :=
  match rows with
  | [] => None
  | first :: _ =>
      match List.find isMidTier rows with
      | Some midTier => Some midTier
      | None =>
          match List.find isPreferred rows with
          | Some preferred => Some preferred
          | None => Some first
          end
      end
  end.

(** *** The best latency *)

(** [latency < bestLatency], the bound [None] being +Infinity. *)
Definition belowBound (l : Z) (bestLatency : option Z) : bool :=
  match bestLatency with
  | None => true
  | Some b => l <? b
  end.

(** One turn of the [forEach] of [bestLatencyRow] and [fastestEndpointFor]. *)
Definition latencyStep (latencyMap : gmap string LatencyState)
    (acc : option ConnectionRow * option Z) (row : ConnectionRow)
  : option ConnectionRow * option Z :=
  match latencyMap !! id row with
  | Some entry =>
      if Status_eqb (status entry) success then
        match latency entry with
        | Some l => if belowBound l (snd acc) then (Some row, Some l) else acc
        | None => acc
        end
      else acc
  | None => acc
  end.

Definition bestLatencyRow (rows : list ConnectionRow)
    (latencyMap : gmap string LatencyState) : option ConnectionRow :=
  fst (fold_left (latencyStep latencyMap) rows (None, None)).

(** *** Lookup tables and derived groups *)

(** [groupByHost] and [groupById]: each group is [set] under its key, a
    later group replacing an earlier one with the same key. *)
Definition groupByHost (groups : list ConnectionGroup) : gmap string ConnectionGroup :=
  fold_left (fun m g => <[groupHost g := g]> m) groups ∅.

Definition groupById (groups : list ConnectionGroup) : gmap string ConnectionGroup :=
  fold_left (fun m g => <[groupId g := g]> m) groups ∅.

(** [key ? table.get(key) ?? null : null], for [key] a string or null. *)
Definition getIfSet (table : gmap string ConnectionGroup) (key : option string)
  : option ConnectionGroup :=
  match key with
  | Some k => if nonEmpty k then table !! k else None
  | None => None
  end.

(** [a ?? b] on values that are an object or null. *)
Definition orAlt {A} (a b : option A) : option A :=
  match a with
  | Some x => Some x
  | None => b
  end.

(** [fastestEndpointFor] *)
Definition fastestEndpointFor (latencyMap : gmap string LatencyState)
    (group : option ConnectionGroup) : option ConnectionRow :=
  match group with
  | None => None
  | Some g =>
      let best := fst (fold_left (latencyStep latencyMap) (endpoints g) (None, None)) in
      orAlt best (head (endpoints g))
  end.

Definition nameHasMid (endpoint : ConnectionRow) : bool :=
  match profileName endpoint with
  | Val s => includes (toLowerCase s) "mid"
  | _ => false
  end.

Definition looksVarDiff (endpoint : ConnectionRow) : bool :=
  isNull (rowDifficulty endpoint) || notNull (varDiffMin endpoint).

(** [pickEndpointForGroup] *)
Definition pickEndpointForGroup (defaultEndpoint : option ConnectionRow)
    (latencyMap : gmap string LatencyState) (group : option ConnectionGroup)
  : option ConnectionRow :=
  match group with
  | None => None
  | Some g =>
      let viaDefault :=
        match defaultEndpoint with
        | Some d =>
            if String.eqb (host d) (groupHost g)
            then List.find (fun e => String.eqb (id e) (id d)) (endpoints g)
            else None
        | None => None
        end in
      match viaDefault with
      | Some m => Some m
      | None =>
          match List.find nameHasMid (endpoints g) with
          | Some midTier => Some midTier
          | None =>
              match List.find looksVarDiff (endpoints g) with
              | Some varDiffEndpoint => Some varDiffEndpoint
              | None => fastestEndpointFor latencyMap (Some g)
              end
          end
      end
  end.

(** *** Selection state and one render *)

(** The two state cells and the two refs of the page. *)
Record Selection : Type := {
  selectedGroupId : option string;
  selectedEndpointId : option string;
  manualSelectionRef : bool;
  manualEndpointRef : bool
}.

Definition initialSelection : Selection :=
  {| selectedGroupId := None; selectedEndpointId := None;
     manualSelectionRef := false; manualEndpointRef := false |}.

(** What one render computes from the rows, the latency map and the
    selected group id it was rendered with: [viewRows] is [connectionRows],
    [viewLatency] is [latencyMap], [viewGroups] is [connectionGroups],
    [viewDefaultEndpoint] is [defaultEndpointRow], [viewBestLatency] is
    [bestLatencyRow] and [viewById] is [groupById]. *)
Record View : Type := {
  viewRows : list ConnectionRow;
  viewLatency : gmap string LatencyState;
  viewGroups : list ConnectionGroup;
  viewDefaultEndpoint : option ConnectionRow;
  viewBestLatency : option ConnectionRow;
  viewById : gmap string ConnectionGroup;
  defaultGroup : option ConnectionGroup;
  bestLatencyGroup : option ConnectionGroup;
  selectedGroup : option ConnectionGroup
}.

Definition render (rows : list ConnectionRow)
    (latencyMap : gmap string LatencyState) (s : Selection) : View :=
  let groups := connectionGroups rows in
  let defaultEndpoint := defaultEndpointRow rows in
  let best := bestLatencyRow rows latencyMap in
  {| viewRows := rows;
     viewLatency := latencyMap;
     viewGroups := groups;
     viewDefaultEndpoint := defaultEndpoint;
     viewBestLatency := best;
     viewById := groupById groups;
     defaultGroup := getIfSet (groupByHost groups) (host <$> defaultEndpoint);
     bestLatencyGroup := getIfSet (groupByHost groups) (host <$> best);
     selectedGroup := getIfSet (groupById groups) (selectedGroupId s) |}.

(** The effects read the state cells of the render they belong to
    ([seen]) and the refs as they are now ([now]); a [set...] call and a
    ref assignment update [now], which the next render starts from. *)

Definition setSelectedGroupId (v : option string) (now : Selection) : Selection :=
  {| selectedGroupId := v; selectedEndpointId := selectedEndpointId now;
     manualSelectionRef := manualSelectionRef now;
     manualEndpointRef := manualEndpointRef now |}.

Definition setSelectedEndpointId (v : option string) (now : Selection) : Selection :=
  {| selectedGroupId := selectedGroupId now; selectedEndpointId := v;
     manualSelectionRef := manualSelectionRef now;
     manualEndpointRef := manualEndpointRef now |}.

Definition setManualSelection (b : bool) (now : Selection) : Selection :=
  {| selectedGroupId := selectedGroupId now;
     selectedEndpointId := selectedEndpointId now;
     manualSelectionRef := b; manualEndpointRef := manualEndpointRef now |}.

Definition setManualEndpoint (b : bool) (now : Selection) : Selection :=
  {| selectedGroupId := selectedGroupId now;
     selectedEndpointId := selectedEndpointId now;
     manualSelectionRef := manualSelectionRef now; manualEndpointRef := b |}.

Definition sameId (a b : option string) : bool := bool_decide (a = b).

(** The option the group effect falls back on. *)
Definition groupFallback (v : View) : option ConnectionGroup :=
  orAlt (bestLatencyGroup v) (orAlt (defaultGroup v) (head (viewGroups v))).

(** The group reconciliation effect. *)
Definition groupEffect (v : View) (seen now : Selection) : Selection :=
  match viewGroups v with
  | [] =>
      setSelectedEndpointId None
        (setSelectedGroupId None
           (setManualEndpoint false (setManualSelection false now)))
  | _ :: _ =>
      let stillExists :=
        match selectedGroupId seen with
        | Some k => nonEmpty k && bool_decide (is_Some (viewById v !! k))
        | None => false
        end in
      if negb (manualSelectionRef now) || negb stillExists then
        let nextId := groupId <$> groupFallback v in
        if negb (sameId nextId (selectedGroupId seen))
        then setSelectedGroupId nextId (setManualSelection false now)
        else now
      else now
  end.

(** The group whose endpoints the endpoint effect chooses among. *)
Definition endpointFallbackGroup (v : View) : option ConnectionGroup :=
  orAlt (selectedGroup v)
    (orAlt (bestLatencyGroup v) (orAlt (defaultGroup v) (head (viewGroups v)))).

(** The endpoint reconciliation effect. *)
Definition endpointEffect (v : View) (seen now : Selection) : Selection :=
  match endpointFallbackGroup v with
  | None => setSelectedEndpointId None (setManualEndpoint false now)
  | Some fallbackGroup =>
      let stillExists :=
        match selectedEndpointId seen with
        | Some k =>
            nonEmpty k
            && existsb (fun e => String.eqb (id e) k) (endpoints fallbackGroup)
        | None => false
        end in
      if negb (manualEndpointRef now) || negb stillExists then
        let fallbackEndpoint :=
          pickEndpointForGroup (viewDefaultEndpoint v) (viewLatency v)
            (Some fallbackGroup) in
        let nextEndpointId := id <$> fallbackEndpoint in
        if negb (sameId nextEndpointId (selectedEndpointId seen))
        then setSelectedEndpointId nextEndpointId (setManualEndpoint false now)
        else now
      else now
  end.

(** One render followed by its two effects, in source order. *)
Definition reconcile (rows : list ConnectionRow)
    (latencyMap : gmap string LatencyState) (s : Selection) : Selection :=
  let v := render rows latencyMap s in
  endpointEffect v s (groupEffect v s s).

(** [fuel] rounds of render and effects: a [set...] call schedules the
    next render. *)
Fixpoint settle (fuel : nat) (rows : list ConnectionRow)
    (latencyMap : gmap string LatencyState) (s : Selection) : Selection :=
  match fuel with
  | O => s
  | S fuel' => settle fuel' rows latencyMap (reconcile rows latencyMap s)
  end.

(** [selectGroup] *)
Definition selectGroup (group : string) (s : Selection) : Selection :=
  let s1 := setManualSelection true s in
  if negb (sameId (Some group) (selectedGroupId s))
  then setSelectedGroupId (Some group)
         (setSelectedEndpointId None (setManualEndpoint false s1))
  else setSelectedGroupId (Some group) s1.

(** [selectEndpoint] *)
Definition selectEndpoint (group : ConnectionGroup) (endpoint : ConnectionRow)
    (s : Selection) : Selection :=
  let s1 := setManualEndpoint true (setManualSelection true s) in
  let s2 :=
    if negb (sameId (Some (groupId group)) (selectedGroupId s))
    then setSelectedGroupId (Some (groupId group)) s1
    else s1 in
  setSelectedEndpointId (Some (id endpoint)) s2.

End PoolPage.

(** ** The /api/latency route and the client's probe *)

Module LatencyRoute.
Import JS.

(** A field of the request payload: absent, or a JSON primitive. *)
Inductive Prim : Type :=
| PUndefined
| PNull
| PBool (b : bool)
| PNumber (q : Q)
| PString (s : string).

(** What [request.json()] yields: a failure, JSON null, or a value whose
    [host], [port] and [timeout] properties read as given. *)
Inductive Body : Type :=
| InvalidJson
| JsonNull
| Payload (host port timeout : Prim).

(** [Number(v)] *)
Definition Number (v : Prim) : number :=
  match v with
  | PUndefined => NaN
  | PNull => Num 0
  | PBool true => Num 1
  | PBool false => Num 0
  | PNumber q => Num q
  | PString s => Number_of_string s
  end.

(** The body handed to [NextResponse.json]: [latency] is absent, null or
    a number; [error] is absent or a string. *)
Record Result : Type := {
  latency : field Q;
  error : option string
}.

Record Response : Type := {
  httpStatus : Z;
  json : Result
}.

(** What the socket reports first: the connect callback, with the clock
    reading minus [started], the 'error' event, or the idle timeout. *)
Inductive SocketEvent : Type :=
| Connected (elapsed : Z)
| Failed
| TimedOut.

(** The handler up to its only await on the network: it answers at once,
    throws, or opens a socket with an idle timeout and resolves on the
    first event. *)
Inductive Route : Type :=
| Answer (r : Response)
| Throw
| Connect (host : string) (port : number) (timeout : number)
          (resolve : SocketEvent -> Result).

(** [Math.min(Math.max(Number(payload.timeout) || 3000, 500), 10_000)] *)
Definition timeoutOf (requested : Prim) : number :=
  Math_min (Math_max (orElse (Number requested) (Num 3000)) (Num 500)) (Num 10000).

Definition handleFailure (reason : string) : Result :=
  {| latency := Null; error := Some reason |}.

Definition resolveOn (ev : SocketEvent) : Result :=
  match ev with
  | Connected elapsed => {| latency := Val (inject_Z elapsed); error := None |}
  | TimedOut => handleFailure "timeout"
  | Failed => handleFailure "connect-error"
  end.

Definition badRequest (message : string) : Route :=
  Answer {| httpStatus := 400;
            json := {| latency := Undefined; error := Some message |} |}.

(** [POST] *)
Definition POST (body : Body) : Route :=
  match body with
  | InvalidJson => badRequest "Invalid JSON payload"
  | JsonNull => Throw
  | Payload h p t =>
      match h with
      | PBool _ | PNumber _ => Throw      (* [trim] is not a function *)
      | _ =>
          let host := match h with PString s => Some (trim s) | _ => None end in
          let port := Number p in
          let timeout := timeoutOf t in
          match host with
          | Some hostName =>
              if negb (nonEmpty hostName) || isNaN port || leb port (Num 0)
              then badRequest "host and port are required"
              else Connect hostName port timeout resolveOn
          | None => badRequest "host and port are required"
          end
      end
  end.

(** [net.createConnection] throws at once on a port that is not a whole
    number of 0..65535. *)
Definition portAccepted (port : number) : bool :=
  match port with
  | Num q =>
      Qeq_bool (inject_Z (Qfloor q)) q && Qle_bool 0 q && Qle_bool q 65535
  | NaN => false
  end.

Inductive Outcome (A : Type) : Type :=
| Returned (a : A)
| Thrown.
Arguments Returned {A} a.
Arguments Thrown {A}.

(** The handler run to its end against the first event of the socket. *)
Definition run (r : Route) (ev : SocketEvent) : Outcome Response :=
  match r with
  | Answer resp => Returned resp
  | Throw => Thrown
  | Connect _ port _ resolve =>
      if portAccepted port
      then Returned {| httpStatus := 200; json := resolve ev |}
      else Thrown
  end.

(** What the remote end does and after how many milliseconds; for an
    accepted connection, also the clock difference the callback reads. *)
Inductive Remote : Type :=
| Accepts (after : Q) (elapsed : Z)
| Refuses (after : Q)
| Silent.

(** The first event of a socket whose idle timeout is [timeout]. *)
Definition firstEvent (remote : Remote) (timeout : number) : SocketEvent :=
  match remote with
  | Accepts d elapsed => if ltb (Num d) timeout then Connected elapsed else TimedOut
  | Refuses d => if ltb (Num d) timeout then Failed else TimedOut
  | Silent => TimedOut
  end.

(** The whole request: the handler against a remote end. *)
Definition serve (body : Body) (remote : Remote) : Outcome Response :=
  match POST body with
  | Connect h port timeout resolve =>
      run (Connect h port timeout resolve) (firstEvent remote timeout)
  | r => run r TimedOut
  end.

End LatencyRoute.

(** ** The client side of a probe ([testLatency] of the pool page) *)

Module Probe.
Import JS PoolPage.

(** What [fetch] and [response.json()] give the client: an exception, or
    a response with its [ok] flag and the parsed body. *)
Inductive Fetched : Type :=
| FetchThrows
| Replied (ok : bool) (body : LatencyRoute.Result).

(** [Math.round] *)
Definition Math_round (q : Q) : Z := Qfloor (q + (1 # 2)).

Definition testingSample : LatencyState :=
  {| latency := None; status := testing; failure := None |}.

(** The sample [testLatency] stores once the request is over. *)
Definition sampleOf (f : Fetched) : LatencyState :=
  match f with
  | FetchThrows =>
      {| latency := None; status := error; failure := Some "network-error" |}
  | Replied ok body =>
      if negb ok || isNull (LatencyRoute.latency body) then
        {| latency := None; status := error;
           failure := Some (match LatencyRoute.error body with
                            | Some e => e
                            | None => "unreachable"
                            end) |}
      else
        let measured :=
          Math_round (match LatencyRoute.latency body with
                      | Val q => q
                      | _ => 0%Q
                      end) in
        {| latency := Some measured; status := success; failure := None |}
  end.

(** [testLatency]: the map while the request is in flight, and after. *)
Definition testLatencyStart (row : ConnectionRow)
    (latencyMap : gmap string LatencyState) : gmap string LatencyState :=
  <[id row := testingSample]> latencyMap.

Definition testLatency (row : ConnectionRow) (f : Fetched)
    (latencyMap : gmap string LatencyState) : gmap string LatencyState :=
  <[id row := sampleOf f]> (testLatencyStart row latencyMap).

(** The payload the client posts: [JSON.stringify] writes a NaN port as
    null. *)
Definition requestOf (row : ConnectionRow) : LatencyRoute.Body :=
  LatencyRoute.Payload (LatencyRoute.PString (host row))
    (match port row with
     | Num q => LatencyRoute.PNumber q
     | NaN => LatencyRoute.PNull
     end)
    (LatencyRoute.PNumber 4000).

(** The reply the client sees for an outcome of the route: a handler that
    throws is answered by the server with a 500 whose body is not JSON,
    so reading it throws in the client. *)
Definition replyOf (o : LatencyRoute.Outcome LatencyRoute.Response) : Fetched :=
  match o with
  | LatencyRoute.Returned r =>
      Replied ((200 <=? LatencyRoute.httpStatus r)
               && (LatencyRoute.httpStatus r <=? 299))
              (LatencyRoute.json r)
  | LatencyRoute.Thrown => FetchThrows
  end.

End Probe.

(** ** The pool data hook ([fetchPools] and [usePoolsData]) *)

Module PoolsData.

(** A parsed JSON document; an object lists its properties in
    enumeration order. *)
Inductive Json : Type :=
| JNull
| JBool (b : bool)
| JNumber (q : Q)
| JString (s : string)
| JArray (items : list Json)
| JObject (props : list (string * Json)).

(** What [apiClient.get] does: it rejects, or resolves with the parsed
    body as [response.data]. *)
Inductive HttpResult : Type :=
| Rejected
| Resolved (data : Json).

Inductive Outcome (A : Type) : Type :=
| Returned (a : A)
| Thrown.
Arguments Returned {A} a.
Arguments Thrown {A}.

(** [fetchPools]: the response data as it is, or the error thrown again. *)
Definition fetchPools (http : HttpResult) : Outcome Json :=
  match http with
  | Resolved data => Returned data
  | Rejected => Thrown
  end.

Fixpoint lookupProp (key : string) (props : list (string * Json)) : option Json :=
  match props with
  | [] => None
  | (k, v) :: rest => if String.eqb k key then Some v else lookupProp key rest
  end.

(** [response?.pools] *)
Definition poolsOf (response : Json) : option Json :=
  match response with
  | JObject props => lookupProp "pools" props
  | _ => None
  end.

(** The [poolList] of [load]. *)
Definition poolList (response : Json) : list Json :=
  match poolsOf response with
  | Some (JArray pools) => pools
  | _ =>
      match response with
      | JArray items => items
      | _ => []
      end
  end.

(** The four state cells of [usePoolsData]. *)
Record State : Type := {
  pools : list Json;
  loading : bool;
  error : option string;
  lastUpdated : option Z
}.

Definition initialState : State :=
  {| pools := []; loading := true; error := None; lastUpdated := None |}.

Definition setPools (v : list Json) (s : State) : State :=
  {| pools := v; loading := loading s; error := error s;
     lastUpdated := lastUpdated s |}.

Definition setLoading (v : bool) (s : State) : State :=
  {| pools := pools s; loading := v; error := error s;
     lastUpdated := lastUpdated s |}.

Definition setError (v : option string) (s : State) : State :=
  {| pools := pools s; loading := loading s; error := v;
     lastUpdated := lastUpdated s |}.

Definition setLastUpdated (v : option Z) (s : State) : State :=
  {| pools := pools s; loading := loading s; error := error s;
     lastUpdated := v |}.

(** [load]; [now] is the reading of [Date.now()] in the success branch. *)
Definition load (http : HttpResult) (now : Z) (s : State) : State :=
  let s1 := setLoading true s in
  let s2 :=
    match fetchPools http with
    | Returned response =>
        setLastUpdated (Some now) (setError None (setPools (poolList response) s1))
    | Thrown => setError (Some "Unable to load pool data.") s1
    end in
  setLoading false s2.

End PoolsData.

(** ** The stratum latency panel *)

Module Panel.
Import JS.

(** [StratumLocation], without its [label] and [notes] display texts. *)
Record StratumLocation : Type := {
  id : string;
  host : string;
  port : number
}.

(** The part of a [Pool] the panel reads to place its entries: the id and
    the keys of the port map, in [Object.keys] order ([None] when the pool
    has no port map). *)
Record Pool : Type := {
  poolId : string;
  portKeys : option (list string)
}.

(** The inner [forEach]: one port key of one pool. *)
Definition addPort (defaultHost : string) (pool : Pool)
    (generated : list StratumLocation) (port : string) : list StratumLocation :=
  if negb (truthy (Number_of_string port)) then generated
  else if (6 <=? length generated)%nat then generated
  else (generated ++ [{| id := poolId pool +:+ "-" +:+ port;
                         host := defaultHost;
                         port := Number_of_string port |}])%list.

(** The outer [forEach]: one pool. *)
Definition addPool (defaultHost : string)
    (generated : list StratumLocation) (pool : Pool) : list StratumLocation :=
  fold_left (addPort defaultHost pool)
    (match portKeys pool with Some ks => ks | None => [] end) generated.

Definition fallbackLocation (defaultHost : string) : StratumLocation :=
  {| id := "default-5108"; host := defaultHost; port := Num 5108 |}.

(** [derivedLocations]; [locations] is [None] when the prop is not given. *)
Definition derivedLocations (pools : list Pool) (defaultHost : string)
    (locations : option (list StratumLocation)) : list StratumLocation :=
  match locations with
  | Some (l :: ls) => l :: ls
  | _ =>
      match fold_left (addPool defaultHost) pools [] with
      | [] => [fallbackLocation defaultHost]
      | generated => generated
      end
  end.

End Panel.

Import JS PoolPage.

(** ** The pool detail page: what is shown, and when probes start *)

Module PageView.
Import JS PoolPage.

(** [effectiveSelectedGroup] *)
Definition effectiveSelectedGroup (v : View) : option ConnectionGroup :=
  orAlt (selectedGroup v)
    (orAlt (bestLatencyGroup v) (orAlt (defaultGroup v) (head (viewGroups v)))).

(** [effectiveSelectedEndpoint], for the selected endpoint id of the
    render. *)
Definition effectiveSelectedEndpoint (v : View) (s : Selection)
  : option ConnectionRow :=
  match effectiveSelectedGroup v with
  | None => None
  | Some g =>
      let explicit :=
        match selectedEndpointId s with
        | Some k =>
            if nonEmpty k
            then List.find (fun e => String.eqb (id e) k) (endpoints g)
            else None
        | None => None
        end in
      match explicit with
      | Some e => Some e
      | None => pickEndpointForGroup (viewDefaultEndpoint v) (viewLatency v) (Some g)
      end
  end.

(** The probing state of the page: the ids in [measuredRef], the latency
    map with the queued updates applied, and the requests sent so far. *)
Record Probing : Type := {
  measuredRef : gset string;
  latencyMap : gmap string LatencyState;
  requests : list ConnectionRow
}.

(** [testLatency] up to its [await]: the id is marked, the sample is set
    to testing and the request leaves. *)
Definition testLatencyBegin (row : ConnectionRow) (p : Probing) : Probing :=
  {| measuredRef := {[id row]} ∪ measuredRef p;
     latencyMap :=
       <[id row := {| latency := None; status := testing; failure := None |}]>
         (latencyMap p);
     requests := (requests p ++ [row])%list |}.

(** The effect that probes the rows not measured yet. *)
Definition autoProbe (rows : list ConnectionRow) (p : Probing) : Probing :=
  fold_left
    (fun p row => if decide (id row ∈ measuredRef p) then p else testLatencyBegin row p)
    rows p.

(** [measuredRef.current.delete(row.id); testLatency(row)] *)
Definition probeAgain (p : Probing) (row : ConnectionRow) : Probing :=
  testLatencyBegin row
    {| measuredRef := measuredRef p ∖ {[id row]};
       latencyMap := latencyMap p;
       requests := requests p |}.

(** [remeasureAll] *)
Definition remeasureAll (rows : list ConnectionRow) (p : Probing) : Probing :=
  fold_left probeAgain rows p.

(** [retryGroup] *)
Definition retryGroup (group : ConnectionGroup) (p : Probing) : Probing :=
  fold_left probeAgain (endpoints group) p.

End PageView.

(** ** Latency badges of the pool page and of the panel *)

Module Display.
Import JS PoolPage.

(** A number of milliseconds inside a template string (whole numbers below
    10^21 print as plain decimals). *)
Definition decimal (z : Z) : string := NilZero.string_of_int (Z.to_int z).

Record Badge : Type := {
  label : string;
  className : string
}.

(** [latencyStatusFor] of the pool page *)
Definition latencyStatusFor (latencyMap : gmap string LatencyState)
    (row : ConnectionRow) : Badge :=
  match latencyMap !! id row with
  | None => {| label := "—"; className := "text-neutral-400" |}
  | Some entry =>
      if Status_eqb (status entry) idle
      then {| label := "—"; className := "text-neutral-400" |}
      else if Status_eqb (status entry) testing
      then {| label := "testing…"; className := "text-amber-300" |}
      else
        match latency entry with
        | None => {| label := "unreachable"; className := "text-rose-300" |}
        | Some l =>
            if Status_eqb (status entry) error
            then {| label := "unreachable"; className := "text-rose-300" |}
            else {| label := decimal l +:+ " ms";
                    className := if l <=? 120 then "text-emerald-300"
                                 else if l <=? 220 then "text-amber-300"
                                 else "text-rose-300" |}
        end
  end.

(** [DEFAULT_LATENCY] of the panel, whose [LatencyState] has the fields of
    the page's. *)
Definition DEFAULT_LATENCY : LatencyState :=
  {| latency := None; status := idle; failure := None |}.

(** [latencyToBadge] of the panel *)
Definition latencyToBadge (entry : LatencyState) : Badge :=
  if Status_eqb (status entry) testing
  then {| label := "testing…";
          className := "bg-amber-500/20 text-amber-200 border-amber-500/40" |}
  else
    match latency entry with
    | None => {| label := "unreachable";
                 className := "bg-rose-500/20 text-rose-200 border-rose-500/40" |}
    | Some l =>
        if Status_eqb (status entry) error
        then {| label := "unreachable";
                className := "bg-rose-500/20 text-rose-200 border-rose-500/40" |}
        else if l <=? 120
        then {| label := decimal l +:+ " ms";
                className := "bg-emerald-500/20 text-emerald-100 border-emerald-500/40" |}
        else if l <=? 220
        then {| label := decimal l +:+ " ms";
                className := "bg-amber-500/20 text-amber-100 border-amber-500/40" |}
        else {| label := decimal l +:+ " ms";
                className := "bg-rose-500/20 text-rose-100 border-rose-500/40" |}
    end.

(** [latencyDotClass] of the panel *)
Definition latencyDotClass (entry : LatencyState) : string :=
  if Status_eqb (status entry) testing then "bg-amber-400"
  else
    match latency entry with
    | None => "bg-rose-500"
    | Some l =>
        if Status_eqb (status entry) error then "bg-rose-500"
        else if l <=? 120 then "bg-emerald-400"
        else if l <=? 220 then "bg-amber-400"
        else "bg-rose-500"
    end.

(** [latencyMap[location.id] ?? DEFAULT_LATENCY] *)
Definition entryOf (latencyMap : gmap string LatencyState)
    (location : Panel.StratumLocation) : LatencyState :=
  match latencyMap !! Panel.id location with
  | Some entry => entry
  | None => DEFAULT_LATENCY
  end.

(** The update the panel applies to its latency map when the derived
    locations change: an idle entry for each location without one, and no
    entry for an id that is no location any more. *)
Definition syncLatencyMap (derivedLocations : list Panel.StratumLocation)
    (prev : gmap string LatencyState) : gmap string LatencyState :=
  let next :=
    fold_left
      (fun next location =>
         match next !! Panel.id location with
         | Some _ => next
         | None => <[Panel.id location := DEFAULT_LATENCY]> next
         end)
      derivedLocations prev in
  filter
    (fun entry : string * LatencyState =>
       existsb (fun location => String.eqb (Panel.id location) (fst entry))
         derivedLocations = true)
    next.

End Display.

(** ** Blocks and payments of the pool detail page *)

Module PoolFeeds.
Import PoolsData.

(** [fetchBlocks] and [fetchPayments] of the client: the response data as
    it is, or the error thrown again. *)
Definition fetchBlocks (http : HttpResult) : Outcome Json :=
  match http with
  | Resolved data => Returned data
  | Rejected => Thrown
  end.

Definition fetchPayments (http : HttpResult) : Outcome Json :=
  match http with
  | Resolved data => Returned data
  | Rejected => Thrown
  end.

(** [response?.key] when that is an array. *)
Definition arrayProp (key : string) (response : Json) : option (list Json) :=
  match response with
  | JObject props =>
      match lookupProp key props with
      | Some (JArray items) => Some items
      | _ => None
      end
  | _ => None
  end.

(** The [result] of the blocks branch of [load]. *)
Definition blocksOf (response : Json) : list Json :=
  match arrayProp "result" response with
  | Some items => items
  | None =>
      match arrayProp "blocks" response with
      | Some items => items
      | None =>
          match response with
          | JArray items => items
          | _ => []
          end
      end
  end.

(** The [result] of the payments branch of [load]. *)
Definition paymentsOf (response : Json) : list Json :=
  match arrayProp "payments" response with
  | Some items => items
  | None =>
      match response with
      | JArray items => items
      | _ => []
      end
  end.

Definition BLOCK_PAGE_SIZE : nat := 10.
Definition PAYMENT_PAGE_SIZE : nat := 10.

(** The four state cells the effect writes. *)
Record Feeds : Type := {
  blocks : list Json;
  payments : list Json;
  blocksError : option string;
  paymentsError : option string
}.

Definition setBlocks (v : list Json) (s : Feeds) : Feeds :=
  {| blocks := v; payments := payments s; blocksError := blocksError s;
     paymentsError := paymentsError s |}.

Definition setPayments (v : list Json) (s : Feeds) : Feeds :=
  {| blocks := blocks s; payments := v; blocksError := blocksError s;
     paymentsError := paymentsError s |}.

Definition setBlocksError (v : option string) (s : Feeds) : Feeds :=
  {| blocks := blocks s; payments := payments s; blocksError := v;
     paymentsError := paymentsError s |}.

Definition setPaymentsError (v : option string) (s : Feeds) : Feeds :=
  {| blocks := blocks s; payments := payments s; blocksError := blocksError s;
     paymentsError := v |}.

(** The blocks half of [load]: the state, and whether [load] goes on
    ([false] after the early [return]).  [active] is the flag as read once
    the request is over. *)
Definition loadBlocks (http : HttpResult) (active : bool) (s : Feeds)
  : Feeds * bool :=
  match fetchBlocks http with
  | Returned blocksResponse =>
      if negb active then (s, false)
      else (setBlocksError None
              (setBlocks (firstn BLOCK_PAGE_SIZE (blocksOf blocksResponse)) s),
            true)
  | Thrown =>
      (if active
       then setBlocksError (Some "Blocks endpoint unavailable for this pool.")
              (setBlocks [] s)
       else s,
       true)
  end.

(** The payments half of [load]. *)
Definition loadPayments (http : HttpResult) (active : bool) (s : Feeds) : Feeds :=
  match fetchPayments http with
  | Returned paymentsResponse =>
      if negb active then s
      else setPaymentsError None
             (setPayments (firstn PAYMENT_PAGE_SIZE (paymentsOf paymentsResponse)) s)
  | Thrown =>
      if active
      then setPaymentsError (Some "Payments endpoint unavailable for this pool.")
             (setPayments [] s)
      else s
  end.

(** [load] of the effect: the two requests one after the other, each with
    the [active] flag as it is when the request is over. *)
Definition load (blocksHttp : HttpResult) (activeAfterBlocks : bool)
    (paymentsHttp : HttpResult) (activeAfterPayments : bool) (s : Feeds) : Feeds :=
  let '(s1, goOn) := loadBlocks blocksHttp activeAfterBlocks s in
  if goOn then loadPayments paymentsHttp activeAfterPayments s1 else s1.

End PoolFeeds.

(** ** The connect page *)

Module ConnectPage.
Import JS PoolPage.

(** [Array.prototype.sort] with a comparator, as a stable insertion sort:
    an element goes before the first one the comparator places after it.
    This is the order of every engine when the comparator never returns
    NaN; otherwise the order is left to the engine, and only the elements
    of the result are modelled. *)
Fixpoint insertBy {A : Type} (cmp : A -> A -> number) (x : A) (l : list A)
  : list A :=
  match l with
  | [] => [x]
  | y :: l' => if gtb (cmp y x) (Num 0) then x :: y :: l' else y :: insertBy cmp x l'
  end.

Definition sortWith {A : Type} (cmp : A -> A -> number) (l : list A) : list A :=
  fold_left (fun acc x => insertBy cmp x acc) l [].

(** The part of a [Pool] the page reads: its id and its port map, in
    [Object.entries] order ([None] when the pool has none). *)
Record Pool : Type := {
  poolId : string;
  ports : option (list (string * PortConfig))
}.

(** [process.env.NEXT_PUBLIC_STRATUM_HOST || '192.168.2.100'] *)
Definition stratumHost (env : option string) : string :=
  match env with
  | Some h => if nonEmpty h then h else "192.168.2.100"
  | None => "192.168.2.100"
  end.

Definition hasPool (orderedPools : list Pool) (key : string) : bool :=
  existsb (fun pool => String.eqb (poolId pool) key) orderedPools.

(** The effect that sets [activePoolId]; [requested] is
    [searchParams.get('pool')]. *)
Definition nextActivePoolId (orderedPools : list Pool) (requested : option string)
    (prev : option string) : option string :=
  match orderedPools with
  | [] => prev
  | first :: _ =>
      let requested' := toLowerCase <$> requested in
      match requested' with
      | Some r =>
          if nonEmpty r && hasPool orderedPools r then Some r
          else
            match prev with
            | Some p => if nonEmpty p && hasPool orderedPools p then Some p
                        else Some (poolId first)
            | None => Some (poolId first)
            end
      | None =>
          match prev with
          | Some p => if nonEmpty p && hasPool orderedPools p then Some p
                      else Some (poolId first)
          | None => Some (poolId first)
          end
      end
  end.

(** [activePool] *)
Definition activePool (orderedPools : list Pool) (activePoolId : option string)
  : option Pool :=
  match activePoolId with
  | Some k => List.find (fun pool => String.eqb (poolId pool) k) orderedPools
  | None => None
  end.

Definition MAX_SAFE_INTEGER : Q := 9007199254740991.

(** [getMin] *)
Definition getMin (config : PortConfig) : Q :=
  match varDiff config with
  | Some v => match minDiff v with Some d => d | None => MAX_SAFE_INTEGER end
  | None => MAX_SAFE_INTEGER
  end.

(** The comparator of [portEntries]. *)
Definition compareEntries (a b : string * PortConfig) : number :=
  let da := getMin (snd a) in
  let db := getMin (snd b) in
  if negb (Qeq_bool da db) then Num (da - db)
  else sub (Number_of_string (fst a)) (Number_of_string (fst b)).

(** [portEntries] *)
Definition portEntries (pool : option Pool) : list (string * PortConfig) :=
  match pool with
  | None => []
  | Some p =>
      sortWith compareEntries (match ports p with Some es => es | None => [] end)
  end.

Definition hasPort (entries : list (string * PortConfig)) (key : string) : bool :=
  existsb (fun e => String.eqb (fst e) key) entries.

(** The effect that sets [selectedPort]. *)
Definition nextSelectedPort (entries : list (string * PortConfig))
    (prev : option string) : option string :=
  match entries with
  | [] => None
  | _ :: _ =>
      let keep :=
        match prev with
        | Some p => nonEmpty p && hasPort entries p
        | None => false
        end in
      if keep then prev
      else
        let midIndex := Nat.div (length entries) 2 in
        fst <$> nth_error entries (Nat.min midIndex (length entries - 1))
  end.

(** [latencyLocations], the list handed to the panel. *)
Definition latencyLocations (host : string) (pool : option Pool)
  : list Panel.StratumLocation :=
  map (fun e : string * PortConfig =>
         {| Panel.id := (match pool with Some p => poolId p | None => "undefined" end)
                        +:+ "-" +:+ fst e;
            Panel.host := host;
            Panel.port := Number_of_string (fst e) |})
      (portEntries pool).

End ConnectPage.

(** ** Relative times *)

Module Text.
Import JS.

(** [relativeTime]; [getTime] is [new Date(iso).getTime()], [None] for NaN,
    and [now] the reading of [Date.now()]. *)
Definition relativeTime (getTime : string -> option Z) (now : Z)
    (iso : option string) : string :=
  match iso with
  | None => "—"
  | Some text =>
      if negb (nonEmpty text) then "—"
      else
        match getTime text with
        | None => text
        | Some then_ =>
            let diff := now - then_ in
            let minute := 60000 in
            let hour := 60 * minute in
            let day := 24 * hour in
            if diff <? minute then "just now"
            else if diff <? hour
            then Display.decimal (diff / minute) +:+ " min ago"
            else if diff <? day
            then Display.decimal (diff / hour) +:+ " h ago"
            else Display.decimal (diff / day) +:+ " d ago"
        end
  end.

End Text.

(** ** Sample data of the specification *)

Module Samples.

(** The port configuration [{}]. *)
Definition emptyConfig : PortConfig :=
  {| name := None; protocol := None; listenAddress := None;
     difficulty := None; varDiff := None; tls := None; tlsAuto := None |}.

(** [{name: n}] *)
Definition named (n : string) : PortConfig :=
  {| name := Some n; protocol := None; listenAddress := None;
     difficulty := None; varDiff := None; tls := None; tlsAuto := None |}.

(** [{difficulty: d}] *)
Definition fixedDiff (d : Q) : PortConfig :=
  {| name := None; protocol := None; listenAddress := None;
     difficulty := Some d; varDiff := None; tls := None; tlsAuto := None |}.

(** [{3333: {}, 3355: {name: "Mid"}, 3377: {}}] *)
Definition portsMid : list (string * PortConfig) :=
  [("3333", emptyConfig); ("3355", named "Mid"); ("3377", emptyConfig)].

(** [{100: {difficulty: 4096}, 200: {difficulty: 1024}}] *)
Definition portsByDifficulty : list (string * PortConfig) :=
  [("100", fixedDiff 4096); ("200", fixedDiff 1024)].

(** [{100: {name: "Me-dium", difficulty: 4096}, 200: {difficulty: 1024}}] *)
Definition portsSplitName : list (string * PortConfig) :=
  [("100", {| name := Some "Me-dium"; protocol := None; listenAddress := None;
              difficulty := Some 4096%Q; varDiff := None; tls := None;
              tlsAuto := None |});
   ("200", fixedDiff 1024)].

(** [{100: {difficulty: 4096}, 200: {varDiff: {minDiff: 512}}}] *)
Definition portsByMinimum : list (string * PortConfig) :=
  [("100", fixedDiff 4096);
   ("200", {| name := None; protocol := None; listenAddress := None;
              difficulty := None;
              varDiff := Some {| minDiff := Some 512%Q; maxDiff := None;
                                 maxDelta := None; targetTime := None;
                                 retargetTime := None; variancePercent := None |};
              tls := None; tlsAuto := None |})].

(** [{3333: {}, 3355: {}}] *)
Definition portsPlain : list (string * PortConfig) :=
  [("3333", emptyConfig); ("3355", emptyConfig)].

(** The host when the environment sets none. *)
Definition poolLocal : string := stratumHost None.

Definition succeeded (ms : Z) : LatencyState :=
  {| latency := Some ms; status := success; failure := None |}.

Definition failed (reason : string) : LatencyState :=
  {| latency := None; status := error; failure := Some reason |}.

(** Three endpoints A, B, C of one host. *)
Definition endpointNamed (key : string) : ConnectionRow :=
  rowOfEntry poolLocal (key, emptyConfig).

Definition rowA : ConnectionRow := endpointNamed "A".
Definition rowB : ConnectionRow := endpointNamed "B".
Definition rowC : ConnectionRow := endpointNamed "C".

(** [{A: success 80, B: success 40, C: error}] *)
Definition samplesABC : gmap string LatencyState :=
  <[id rowA := succeeded 80]>
    (<[id rowB := succeeded 40]> (<[id rowC := failed "timeout"]> ∅)).

(** 3355 answers faster than 3333. *)
Definition samplesPlain : gmap string LatencyState :=
  <[ "pool.local-3333" := succeeded 80 ]>
    (<[ "pool.local-3355" := succeeded 40 ]> ∅).

(** The rows and the only group of the ports 3333 and 3355. *)
Definition row3333 : ConnectionRow := rowOfEntry poolLocal ("3333", emptyConfig).
Definition row3355 : ConnectionRow := rowOfEntry poolLocal ("3355", emptyConfig).

Definition groupPlain : ConnectionGroup :=
  {| groupId := poolLocal; groupLabel := label row3333; groupHost := poolLocal;
     endpoints := [row3333; row3355] |}.

(** A pool whose port map has the keys 3333, 0 and abc. *)
Definition poolMixedKeys : Panel.Pool :=
  {| Panel.poolId := "btc"; Panel.portKeys := Some ["3333"; "0"; "abc"] |}.

(** A pool whose port map has the key -5. *)
Definition poolNegativeKey : Panel.Pool :=
  {| Panel.poolId := "p"; Panel.portKeys := Some ["-5"] |}.

(** 3333 answers faster than 3355. *)
Definition samplesPlainSwapped : gmap string LatencyState :=
  <[ "pool.local-3333" := succeeded 20 ]>
    (<[ "pool.local-3355" := succeeded 90 ]> ∅).

End Samples.

Import Samples.

(** ** Vocabulary of the statements *)

(** The string [s] contains the string [p]. *)
Definition Contains (s p : string) : Prop := exists a b, s = a +:+ p +:+ b.

(** The letters a-z and the digits of a string, in order. *)
Definition isLetterOrDigit (c : ascii) : bool :=
  let n := nat_of_ascii c in
  ((97 <=? n)%nat && (n <=? 122)%nat) || ((48 <=? n)%nat && (n <=? 57)%nat).

Fixpoint lettersAndDigits (s : string) : string :=
  match s with
  | EmptyString => EmptyString
  | String c s' =>
      if isLetterOrDigit c then String c (lettersAndDigits s')
      else lettersAndDigits s'
  end.

(** The mid-tier marker of the specification: the name of the row
    contains "mid" or "medium", in any letter case. *)
Definition NamedMid (row : ConnectionRow) : Prop :=
  exists s, profileName row = Val s
            /\ (Contains (toLowerCase s) "mid" \/ Contains (toLowerCase s) "medium").

(** The marker read across separators: the letters and digits of the name
    in lower case contain "mid" or "medium". *)
Definition NamedMidCondensed (row : ConnectionRow) : Prop :=
  exists s, profileName row = Val s
            /\ (Contains (lettersAndDigits (toLowerCase s)) "mid"
                \/ Contains (lettersAndDigits (toLowerCase s)) "medium").

(** The effective difficulty of a row: its fixed difficulty, or else the
    minimum of its variable difficulty. *)
Definition EffectiveDifficulty (row : ConnectionRow) (d : Q) : Prop :=
  rowDifficulty row = Val d
  \/ ((rowDifficulty row = Null \/ rowDifficulty row = Undefined)
      /\ varDiffMin row = Val d).

(** The effective difficulty of a row lies in (0, 2048]. *)
Definition InRange (row : ConnectionRow) : Prop :=
  exists d : Q, EffectiveDifficulty row d /\ (0 < d)%Q /\ (d <= 2048)%Q.

(** Row [r] has a success sample carrying the latency [l]. *)
Definition Qualifies (m : gmap string LatencyState) (r : ConnectionRow) (l : Z)
  : Prop :=
  exists entry : LatencyState,
    m !! id r = Some entry /\ status entry = success /\ latency entry = Some l.

(** The latency a row competes with, if any. *)
Definition successLatency (m : gmap string LatencyState) (r : ConnectionRow)
: option Z :=
  match m !! id r with
  | Some entry => if Status_eqb (status entry) success then latency entry else None
  | None => None
  end.

(** What the loop knows after the rows [seen]. *)
Definition Leading (m : gmap string LatencyState) (seen : list ConnectionRow)
  (acc : option ConnectionRow * option Z) : Prop :=
  match acc with
  | (Some r, Some l) =>
      exists pre post,
        seen = (pre ++ r :: post)%list
        /\ successLatency m r = Some l
        /\ (forall x lx, x ∈ pre -> successLatency m x = Some lx -> l < lx)
        /\ (forall x lx, x ∈ post -> successLatency m x = Some lx -> l <= lx)
  | (None, None) => forall x, x ∈ seen -> successLatency m x = None
  | _ => False
  end.

(** The default endpoint as found among the endpoints of a group. *)
Definition defaultWithin (g : ConnectionGroup) (defaultEndpoint : option ConnectionRow)
  : option ConnectionRow :=
  match defaultEndpoint with
  | Some d =>
      if String.eqb (host d) (groupHost g)
      then List.find (fun e => String.eqb (id e) (id d)) (endpoints g)
      else None
  | None => None
  end.

(** The endpoint-level preference order of the page, most preferred first:
    the default endpoint when the group holds it, the first endpoint whose
    name contains "mid", the first endpoint without fixed difficulty or with
    a variable-difficulty minimum, the best latency within the group, the
    first endpoint of the group. *)
Definition endpointPreference (defaultEndpoint : option ConnectionRow)
    (m : gmap string LatencyState) (g : ConnectionGroup) : option ConnectionRow :=
  orAlt (defaultWithin g defaultEndpoint)
    (orAlt (List.find nameHasMid (endpoints g))
       (orAlt (List.find looksVarDiff (endpoints g))
          (orAlt (bestLatencyRow (endpoints g) m) (head (endpoints g))))).

(** The selected endpoint id names an endpoint of the group. *)
Definition EndpointListed (g : ConnectionGroup) (s : Selection) : Prop :=
  exists e, e ∈ endpoints g /\ selectedEndpointId s = Some (id e).

(** A data refresh: the rows of the refreshed port entries and the latency
    map of the moment, rendered once, with the two effects. *)
Definition refresh (h : string) (s : Selection)
    (data : list (string * PortConfig) * gmap string LatencyState) : Selection :=
  reconcile (connectionRows h (fst data)) (snd data) s.

(** The endpoint with id [k] is among the rows of the port entries. *)
Definition Offered (h : string) (entries : list (string * PortConfig)) (k : string)
  : Prop :=
  k ∈ map id (connectionRows h entries).

(** The selection is a manual one of the endpoint [k] in the group [h]. *)
Definition Pinned (h k : string) (s : Selection) : Prop :=
  manualSelectionRef s = true /\ manualEndpointRef s = true
  /\ selectedGroupId s = Some h /\ selectedEndpointId s = Some k.

(** [clamp(x, lo, hi)] of the specification. *)
Definition clamp (x lo hi : Q) : Q :=
  if Qltb x lo then lo else if Qltb hi x then hi else x.

(** The timeout a request asks for, as the route reads it: the requested
    value when it converts to a number other than zero, and 3000 when it is
    zero, missing, null or not numeric. *)
Definition requestedOrDefault (requested : LatencyRoute.Prim) : Q :=
  match LatencyRoute.Number requested with
  | Num q => if Qeq_bool q 0 then 3000 else q
  | NaN => 3000
  end.

(** A host that is not blank and a port that is a whole number of
    1..65535. *)
Definition ValidTarget (h p : LatencyRoute.Prim) : Prop :=
  (exists name, h = LatencyRoute.PString name /\ nonEmpty (trim name) = true)
  /\ exists (q : Q) (n : Z),
       LatencyRoute.Number p = Num q /\ (q == inject_Z n)%Q /\ 1 <= n <= 65535.

(** The scheduled fetches of the hook: each tick an outcome of the HTTP
    request and a clock reading. *)
Definition runLoads (ticks : list (PoolsData.HttpResult * Z)) (s : PoolsData.State)
  : PoolsData.State :=
  fold_left (fun st tick => PoolsData.load (fst tick) (snd tick) st) ticks s.

(** The entry the panel makes of the port key [key] of [pool]. *)
Definition locationOf (defaultHost : string) (pool : Panel.Pool) (key : string)
  : Panel.StratumLocation :=
  {| Panel.id := Panel.poolId pool +:+ "-" +:+ key;
     Panel.host := defaultHost;
     Panel.port := Number_of_string key |}.

(** A port key counts when its numeric conversion is neither NaN nor zero. *)
Definition usableKey (key : string) : bool := truthy (Number_of_string key).

(** The entries of all usable port keys, pool after pool, key after key. *)
Definition candidates (defaultHost : string) (pools : list Panel.Pool)
  : list Panel.StratumLocation :=
  concat (map (fun pool =>
                 map (locationOf defaultHost pool)
                   (List.filter usableKey
                      (match Panel.portKeys pool with
                       | Some ks => ks
                       | None => []
                       end)))
              pools).

(** Row [a] is listed no later than [b] by port: both ports are numbers
    and the first is at most the second. *)
Definition PortLe (a b : ConnectionRow) : Prop :=
  exists x y : Q, port a = Num x /\ port b = Num y /\ (x <= y)%Q.

(** The port of the row is a number. *)
Definition NumericPort (r : ConnectionRow) : Prop := exists x : Q, port r = Num x.


(** The rows held by a host table, host after host. *)
Definition tableRows (t : HostTable) : list ConnectionRow :=
  concat (map (fun e => snd (snd e)) t).

(** The group header of an entry carries the key as id and host, and the
    rows are rows of that host. *)
Definition EntryShape (e : string * (ConnectionGroup * list ConnectionRow)) : Prop :=
  groupId (fst (snd e)) = fst e /\ groupHost (fst (snd e)) = fst e
  /\ Forall (fun r => host r = fst e) (snd (snd e)).

(** A host table in order: the hosts are distinct, and each entry has the
    shape above and at least one row. *)
Definition TableOk (t : HostTable) : Prop :=
  NoDup (map fst t) /\ Forall EntryShape t /\ Forall (fun e => snd (snd e) <> []) t.


(** The group the pool page shows for the port entries of a pool. *)
Definition pageGroup (h : string) (entries : list (string * PortConfig))
  : option ConnectionGroup :=
  head (connectionGroups (connectionRows h entries)).


(** The sample of a probe in flight. *)
Definition inFlight : LatencyState :=
  {| latency := None; status := testing; failure := None |}.


(** The port of a row cannot be probed: it is NaN or not above zero. *)
Definition UnusablePort (row : ConnectionRow) : Prop :=
  port row = NaN \/ exists q : Q, port row = Num q /\ (q <= 0)%Q.

(** The sample of a request the route refuses. *)
Definition refusedSample : LatencyState :=
  {| latency := None; status := error;
     failure := Some "host and port are required" |}.


(** The difficulty a port entry is ordered by on the connect page: the
    minimum of its variable-difficulty policy, and 2^53 - 1 when the entry
    has no policy or the policy no minimum. *)
Definition MinDifficulty (config : PortConfig) (d : Q) : Prop :=
  (exists v, varDiff config = Some v /\ minDiff v = Some d)
  \/ ((forall v, varDiff config = Some v -> minDiff v = None)
      /\ d = inject_Z (2 ^ 53 - 1)).

(** The key of a port entry is a number. *)
Definition NumericKey (e : string * PortConfig) : Prop :=
  exists p : Q, Number_of_string (fst e) = Num p.

(** Entry [a] is listed no later than entry [b]: its minimum difficulty is
    lower, or the two are equal and its port number is at most that of
    [b]. *)
Definition EntryLe (a b : string * PortConfig) : Prop :=
  exists da db : Q,
    MinDifficulty (snd a) da /\ MinDifficulty (snd b) db
    /\ ((da < db)%Q
        \/ ((da == db)%Q
            /\ exists pa pb : Q,
                 Number_of_string (fst a) = Num pa
                 /\ Number_of_string (fst b) = Num pb /\ (pa <= pb)%Q)).

(** A pool with three difficulty tiers, the last without policy. *)
Definition poolTiers : ConnectPage.Pool :=
  {| ConnectPage.poolId := "btc";
     ConnectPage.ports :=
       Some [("3333",
              {| name := None; protocol := None; listenAddress := None;
                 difficulty := None;
                 varDiff := Some {| minDiff := Some 1024%Q; maxDiff := None;
                                    maxDelta := None; targetTime := None;
                                    retargetTime := None;
                                    variancePercent := None |};
                 tls := None; tlsAuto := None |});
             ("3334",
              {| name := None; protocol := None; listenAddress := None;
                 difficulty := None;
                 varDiff := Some {| minDiff := Some 256%Q; maxDiff := None;
                                    maxDelta := None; targetTime := None;
                                    retargetTime := None;
                                    variancePercent := None |};
                 tls := None; tlsAuto := None |});
             ("3335", emptyConfig)] |}.


(** The body and the clock reading of the latest fetch that succeeded,
    starting from [seen]. *)
Definition lastResolved (ticks : list (PoolsData.HttpResult * Z))
    (seen : option (PoolsData.Json * Z)) : option (PoolsData.Json * Z) :=
  fold_left
    (fun acc tick =>
       match fst tick with
       | PoolsData.Resolved data => Some (data, snd tick)
       | PoolsData.Rejected => acc
       end)
    ticks seen.


(** The first element of [l] with the property [P]. *)
Definition FirstWith {A : Type} (P : A -> Prop) (l : list A) (x : A) : Prop :=
  exists pre post,
    l = (pre ++ x :: post)%list /\ P x /\ Forall (fun y => ~ P y) pre.

(** The best-latency row of [rows]: a row with a success sample whose
    latency is below that of every such row before it and at most that of
    every such row after it. *)
Definition BestLatency (m : gmap string LatencyState) (rows : list ConnectionRow)
    (r : ConnectionRow) : Prop :=
  exists pre post l,
    rows = (pre ++ r :: post)%list
    /\ Qualifies m r l
    /\ (forall x lx, x ∈ pre -> Qualifies m x lx -> l < lx)
    /\ (forall x lx, x ∈ post -> Qualifies m x lx -> l <= lx).

(** No row has a success sample with a latency. *)
Definition NoSuccess (m : gmap string LatencyState) (rows : list ConnectionRow)
  : Prop :=
  forall x lx, x ∈ rows -> ~ Qualifies m x lx.

(** The best latency names no group: there is no success sample, or the
    best-latency row has the empty host. *)
Definition NoBestGroup (m : gmap string LatencyState) (rows : list ConnectionRow)
  : Prop :=
  NoSuccess m rows \/ exists r, BestLatency m rows r /\ host r = "".

(** The group the automatic choice settles on: the group of the
    best-latency row, else the group of the default endpoint, else the
    first group. *)
Definition AutoGroup (rows : list ConnectionRow) (m : gmap string LatencyState)
    (g : ConnectionGroup) : Prop :=
  g ∈ connectionGroups rows
  /\ ((exists r, BestLatency m rows r /\ host r <> ""
                 /\ groupHost g = host r /\ r ∈ endpoints g)
      \/ (NoBestGroup m rows
          /\ exists d, defaultEndpointRow rows = Some d /\ host d <> ""
                       /\ groupHost g = host d /\ d ∈ endpoints g)
      \/ (NoBestGroup m rows
          /\ (exists d, defaultEndpointRow rows = Some d /\ host d = "")
          /\ head (connectionGroups rows) = Some g)).

(** The selected group id names no group of the rows. *)
Definition GroupUnlisted (rows : list ConnectionRow) (s : Selection) : Prop :=
  forall k, selectedGroupId s = Some k ->
            k = "" \/ forall g, g ∈ connectionGroups rows -> groupId g <> k.

(** The group whose endpoints the endpoint level chooses among: the
    selected group when it is listed, else the group of the automatic
    choice. *)
Definition InView (rows : list ConnectionRow) (m : gmap string LatencyState)
    (s : Selection) (g : ConnectionGroup) : Prop :=
  g ∈ connectionGroups rows
  /\ ((exists k, selectedGroupId s = Some k /\ k <> "" /\ groupId g = k)
      \/ (GroupUnlisted rows s /\ AutoGroup rows m g)).

(** The name of the endpoint contains "mid", in any letter case. *)
Definition NameHasMid (e : ConnectionRow) : Prop :=
  exists s, profileName e = Val s /\ Contains (toLowerCase s) "mid".

(** The fixed difficulty of the endpoint is null or its variable-difficulty
    minimum is not null. *)
Definition VariableDifficulty (e : ConnectionRow) : Prop :=
  rowDifficulty e = Null \/ varDiffMin e <> Null.

(** The group does not hold the default endpoint [d]. *)
Definition NoDefaultHeld (d : option ConnectionRow) (g : ConnectionGroup) : Prop :=
  forall d0, d = Some d0 ->
             host d0 <> groupHost g
             \/ Forall (fun x => id x <> id d0) (endpoints g).

(** The endpoint the automatic choice settles on within the group [g]: the
    default endpoint [d] when the group holds it, else the first endpoint
    named "mid", else the first of variable difficulty, else the best
    latency of the group, else its first endpoint. *)
Definition AutoEndpoint (d : option ConnectionRow) (m : gmap string LatencyState)
    (g : ConnectionGroup) (e : ConnectionRow) : Prop :=
  (exists d0, d = Some d0 /\ host d0 = groupHost g
              /\ FirstWith (fun x => id x = id d0) (endpoints g) e)
  \/ (NoDefaultHeld d g
      /\ (FirstWith NameHasMid (endpoints g) e
          \/ (Forall (fun x => ~ NameHasMid x) (endpoints g)
              /\ (FirstWith VariableDifficulty (endpoints g) e
                  \/ (Forall (fun x => ~ VariableDifficulty x) (endpoints g)
                      /\ (BestLatency m (endpoints g) e
                          \/ (NoSuccess m (endpoints g)
                              /\ head (endpoints g) = Some e))))))).

(** Two hosts: port 3333 in Europe, and in America the ports 3333 with a
    fixed difficulty and 3355 named "Mid"; the American port 3333 answers
    fastest. *)
Definition rowsTwoHosts : list ConnectionRow :=
  [rowOfEntry "eu.pool" ("3333", fixedDiff 1024);
   rowOfEntry "us.pool" ("3333", fixedDiff 4096);
   rowOfEntry "us.pool" ("3355",
     {| name := Some "Mid"; protocol := None; listenAddress := None;
        difficulty := Some 8192%Q; varDiff := None; tls := None;
        tlsAuto := None |})].

Definition samplesTwoHosts : gmap string LatencyState :=
  <[ "eu.pool-3333" := succeeded 90 ]>
    (<[ "us.pool-3333" := succeeded 30 ]>
       (<[ "us.pool-3355" := succeeded 60 ]> ∅)).


(** * Properties *)

(** ** Lists: the first element a test accepts *)

Section Find.
Context {A : Type} (f : A -> bool).

Lemma find_first (pre post : list A) (x : A) :
  Forall (fun y => f y = false) pre -> f x = true ->
  List.find f (pre ++ x :: post) = Some x.
Proof.
  induction 1 as [|y pre Hy _ IH]; intros Hx; simpl.
  - now rewrite Hx.
  - rewrite Hy. now apply IH.
Qed.

Lemma find_split (l : list A) (x : A) :
  List.find f l = Some x ->
  exists pre post,
    l = (pre ++ x :: post)%list /\ Forall (fun y => f y = false) pre /\ f x = true.
Proof.
  induction l as [|y l IH]; simpl; [discriminate|].
  destruct (f y) eqn:Hy.
  - intros [= ->]. exists [], l. repeat split; auto.
  - intros H. destruct (IH H) as (pre & post & -> & Hpre & Hx).
    exists (y :: pre), post. repeat split; auto.
Qed.

Lemma find_none (l : list A) :
  List.find f l = None <-> Forall (fun y => f y = false) l.
Proof.
  induction l as [|y l IH]; simpl.
  - split; auto.
  - destruct (f y) eqn:Hy.
    + split; [discriminate|]. intros H. inversion H; congruence.
    + rewrite IH. split; [now constructor|]. intros H. now inversion H.
Qed.

End Find.

(** ** The default endpoint *)

Lemma Qltb_spec (a b : Q) : Qltb a b = true <-> (a < b)%Q.
Proof.
  unfold Qltb. rewrite negb_true_iff, <- not_true_iff_false, Qle_bool_iff.
  split; [apply Qnot_le_lt | apply Qlt_not_le].
Qed.

Lemma startsWith_spec (p s : string) :
  startsWith p s = true <-> exists b, s = p +:+ b.
Proof.
  revert s. induction p as [|c p IH]; intros s; simpl.
  - split; [intros _; now exists s | reflexivity].
  - destruct s as [|c' s]; [split; [discriminate | intros [b Hb]; discriminate]|].
    destruct (Ascii.eqb c c') eqn:Hc.
    + apply Ascii.eqb_eq in Hc. subst c'. rewrite IH. split.
      * intros [b ->]. now exists b.
      * intros [b [= ->]]. now exists b.
    + split; [discriminate|]. intros [b [= -> _]].
      now rewrite Ascii.eqb_refl in Hc.
Qed.

Lemma includes_spec (s p : string) : includes s p = true <-> Contains s p.
Proof.
  unfold Contains. split.
  - induction s as [|c s IH]; simpl.
    + rewrite orb_false_r. intros H. apply startsWith_spec in H as [b ->].
      now exists "", b.
    + intros H. apply orb_true_iff in H as [H|H].
      * apply startsWith_spec in H as [b ->]. now exists "", b.
      * destruct (IH H) as (a & b & ->). now exists (String c a), b.
  - intros (a & b & ->). induction a as [|c a IH].
    + destruct (p +:+ b) eqn:Hpb; simpl; rewrite <- ?Hpb;
        apply orb_true_iff; left; apply startsWith_spec; now exists b.
    + simpl. apply orb_true_iff. right. exact IH.
Qed.

Lemma not_Contains (s p : string) : includes s p = false -> ~ Contains s p.
Proof. intros H Hc. apply includes_spec in Hc. congruence. Qed.

Lemma Contains_prefix (s p q : string) : Contains s (p +:+ q) -> Contains s p.
Proof.
  intros (a & b & ->). exists a, (q +:+ b).
  f_equal. clear. induction p as [|c p IH]; [reflexivity|].
  change (String c ((p +:+ q) +:+ b) = String c (p +:+ q +:+ b)). now f_equal.
Qed.

Lemma lettersAndDigits_strip (s : string) : lettersAndDigits s = stripNonAlnum s.
Proof.
  unfold stripNonAlnum. induction s as [|c s IH]; simpl; [reflexivity|].
  rewrite IH. replace (isLetterOrDigit c) with (isLowerAlnum c); [reflexivity|].
  destruct c as [[] [] [] [] [] [] [] []]; reflexivity.
Qed.

(** The test of the default endpoint accepts no name without the marker
    read across separators. *)
Lemma isMidTier_NamedMidCondensed (row : ConnectionRow) :
  isMidTier row = true -> NamedMidCondensed row.
Proof.
  unfold isMidTier, NamedMidCondensed.
  destruct (profileName row) as [| |s]; try discriminate.
  rewrite <- lettersAndDigits_strip. intros H. exists s. split; [reflexivity|].
  apply orb_true_iff in H as [H|H]; [apply orb_true_iff in H as [H|H]|];
    apply includes_spec in H.
  - left. now apply (Contains_prefix _ "mid" "range").
  - left. now apply (Contains_prefix _ "mid" "tier").
  - now right.
Qed.

Lemma isPreferred_InRange (row : ConnectionRow) :
  isPreferred row = true <-> InRange row.
Proof.
  unfold isPreferred, effectiveDifficulty, InRange, EffectiveDifficulty, nullish.
  destruct (rowDifficulty row) as [| |d]; [destruct (varDiffMin row) as [| |d] ..|].
  1, 2, 4, 5:
    split; [discriminate|];
    intros (d & [H | [_ H]] & _); discriminate.
  1, 2:
    rewrite andb_true_iff, Qltb_spec, Qle_bool_iff; split;
    [ intros [H1 H2]; exists d; split; [right; split; [auto | reflexivity] | now split]
    | intros (d' & [H | [_ [= <-]]] & H1 & H2); [discriminate | now split] ].
  rewrite andb_true_iff, Qltb_spec, Qle_bool_iff. split.
  - intros [H1 H2]. exists d. split; [now left | now split].
  - intros (d' & [[= <-] | [[H|H] _]] & H1 & H2); [now split | discriminate ..].
Qed.

Lemma isPreferred_not_InRange (row : ConnectionRow) :
  isPreferred row = false <-> ~ InRange row.
Proof.
  rewrite <- isPreferred_InRange. destruct (isPreferred row); split; congruence.
Qed.

(** C1: the code misses what the claim says.  The port named "Mid" of the
    ports 3333, 3355 and 3377 carries the marker: its name contains "mid",
    the page labels it "Mid-range hardware" and the name test of
    [pickEndpointForGroup] accepts it, so that the endpoint picked without
    a default endpoint is port 3355.  The default endpoint looks for
    "midrange", "midtier" and "medium" only: it is port 3333, and port 3333
    is what the page selects. *)
Theorem default_endpoint_misses_port_named_mid :
  NamedMid (rowOfEntry poolLocal ("3355", named "Mid"))
  /\ tierLabelFor (profileName (rowOfEntry poolLocal ("3355", named "Mid")))
     = Some "Mid-range hardware"
  /\ nameHasMid (rowOfEntry poolLocal ("3355", named "Mid")) = true
  /\ port <$> pickEndpointForGroup None ∅
                (head (connectionGroups (connectionRows poolLocal portsMid)))
     = Some (Num 3355)
  /\ isMidTier (rowOfEntry poolLocal ("3355", named "Mid")) = false
  /\ port <$> defaultEndpointRow (connectionRows poolLocal portsMid)
     = Some (Num 3333)
  /\ port <$> defaultEndpointRow (connectionRows poolLocal portsMid)
     <> Some (Num 3355)
  /\ selectedEndpointId
       (reconcile (connectionRows poolLocal portsMid) ∅ initialSelection)
     = Some "pool.local-3333".
Proof.
  split.
  { exists "Mid". split; [reflexivity|]. left. now exists "", "". }
  repeat split; try reflexivity. vm_compute. discriminate.
Qed.

(** C5, with the marker read across separators: when the letters and
    digits of no name contain "mid" or "medium", the default endpoint of a
    non-empty list is the first row whose effective difficulty (the fixed
    difficulty, or else the variable-difficulty minimum) lies in (0, 2048],
    and the first row of the list when there is none.  The list of a port
    map has its hosts and ports in the order of the port map, so the first
    row is the first port entry.  For the ports 100 (difficulty 4096) and
    200 (difficulty 1024) the default endpoint is port 200. *)
Theorem default_endpoint_by_difficulty
    (first : ConnectionRow) (rest : list ConnectionRow)
    (Hmid : Forall (fun r => ~ NamedMidCondensed r) (first :: rest)) :
  (exists chosen : ConnectionRow,
     defaultEndpointRow (first :: rest) = Some chosen
     /\ ((InRange chosen
          /\ exists pre post,
               first :: rest = (pre ++ chosen :: post)%list
               /\ Forall (fun r => ~ InRange r) pre)
         \/ (Forall (fun r => ~ InRange r) (first :: rest) /\ chosen = first)))
  /\ (forall (h : string) (entries : list (string * PortConfig)),
        entries <> [] ->
        map (fun r => (host r, port r)) (connectionRows h entries)
        = map (fun e => (h, Number_of_string (fst e))) entries)
  /\ port <$> defaultEndpointRow (connectionRows poolLocal portsByDifficulty)
     = Some (Num 200).
Proof.
  split; [|split; [|reflexivity]].
  2: { intros h [|e es] Hne; [contradiction|]. unfold connectionRows.
       rewrite map_map. apply map_ext. now intros [k c]. }
  assert (Hnone : List.find isMidTier (first :: rest) = None).
  { apply find_none. eapply Forall_impl; [exact Hmid|]. intros r Hr.
    apply not_true_iff_false. intros H. now apply Hr, isMidTier_NamedMidCondensed. }
  unfold defaultEndpointRow. rewrite Hnone.
  destruct (List.find isPreferred (first :: rest)) as [r|] eqn:Hfind.
  - exists r. split; [reflexivity|]. left.
    apply find_split in Hfind as (pre & post & Heq & Hpre & Hr).
    split; [now apply isPreferred_InRange|].
    exists pre, post. split; [exact Heq|].
    eapply Forall_impl; [exact Hpre|]. intros x. apply isPreferred_not_InRange.
  - exists first. split; [reflexivity|]. right. split; [|reflexivity].
    apply find_none in Hfind.
    eapply Forall_impl; [exact Hfind|]. intros x. apply isPreferred_not_InRange.
Qed.

(** For the ports 100 (difficulty 4096) and 200 (variable difficulty from
    512) the default endpoint is port 200. *)
Lemma default_endpoint_by_difficulty_witness :
  port <$> defaultEndpointRow (connectionRows poolLocal portsByMinimum)
  = Some (Num 200).
Proof.
  destruct (default_endpoint_by_difficulty
              (rowOfEntry poolLocal (nth 0 portsByMinimum ("", emptyConfig)))
              [rowOfEntry poolLocal (nth 1 portsByMinimum ("", emptyConfig))])
    as [(chosen & Hsel & _) _].
  - repeat constructor; intros (s & Hname & _); discriminate Hname.
  - change (connectionRows poolLocal portsByMinimum)
      with [rowOfEntry poolLocal (nth 0 portsByMinimum ("", emptyConfig));
            rowOfEntry poolLocal (nth 1 portsByMinimum ("", emptyConfig))].
    rewrite Hsel. vm_compute in Hsel. injection Hsel as <-. reflexivity.
Defined.

(** C5 as stated fails: in the ports 100 (named "Me-dium", difficulty
    4096) and 200 (difficulty 1024) no name contains "mid" or "medium", and
    port 200 is the first and only one whose effective difficulty is in
    range; the default endpoint is port 100, whose name reads "medium"
    across the hyphen. *)
Lemma default_endpoint_reads_marker_across_separators :
  Forall (fun r => ~ NamedMid r) (connectionRows poolLocal portsSplitName)
  /\ (exists first second,
        connectionRows poolLocal portsSplitName = [first; second]
        /\ ~ InRange first /\ InRange second /\ port second = Num 200)
  /\ port <$> defaultEndpointRow (connectionRows poolLocal portsSplitName)
     = Some (Num 100)
  /\ port <$> defaultEndpointRow (connectionRows poolLocal portsSplitName)
     <> Some (Num 200).
Proof.
  split; [|split; [|split]].
  - repeat constructor.
    + intros (s & [= <-] & [H|H]); revert H; now apply not_Contains.
    + intros (s & Hname & _). discriminate Hname.
  - eexists _, _. split; [reflexivity|]. split; [|split].
    + apply isPreferred_not_InRange. reflexivity.
    + apply isPreferred_InRange. reflexivity.
    + reflexivity.
  - reflexivity.
  - vm_compute. discriminate.
Qed.

(** ** The best latency *)

Section BestLatency.
Variable m : gmap string LatencyState.

Lemma successLatency_Qualifies (r : ConnectionRow) (l : Z) :
  successLatency m r = Some l <-> Qualifies m r l.
Proof.
  unfold successLatency, Qualifies. split.
  - destruct (m !! id r) as [entry|]; [|discriminate].
    destruct (status entry) eqn:Hst; simpl; try discriminate.
    intros Hl. now exists entry.
  - intros (entry & -> & -> & Hl). exact Hl.
Qed.

Lemma latencyStep_successLatency (acc : option ConnectionRow * option Z)
    (r : ConnectionRow) :
  latencyStep m acc r =
  match successLatency m r with
  | Some l => if belowBound l (snd acc) then (Some r, Some l) else acc
  | None => acc
  end.
Proof.
  unfold latencyStep, successLatency.
  destruct (m !! id r) as [entry|]; [|reflexivity].
  destruct (Status_eqb (status entry) success); reflexivity.
Qed.

Lemma Leading_step (seen : list ConnectionRow)
    (acc : option ConnectionRow * option Z) (r : ConnectionRow) :
  Leading m seen acc -> Leading m (seen ++ [r]) (latencyStep m acc r).
Proof.
  rewrite latencyStep_successLatency.
  destruct acc as [[best|] [bound|]]; simpl; try contradiction.
  - intros (pre & post & -> & Hbest & Hpre & Hpost).
    destruct (successLatency m r) as [l|] eqn:Hr.
    + destruct (Z.ltb_spec l bound) as [Hlt|Hge]; simpl.
      * exists (pre ++ best :: post)%list, []. split; [reflexivity|].
        split; [exact Hr|]. split.
        -- intros x lx Hx Hlx.
           apply elem_of_app in Hx as [Hx|Hx].
           ++ specialize (Hpre x lx Hx Hlx). lia.
           ++ apply elem_of_cons in Hx as [->|Hx].
              ** rewrite Hbest in Hlx. injection Hlx as <-. exact Hlt.
              ** specialize (Hpost x lx Hx Hlx). lia.
        -- intros x lx Hx. now apply elem_of_nil in Hx.
      * exists pre, (post ++ [r])%list. split; [now rewrite <- app_assoc|].
        split; [exact Hbest|]. split; [exact Hpre|].
        intros x lx Hx Hlx. apply elem_of_app in Hx as [Hx|Hx].
        -- now apply (Hpost x).
        -- apply list_elem_of_singleton in Hx as ->.
           rewrite Hr in Hlx. injection Hlx as <-. exact Hge.
    + exists pre, (post ++ [r])%list. split; [now rewrite <- app_assoc|].
      split; [exact Hbest|]. split; [exact Hpre|].
      intros x lx Hx Hlx. apply elem_of_app in Hx as [Hx|Hx].
      * now apply (Hpost x).
      * apply list_elem_of_singleton in Hx as ->. congruence.
  - intros Hnone. destruct (successLatency m r) as [l|] eqn:Hr; simpl.
    + exists seen, []. split; [reflexivity|]. split; [exact Hr|]. split.
      * intros x lx Hx Hlx. rewrite (Hnone x Hx) in Hlx. discriminate.
      * intros x lx Hx. now apply elem_of_nil in Hx.
    + intros x Hx. apply elem_of_app in Hx as [Hx|Hx]; [now apply Hnone|].
      now apply list_elem_of_singleton in Hx as ->.
Qed.

Lemma Leading_fold (rows seen : list ConnectionRow)
    (acc : option ConnectionRow * option Z) :
  Leading m seen acc ->
  Leading m (seen ++ rows) (fold_left (latencyStep m) rows acc).
Proof.
  revert seen acc. induction rows as [|r rows IH]; intros seen acc H; simpl.
  - now rewrite app_nil_r.
  - replace (seen ++ r :: rows)%list with ((seen ++ [r]) ++ rows)%list
      by now rewrite <- app_assoc.
    apply IH. now apply Leading_step.
Qed.

Lemma Leading_all (rows : list ConnectionRow) :
  Leading m rows (fold_left (latencyStep m) rows (None, None)).
Proof.
  apply (Leading_fold rows [] (None, None)).
  intros x Hx. now apply elem_of_nil in Hx.
Qed.

End BestLatency.

Lemma bestLatencyRow_none (rows : list ConnectionRow)
    (m : gmap string LatencyState) :
  (forall x lx, x ∈ rows -> ~ Qualifies m x lx) -> bestLatencyRow rows m = None.
Proof.
  intros Hnone. unfold bestLatencyRow. pose proof (Leading_all m rows) as H.
  destruct (fold_left (latencyStep m) rows (None, None)) as [[r|] [l|]];
    simpl in *; try contradiction; [|reflexivity].
  destruct H as (pre & post & -> & Hr & _). exfalso.
  apply (Hnone r l); [|now apply successLatency_Qualifies].
  apply elem_of_app. right. apply list_elem_of_here.
Qed.

(** C4: the best-latency row is a row with a success sample whose latency
    is strictly below that of every qualifying row before it and at most
    that of every qualifying row after it; no row is returned exactly when
    none has a success sample with a latency, so a row without sample, or
    with an idle, testing or error sample, is never returned.  For A at
    80 ms, B at 40 ms and C in error, the row is B. *)
Theorem best_latency_row_is_first_minimum
    (rows : list ConnectionRow) (m : gmap string LatencyState) :
  match bestLatencyRow rows m with
  | Some r =>
      exists pre post l,
        rows = (pre ++ r :: post)%list
        /\ Qualifies m r l
        /\ (forall x lx, x ∈ pre -> Qualifies m x lx -> l < lx)
        /\ (forall x lx, x ∈ post -> Qualifies m x lx -> l <= lx)
  | None => forall x lx, x ∈ rows -> ~ Qualifies m x lx
  end
  /\ bestLatencyRow [rowA; rowB; rowC] samplesABC = Some rowB.
Proof.
  split; [|reflexivity].
  unfold bestLatencyRow. pose proof (Leading_all m rows) as H.
  destruct (fold_left (latencyStep m) rows (None, None)) as [[r|] [l|]];
    simpl in *; try contradiction.
  - destruct H as (pre & post & Heq & Hr & Hpre & Hpost).
    exists pre, post, l. split; [exact Heq|].
    split; [now apply successLatency_Qualifies|]. split.
    + intros x lx Hx Hq. apply (Hpre x lx Hx). now apply successLatency_Qualifies.
    + intros x lx Hx Hq. apply (Hpost x lx Hx). now apply successLatency_Qualifies.
  - intros x lx Hx Hq. apply successLatency_Qualifies in Hq.
    rewrite (H x Hx) in Hq. discriminate.
Qed.

(** ** Reconciliation of the two selections *)

Lemma sameId_true (a b : option string) : sameId a b = true <-> a = b.
Proof. unfold sameId. apply bool_decide_eq_true. Qed.

Lemma pickEndpointForGroup_preference (d : option ConnectionRow)
    (m : gmap string LatencyState) (g : ConnectionGroup) :
  pickEndpointForGroup d m (Some g) = endpointPreference d m g.
Proof.
  unfold pickEndpointForGroup, endpointPreference, defaultWithin,
    fastestEndpointFor, bestLatencyRow.
  destruct (match d with Some _ => _ | None => _ end); [reflexivity|]; simpl.
  destruct (List.find nameHasMid (endpoints g)); [reflexivity|]; simpl.
  destruct (List.find looksVarDiff (endpoints g)); reflexivity.
Qed.

(** With at least one group, the group effect leaves the endpoint cell and
    the endpoint ref alone. *)
Lemma groupEffect_keeps_endpoint (v : View) (seen now : Selection) :
  viewGroups v <> [] ->
  selectedEndpointId (groupEffect v seen now) = selectedEndpointId now
  /\ manualEndpointRef (groupEffect v seen now) = manualEndpointRef now.
Proof.
  intros Hne. unfold groupEffect. destruct (viewGroups v); [contradiction|].
  repeat match goal with |- context [if ?c then _ else _] => destruct c end;
    split; reflexivity.
Qed.

(** The endpoint effect leaves the group cell and the group ref alone. *)
Lemma endpointEffect_keeps_group (v : View) (seen now : Selection) :
  selectedGroupId (endpointEffect v seen now) = selectedGroupId now
  /\ manualSelectionRef (endpointEffect v seen now) = manualSelectionRef now.
Proof.
  unfold endpointEffect. destruct (endpointFallbackGroup v); [|split; reflexivity].
  repeat match goal with |- context [if ?c then _ else _] => destruct c end;
    split; reflexivity.
Qed.

(** The group effect, when it recomputes. *)
Lemma groupEffect_recomputes (v : View) (s : Selection) :
  viewGroups v <> [] ->
  manualSelectionRef s = false
  \/ getIfSet (viewById v) (selectedGroupId s) = None ->
  selectedGroupId (groupEffect v s s) = groupId <$> groupFallback v.
Proof.
  intros Hne Hauto. unfold groupEffect. destruct (viewGroups v); [contradiction|].
  set (stillExists := match selectedGroupId s with
                      | Some k => _ | None => false end).
  assert (Hcond : negb (manualSelectionRef s) || negb stillExists = true).
  { destruct Hauto as [->|Hgone]; [reflexivity|].
    apply orb_true_iff. right. apply negb_true_iff. subst stillExists.
    unfold getIfSet in Hgone. destruct (selectedGroupId s) as [k|]; [|reflexivity].
    destruct (nonEmpty k); [|reflexivity]. rewrite Hgone. reflexivity. }
  rewrite Hcond.
  destruct (sameId (groupId <$> groupFallback v) (selectedGroupId s)) eqn:Hsame;
    simpl; [|reflexivity].
  apply sameId_true in Hsame. now symmetry.
Qed.

Lemma existsb_listed (g : ConnectionGroup) (k : string) :
  existsb (fun e => String.eqb (id e) k) (endpoints g) = true <->
  exists e, e ∈ endpoints g /\ k = id e.
Proof.
  rewrite existsb_exists. split.
  - intros (e & Hin & Heq). exists e. split; [now apply list_elem_of_In|].
    symmetry. now apply String.eqb_eq.
  - intros (e & Hin & ->). exists e. split; [now apply list_elem_of_In|].
    apply String.eqb_refl.
Qed.

(** The endpoint effect, when it recomputes. *)
Lemma endpointEffect_recomputes (v : View) (seen now : Selection)
    (g : ConnectionGroup) :
  endpointFallbackGroup v = Some g ->
  selectedEndpointId now = selectedEndpointId seen ->
  manualEndpointRef now = false \/ ~ EndpointListed g seen ->
  selectedEndpointId (endpointEffect v seen now)
  = id <$> endpointPreference (viewDefaultEndpoint v) (viewLatency v) g
  /\ (selectedEndpointId seen
      <> (id <$> endpointPreference (viewDefaultEndpoint v) (viewLatency v) g) ->
      manualEndpointRef (endpointEffect v seen now) = false).
Proof.
  intros Hg Hkept Hauto. unfold endpointEffect. rewrite Hg.
  rewrite pickEndpointForGroup_preference.
  set (stillExists := match selectedEndpointId seen with
                      | Some k => _ | None => false end).
  assert (Hcond : negb (manualEndpointRef now) || negb stillExists = true).
  { destruct Hauto as [->|Hgone]; [reflexivity|].
    apply orb_true_iff. right. apply negb_true_iff. subst stillExists.
    destruct (selectedEndpointId seen) as [k|] eqn:Hk; [|reflexivity].
    apply andb_false_iff. right. apply not_true_iff_false. intros Hex.
    apply existsb_listed in Hex as (e & Hin & ->).
    apply Hgone. exists e. now split. }
  rewrite Hcond.
  destruct (sameId _ (selectedEndpointId seen)) eqn:Hsame; simpl.
  - apply sameId_true in Hsame. split; [congruence|]. intros Hne. congruence.
  - split; reflexivity.
Qed.

(** With at least one group, one render and its effects recompute each
    level on its own condition: the group level from the fallback chain of
    the group effect, the endpoint level from [endpointPreference] within
    the group the endpoint effect works in. *)
Lemma reconcile_follows_fallback
    (rows : list ConnectionRow) (m : gmap string LatencyState) (s : Selection) :
  connectionGroups rows <> [] ->
  let v := render rows m s in
  (manualSelectionRef s = false \/ selectedGroup v = None ->
   selectedGroupId (reconcile rows m s) = groupId <$> groupFallback v)
  /\ (forall g,
        endpointFallbackGroup v = Some g ->
        manualEndpointRef s = false \/ ~ EndpointListed g s ->
        selectedEndpointId (reconcile rows m s)
        = id <$> endpointPreference (defaultEndpointRow rows) m g).
Proof.
  intros Hgroups v.
  assert (Hne : viewGroups v <> []) by exact Hgroups.
  split.
  - intros Hauto. unfold reconcile. fold v.
    rewrite (proj1 (endpointEffect_keeps_group v s (groupEffect v s s))).
    now apply groupEffect_recomputes.
  - intros g Hg Hauto. unfold reconcile. fold v.
    destruct (groupEffect_keeps_endpoint v s s Hne) as [Hcell Href].
    apply (endpointEffect_recomputes v s (groupEffect v s s) g Hg Hcell).
    rewrite Href. exact Hauto.
Qed.

(** C2 as stated fails at the endpoint level: with no manual selection and
    port 3355 holding the best latency, both in the whole list and within
    its group, the endpoint selected is the default one, port 3333, and it
    stays so however often the page renders again. *)
Lemma reconcile_endpoint_is_not_best_latency :
  manualEndpointRef initialSelection = false
  /\ id <$> bestLatencyRow (connectionRows poolLocal portsPlain) samplesPlain
     = Some "pool.local-3355"
  /\ id <$> fastestEndpointFor samplesPlain
              (head (connectionGroups (connectionRows poolLocal portsPlain)))
     = Some "pool.local-3355"
  /\ selectedEndpointId
       (reconcile (connectionRows poolLocal portsPlain) samplesPlain initialSelection)
     = Some "pool.local-3333"
  /\ selectedEndpointId
       (settle 4 (connectionRows poolLocal portsPlain) samplesPlain initialSelection)
     <> id <$> bestLatencyRow (connectionRows poolLocal portsPlain) samplesPlain.
Proof.
  repeat split; try reflexivity. vm_compute. discriminate.
Qed.

(** ** Rows and groups of one host *)

Lemma nonEmpty_append (a b : string) :
  nonEmpty b = true -> nonEmpty (a +:+ b) = true.
Proof. destruct a; simpl; auto. Qed.

Lemma stratumHost_nonEmpty (env : option string) :
  nonEmpty (stratumHost env) = true.
Proof.
  unfold stratumHost. destruct env as [h|]; [|reflexivity].
  destruct (nonEmpty h) eqn:Hh; [exact Hh | reflexivity].
Qed.

Lemma connectionRows_cons (h : string) (entries : list (string * PortConfig)) :
  exists r rest, connectionRows h entries = r :: rest.
Proof. destruct entries; simpl; eauto. Qed.

Lemma connectionRows_host (h : string) (entries : list (string * PortConfig)) :
  Forall (fun r => host r = h) (connectionRows h entries).
Proof.
  destruct entries as [|e entries]; simpl; [now repeat constructor|].
  apply Forall_forall. intros r Hr.
  change (rowOfEntry h e :: map (rowOfEntry h) entries)
    with (map (rowOfEntry h) (e :: entries)) in Hr.
  apply list_elem_of_fmap in Hr as ([k c] & -> & _). reflexivity.
Qed.

Lemma connectionRows_id_nonEmpty (h : string)
    (entries : list (string * PortConfig)) (r : ConnectionRow) :
  r ∈ connectionRows h entries -> nonEmpty (id r) = true.
Proof.
  destruct entries as [|e entries]; simpl.
  - intros Hr. apply list_elem_of_singleton in Hr as ->. reflexivity.
  - intros Hr.
    change (rowOfEntry h e :: map (rowOfEntry h) entries)
      with (map (rowOfEntry h) (e :: entries)) in Hr.
    apply list_elem_of_fmap in Hr as ([k c] & -> & _). simpl.
    apply nonEmpty_append. reflexivity.
Qed.

Lemma insertSorted_perm (x : ConnectionRow) (l : list ConnectionRow) :
  insertSorted x l ≡ₚ x :: l.
Proof.
  induction l as [|y l IH]; cbn [insertSorted]; [reflexivity|].
  destruct (gtb (comparePort y x) (Num 0)); [reflexivity|].
  rewrite IH. apply Permutation_swap.
Qed.

Lemma sortByPort_perm (l : list ConnectionRow) : sortByPort l ≡ₚ l.
Proof.
  unfold sortByPort.
  enough (H : forall acc,
             fold_left (fun acc x => insertSorted x acc) l acc ≡ₚ (acc ++ l)%list)
    by apply (H []).
  induction l as [|x l IH]; intros acc; simpl.
  - now rewrite app_nil_r.
  - rewrite IH, insertSorted_perm. simpl. apply Permutation_middle.
Qed.

Lemma addRow_same_host (h : string) (g : ConnectionGroup)
    (rs : list ConnectionRow) (r : ConnectionRow) :
  host r = h -> addRow [(h, (g, rs))] r = [(h, (g, (rs ++ [r])%list))].
Proof.
  intros <-. unfold addRow, hasHost; simpl.
  rewrite String.eqb_refl; simpl. now rewrite String.eqb_refl.
Qed.

Lemma fold_addRow_same_host (h : string) (g : ConnectionGroup)
    (rows rs : list ConnectionRow) :
  Forall (fun r => host r = h) rows ->
  fold_left addRow rows [(h, (g, rs))] = [(h, (g, (rs ++ rows)%list))].
Proof.
  intros Hrows. revert rs.
  induction Hrows as [|r rows Hr _ IH]; intros rs; simpl.
  - now rewrite app_nil_r.
  - rewrite (addRow_same_host h g rs r Hr), IH. now rewrite <- app_assoc.
Qed.

(** The rows of one host form one group, sorted by port. *)
Lemma connectionGroups_one_host (h : string) (r : ConnectionRow)
    (rest : list ConnectionRow) :
  Forall (fun x => host x = h) (r :: rest) ->
  connectionGroups (r :: rest) =
  [{| groupId := h; groupLabel := label r; groupHost := h;
      endpoints := sortByPort (r :: rest) |}].
Proof.
  intros Hall. inversion Hall as [|? ? Hr Hrest]; subst.
  unfold connectionGroups. simpl fold_left.
  assert (Hfirst : addRow [] r
                   = [(host r, ({| groupId := host r; groupLabel := label r;
                                   groupHost := host r; endpoints := [] |}, [r]))]).
  { unfold addRow; simpl. now rewrite String.eqb_refl. }
  rewrite Hfirst, (fold_addRow_same_host (host r)); [|exact Hrest].
  reflexivity.
Qed.

Lemma defaultEndpointRow_elem (rows : list ConnectionRow) (d : ConnectionRow) :
  defaultEndpointRow rows = Some d -> d ∈ rows.
Proof.
  unfold defaultEndpointRow. destruct rows as [|first rest]; [discriminate|].
  destruct (List.find isMidTier (first :: rest)) eqn:Hmid.
  - intros [= <-]. apply find_some in Hmid as [Hin _]. now apply list_elem_of_In.
  - destruct (List.find isPreferred (first :: rest)) eqn:Hpref.
    + intros [= <-]. apply find_some in Hpref as [Hin _]. now apply list_elem_of_In.
    + intros [= <-]. apply list_elem_of_here.
Qed.

Lemma defaultEndpointRow_is_Some (r : ConnectionRow) (rest : list ConnectionRow) :
  exists d, defaultEndpointRow (r :: rest) = Some d.
Proof.
  unfold defaultEndpointRow.
  destruct (List.find isMidTier (r :: rest)); [eauto|].
  destruct (List.find isPreferred (r :: rest)); eauto.
Qed.

Lemma find_by_id (l : list ConnectionRow) (d : ConnectionRow) :
  d ∈ l ->
  exists e, List.find (fun e => String.eqb (id e) (id d)) l = Some e
            /\ id e = id d /\ e ∈ l.
Proof.
  induction l as [|y l IH]; intros Hd; [now apply elem_of_nil in Hd|].
  simpl. destruct (String.eqb (id y) (id d)) eqn:Hy.
  - exists y. split; [reflexivity|]. split; [now apply String.eqb_eq|].
    apply list_elem_of_here.
  - apply elem_of_cons in Hd as [->|Hd]; [now rewrite String.eqb_refl in Hy|].
    destruct (IH Hd) as (e & Hfind & Hid & Hin). exists e.
    split; [exact Hfind|]. split; [exact Hid|]. now apply list_elem_of_further.
Qed.

(** What a render shows for the rows of the port entries when the group of
    the host is the selected one. *)
Lemma render_one_host (h : string) (entries : list (string * PortConfig))
    (m : gmap string LatencyState) (s : Selection) :
  nonEmpty h = true -> selectedGroupId s = Some h ->
  exists g,
    let v := render (connectionRows h entries) m s in
    viewGroups v = [g] /\ viewById v !! h = Some g
    /\ endpointFallbackGroup v = Some g
    /\ groupHost g = h /\ endpoints g ≡ₚ connectionRows h entries.
Proof.
  intros Hh Hsel.
  destruct (connectionRows_cons h entries) as (r & rest & Hrows).
  pose proof (connectionRows_host h entries) as Hhost. rewrite Hrows in *.
  pose proof (connectionGroups_one_host h r rest Hhost) as Hgroups.
  eexists. cbv zeta. unfold endpointFallbackGroup, render; simpl.
  rewrite Hgroups, Hsel. unfold groupById; simpl. rewrite Hh.
  rewrite lookup_insert_eq. simpl.
  repeat split; try reflexivity. apply sortByPort_perm.
Qed.

(** A manual group selection that still exists is left alone. *)
Lemma groupEffect_pinned (v : View) (s : Selection) (h : string)
    (g : ConnectionGroup) :
  viewGroups v <> [] -> manualSelectionRef s = true ->
  selectedGroupId s = Some h -> nonEmpty h = true -> viewById v !! h = Some g ->
  groupEffect v s s = s.
Proof.
  intros Hne Hman Hsel Hh Hlook. unfold groupEffect.
  destruct (viewGroups v); [contradiction|].
  rewrite Hman, Hsel, Hh, Hlook. reflexivity.
Qed.

(** A manual endpoint selection that the group still lists is left alone. *)
Lemma endpointEffect_pinned (v : View) (s : Selection) (k : string)
    (g : ConnectionGroup) :
  endpointFallbackGroup v = Some g -> manualEndpointRef s = true ->
  selectedEndpointId s = Some k -> nonEmpty k = true ->
  (exists e, e ∈ endpoints g /\ k = id e) ->
  endpointEffect v s s = s.
Proof.
  intros Hg Hman Hsel Hk Hlisted. unfold endpointEffect.
  apply existsb_listed in Hlisted. rewrite Hg, Hman, Hsel, Hk, Hlisted.
  reflexivity.
Qed.

Lemma offered_listed (h : string) (entries : list (string * PortConfig))
    (g : ConnectionGroup) (k : string) :
  endpoints g ≡ₚ connectionRows h entries ->
  Offered h entries k <-> exists e, e ∈ endpoints g /\ k = id e.
Proof.
  intros Hperm. unfold Offered. rewrite list_elem_of_fmap.
  split; intros (e & H1 & H2); exists e.
  - split; [now rewrite Hperm | exact H1].
  - split; [exact H2 | now rewrite <- Hperm].
Qed.

(** A refresh that still offers the pinned endpoint changes nothing. *)
Lemma refresh_keeps_pinned (h k : string) (s : Selection)
    (entries : list (string * PortConfig)) (m : gmap string LatencyState) :
  nonEmpty h = true -> nonEmpty k = true -> Pinned h k s ->
  Offered h entries k -> refresh h s (entries, m) = s.
Proof.
  intros Hh Hk (Hman & Hmane & Hgroup & Hendpoint) Hoffered.
  unfold refresh, reconcile; simpl.
  destruct (render_one_host h entries m s Hh Hgroup)
    as (g & Hgroups & Hlook & Hfallback & Hhost & Hperm).
  rewrite (groupEffect_pinned _ s h g); auto.
  - apply (endpointEffect_pinned _ s k g); auto.
    now apply (offered_listed h entries).
  - now rewrite Hgroups.
Qed.

(** A refresh that no longer offers the pinned endpoint selects the default
    endpoint of the refreshed rows and drops the manual mark. *)
Lemma refresh_drops_pinned (h k : string) (s : Selection)
    (entries : list (string * PortConfig)) (m : gmap string LatencyState) :
  nonEmpty h = true -> Pinned h k s -> ~ Offered h entries k ->
  manualEndpointRef (refresh h s (entries, m)) = false
  /\ selectedEndpointId (refresh h s (entries, m))
     = id <$> defaultEndpointRow (connectionRows h entries)
  /\ selectedEndpointId (refresh h s (entries, m))
     = id <$> pickEndpointForGroup (defaultEndpointRow (connectionRows h entries)) m
                (head (connectionGroups (connectionRows h entries))).
Proof.
  intros Hh (Hman & Hmane & Hgroup & Hendpoint) Habsent.
  unfold refresh, reconcile; simpl.
  destruct (render_one_host h entries m s Hh Hgroup)
    as (g & Hgroups & Hlook & Hfallback & Hhost & Hperm).
  cbv zeta in *.
  set (v := render (connectionRows h entries) m s) in *.
  rewrite (groupEffect_pinned v s h g); auto; [|now rewrite Hgroups].
  assert (Hunlisted : ~ EndpointListed g s).
  { intros (e & Hin & Heq). apply Habsent.
    apply (offered_listed h entries g k Hperm). exists e. split; [exact Hin|].
    congruence. }
  destruct (endpointEffect_recomputes v s s g Hfallback eq_refl
              (or_intror Hunlisted)) as [Hchoice Hmark].
  change (viewDefaultEndpoint v) with (defaultEndpointRow (connectionRows h entries))
    in *.
  change (viewLatency v) with m in *.
  assert (Hhead : head (connectionGroups (connectionRows h entries)) = Some g).
  { change (connectionGroups (connectionRows h entries)) with (viewGroups v).
    now rewrite Hgroups. }
  rewrite Hhead, pickEndpointForGroup_preference.
  destruct (connectionRows_cons h entries) as (r & rest & Hrows).
  destruct (defaultEndpointRow_is_Some r rest) as (d & Hd).
  rewrite <- Hrows in Hd.
  assert (Hdin : d ∈ connectionRows h entries) by now apply defaultEndpointRow_elem.
  assert (Hdhost : host d = h).
  { pose proof (connectionRows_host h entries) as Hall.
    rewrite Forall_forall in Hall. now apply Hall. }
  destruct (find_by_id (endpoints g) d) as (e & Hfind & Hid & Hein);
    [now rewrite Hperm|].
  assert (Hpref : id <$> endpointPreference
                           (defaultEndpointRow (connectionRows h entries)) m g
                  = Some (id d)).
  { unfold endpointPreference, defaultWithin.
    rewrite Hd, Hdhost, Hhost, String.eqb_refl, Hfind. simpl. now rewrite Hid. }
  rewrite Hchoice, Hpref, Hd. split; [|split; reflexivity].
  apply Hmark. rewrite Hendpoint, Hpref. intros [= ->]. apply Habsent.
  unfold Offered. apply list_elem_of_fmap. now exists d.
Qed.

Lemma selectEndpoint_pinned (G : ConnectionGroup) (X : ConnectionRow)
    (s0 : Selection) :
  Pinned (groupId G) (id X) (selectEndpoint G X s0).
Proof.
  unfold Pinned, selectEndpoint.
  destruct (sameId (Some (groupId G)) (selectedGroupId s0)) eqn:Hsame; simpl.
  - apply sameId_true in Hsame. repeat split; auto.
  - repeat split; auto.
Qed.

Lemma fold_refresh_keeps_pinned (h k : string) (s : Selection)
    (refreshes : list (list (string * PortConfig) * gmap string LatencyState)) :
  nonEmpty h = true -> nonEmpty k = true -> Pinned h k s ->
  Forall (fun data => Offered h (fst data) k) refreshes ->
  fold_left (refresh h) refreshes s = s.
Proof.
  intros Hh Hk Hpinned Hall.
  induction Hall as [|[entries m] refreshes Hoffered _ IH]; simpl; [reflexivity|].
  rewrite (refresh_keeps_pinned h k s entries m); auto.
Qed.

(** C6: after the user selects the endpoint [X] of a listed group, every
    run of data refreshes that all still offer [X], whatever their latency
    samples, leaves [X] selected and marked manual; and a next refresh that
    no longer offers [X] selects, in that same refresh, what the automatic
    choice gives (here the default endpoint of the refreshed rows) and
    removes the manual mark. *)
Theorem manual_endpoint_sticky_until_absent
    (env : option string) (entries0 : list (string * PortConfig))
    (G : ConnectionGroup) (X : ConnectionRow) (s0 : Selection)
    (refreshes : list (list (string * PortConfig) * gmap string LatencyState))
    (HG : G ∈ connectionGroups (connectionRows (stratumHost env) entries0))
    (HX : X ∈ endpoints G)
    (Hall : Forall (fun data => Offered (stratumHost env) (fst data) (id X))
              refreshes) :
  let h := stratumHost env in
  let s := fold_left (refresh h) refreshes (selectEndpoint G X s0) in
  selectedEndpointId s = Some (id X)
  /\ manualEndpointRef s = true
  /\ forall entries m,
       ~ Offered h entries (id X) ->
       let s' := refresh h s (entries, m) in
       manualEndpointRef s' = false
       /\ selectedEndpointId s' <> Some (id X)
       /\ selectedEndpointId s'
          = id <$> pickEndpointForGroup
                     (defaultEndpointRow (connectionRows h entries)) m
                     (head (connectionGroups (connectionRows h entries)))
       /\ selectedEndpointId s'
          = id <$> defaultEndpointRow (connectionRows h entries).
Proof.
  intros h s.
  pose proof (stratumHost_nonEmpty env) as Hh. fold h in Hh, HG, Hall.
  destruct (connectionRows_cons h entries0) as (r & rest & Hrows).
  pose proof (connectionRows_host h entries0) as Hhost.
  rewrite Hrows in Hhost.
  rewrite Hrows, (connectionGroups_one_host h r rest Hhost) in HG.
  apply list_elem_of_singleton in HG. subst G. simpl in HX.
  rewrite sortByPort_perm, <- Hrows in HX.
  pose proof (connectionRows_id_nonEmpty h entries0 X HX) as Hk.
  set (G := {| groupId := h; groupLabel := label r; groupHost := h;
               endpoints := sortByPort (r :: rest) |}) in *.
  pose proof (selectEndpoint_pinned G X s0) as Hpinned.
  change (groupId G) with h in Hpinned.
  assert (Hs : s = selectEndpoint G X s0)
    by (apply (fold_refresh_keeps_pinned h (id X)); auto).
  rewrite Hs. destruct Hpinned as (Hman & Hmane & Hgroup & Hendpoint).
  split; [exact Hendpoint|]. split; [exact Hmane|].
  intros entries m Habsent s'.
  destruct (refresh_drops_pinned h (id X) (selectEndpoint G X s0) entries m Hh)
    as (Hmark & Hdefault & Hpick); [now repeat split | exact Habsent |].
  subst s'. split; [exact Hmark|]. split; [|split; [exact Hpick | exact Hdefault]].
  rewrite Hdefault. intros Heq. apply Habsent.
  destruct (defaultEndpointRow (connectionRows h entries)) as [d|] eqn:Hd;
    [|discriminate].
  injection Heq as Heq. unfold Offered. rewrite <- Heq.
  apply list_elem_of_fmap. exists d. split; [reflexivity|].
  now apply defaultEndpointRow_elem.
Qed.

(** The user picks port 3355; a refresh in which 3333 answers faster still
    offers 3355 and leaves it selected. *)
Lemma manual_endpoint_sticky_until_absent_witness :
  selectedEndpointId
    (fold_left (refresh poolLocal) [(portsPlain, samplesPlainSwapped)]
       (selectEndpoint groupPlain row3355 initialSelection))
  = Some "pool.local-3355".
Proof.
  apply (manual_endpoint_sticky_until_absent None portsPlain groupPlain row3355
           initialSelection [(portsPlain, samplesPlainSwapped)]).
  - apply list_elem_of_In. vm_compute. left. reflexivity.
  - apply list_elem_of_In. vm_compute. right. left. reflexivity.
  - constructor; [|constructor]. unfold Offered.
    apply list_elem_of_In. vm_compute. right. left. reflexivity.
Defined.

(** ** The latency route *)

(** Case analysis on every rational comparison of the goal. *)
Ltac split_comparisons :=
  repeat match goal with
    | |- context [Qle_bool ?a ?b] =>
        let H := fresh "Hcmp" in
        destruct (Qle_bool a b) eqn:H;
        [ apply Qle_bool_iff in H
        | apply not_true_iff_false in H; rewrite Qle_bool_iff in H ];
        cbn [negb]
    end.

Lemma clamp_min_max (x : Q) :
  exists q : Q,
    Math_min (Math_max (Num x) (Num 500)) (Num 10000) = Num q
    /\ (q == clamp x 500 10000)%Q /\ (500 <= q)%Q /\ (q <= 10000)%Q.
Proof.
  unfold Math_max, Math_min, clamp, Qltb.
  destruct (Qle_bool x 500) eqn:H1;
    [ apply Qle_bool_iff in H1
    | apply not_true_iff_false in H1; rewrite Qle_bool_iff in H1 ];
    split_comparisons;
    eexists; (split; [reflexivity|]); repeat split; lra.
Qed.

Lemma timeoutOf_clamped (requested : LatencyRoute.Prim) :
  exists q : Q,
    LatencyRoute.timeoutOf requested = Num q
    /\ (q == clamp (requestedOrDefault requested) 500 10000)%Q
    /\ (500 <= q)%Q /\ (q <= 10000)%Q.
Proof.
  unfold LatencyRoute.timeoutOf, requestedOrDefault, orElse, truthy.
  destruct (LatencyRoute.Number requested) as [|r].
  - apply clamp_min_max.
  - destruct (Qeq_bool r 0); apply clamp_min_max.
Qed.

(** C3, as the code has it: whenever the route reaches the connection
    attempt, the idle timeout it sets on the socket is
    clamp(t, 500, 10000), where t is the requested timeout when that
    converts to a number other than zero and 3000 otherwise; it always lies
    in [500, 10000]. *)
Theorem enforced_timeout_is_clamped
    (h p t : LatencyRoute.Prim) (hostName : string) (port timeout : number)
    (resolve : LatencyRoute.SocketEvent -> LatencyRoute.Result)
    (Hreach : LatencyRoute.POST (LatencyRoute.Payload h p t)
              = LatencyRoute.Connect hostName port timeout resolve) :
  exists q : Q,
    timeout = Num q
    /\ (q == clamp (requestedOrDefault t) 500 10000)%Q
    /\ (500 <= q)%Q /\ (q <= 10000)%Q.
Proof.
  assert (Htimeout : timeout = LatencyRoute.timeoutOf t).
  { unfold LatencyRoute.POST in Hreach.
    destruct h as [| |b|q|name]; try discriminate Hreach.
    destruct (negb (nonEmpty (trim name)) || isNaN (LatencyRoute.Number p)
              || leb (LatencyRoute.Number p) (Num 0));
      [discriminate Hreach|].
    now injection Hreach as _ _ <- _. }
  rewrite Htimeout. apply timeoutOf_clamped.
Qed.

(** The page asks for 4000 ms and gets 4000 ms. *)
Lemma enforced_timeout_is_clamped_witness :
  exists q : Q,
    Num 4000 = Num q
    /\ (q == clamp (requestedOrDefault (LatencyRoute.PNumber 4000)) 500 10000)%Q
    /\ (500 <= q)%Q /\ (q <= 10000)%Q.
Proof.
  apply (enforced_timeout_is_clamped
           (LatencyRoute.PString "pool.local") (LatencyRoute.PNumber 3333)
           (LatencyRoute.PNumber 4000) "pool.local" (Num 3333) (Num 4000)
           LatencyRoute.resolveOn).
  reflexivity.
Defined.

(** C3 as stated fails for a requested timeout of zero: the socket gets
    3000 ms, not clamp(0, 500, 10000) = 500 ms. *)
Lemma zero_timeout_is_not_clamped :
  LatencyRoute.POST
    (LatencyRoute.Payload (LatencyRoute.PString "pool.local")
       (LatencyRoute.PNumber 3333) (LatencyRoute.PNumber 0))
  = LatencyRoute.Connect "pool.local" (Num 3333) (Num 3000) LatencyRoute.resolveOn
  /\ clamp 0 500 10000 = 500%Q
  /\ ~ (3000 == clamp 0 500 10000)%Q.
Proof.
  split; [reflexivity|]. split; [reflexivity|]. vm_compute. discriminate.
Qed.

(** ** Outcomes of a probe *)

Lemma Math_round_whole (z : Z) : Probe.Math_round (inject_Z z) = z.
Proof.
  unfold Probe.Math_round, Qfloor, Qplus, inject_Z; simpl.
  rewrite Z.mul_1_r. symmetry. apply (Z.div_unique _ _ z 1); lia.
Qed.

Lemma valid_target_accepted (h p : LatencyRoute.Prim) :
  ValidTarget h p ->
  exists name q,
    h = LatencyRoute.PString name /\ nonEmpty (trim name) = true
    /\ LatencyRoute.Number p = Num q
    /\ leb (Num q) (Num 0) = false
    /\ LatencyRoute.portAccepted (Num q) = true.
Proof.
  intros [(name & -> & Hname) (q & n & Hq & Hn & Hrange)].
  exists name, q. repeat split; auto.
  - apply not_true_iff_false. unfold leb. rewrite Qle_bool_iff, Hn.
    intros Hle. change (inject_Z n <= inject_Z 0)%Q in Hle.
    rewrite <- Zle_Qle in Hle. lia.
  - unfold LatencyRoute.portAccepted.
    assert (Hfloor : Qfloor q = n) by (rewrite Hn; apply Qfloor_Z).
    rewrite Hfloor. rewrite !andb_true_iff, Qeq_bool_iff, !Qle_bool_iff.
    repeat split.
    + now symmetry.
    + rewrite Hn. change (inject_Z 0 <= inject_Z n)%Q. rewrite <- Zle_Qle. lia.
    + rewrite Hn. change (inject_Z n <= inject_Z 65535)%Q. rewrite <- Zle_Qle. lia.
Qed.

(** C7: for a host that is not blank and a port of 1..65535 the route
    throws nothing and answers 200 whatever the remote end does: the
    elapsed milliseconds without error when the connection is accepted
    before the enforced timeout, a null latency with "connect-error" when it
    is refused before it, a null latency with "timeout" otherwise; the
    latency is null exactly when an error is set.  On the client every
    outcome of the request, an exception included, ends in a stored sample:
    an exception gives the error "network-error", and the sample has no
    latency exactly when it has an error. *)
Theorem probe_outcomes_are_values
    (h p t : LatencyRoute.Prim) (remote : LatencyRoute.Remote)
    (Hvalid : ValidTarget h p) :
  (exists result : LatencyRoute.Result,
     LatencyRoute.serve (LatencyRoute.Payload h p t) remote
     = LatencyRoute.Returned {| LatencyRoute.httpStatus := 200;
                                LatencyRoute.json := result |}
     /\ (LatencyRoute.latency result = Null
         <-> is_Some (LatencyRoute.error result))
     /\ result
        = match remote with
          | LatencyRoute.Accepts after elapsed =>
              if ltb (Num after) (LatencyRoute.timeoutOf t)
              then {| LatencyRoute.latency := Val (inject_Z elapsed);
                      LatencyRoute.error := None |}
              else {| LatencyRoute.latency := Null;
                      LatencyRoute.error := Some "timeout" |}
          | LatencyRoute.Refuses after =>
              if ltb (Num after) (LatencyRoute.timeoutOf t)
              then {| LatencyRoute.latency := Null;
                      LatencyRoute.error := Some "connect-error" |}
              else {| LatencyRoute.latency := Null;
                      LatencyRoute.error := Some "timeout" |}
          | LatencyRoute.Silent =>
              {| LatencyRoute.latency := Null;
                 LatencyRoute.error := Some "timeout" |}
          end
     /\ Probe.sampleOf
          (Probe.replyOf (LatencyRoute.serve (LatencyRoute.Payload h p t) remote))
        = match LatencyRoute.firstEvent remote (LatencyRoute.timeoutOf t) with
          | LatencyRoute.Connected elapsed =>
              {| latency := Some elapsed; status := success; failure := None |}
          | LatencyRoute.Failed =>
              {| latency := None; status := error;
                 failure := Some "connect-error" |}
          | LatencyRoute.TimedOut =>
              {| latency := None; status := error; failure := Some "timeout" |}
          end)
  /\ (forall f : Probe.Fetched,
        (latency (Probe.sampleOf f) = None <-> is_Some (failure (Probe.sampleOf f)))
        /\ (status (Probe.sampleOf f) = success \/ status (Probe.sampleOf f) = error))
  /\ Probe.sampleOf Probe.FetchThrows
     = {| latency := None; status := error; failure := Some "network-error" |}
  /\ Probe.sampleOf (Probe.replyOf LatencyRoute.Thrown)
     = {| latency := None; status := error; failure := Some "network-error" |}.
Proof.
  split; [|split; [|split; reflexivity]].
  - destruct (valid_target_accepted h p Hvalid)
      as (name & q & -> & Hname & Hq & Hpos & Hport).
    unfold LatencyRoute.serve, LatencyRoute.POST.
    rewrite Hname, Hq, Hpos; simpl negb; simpl orb; cbv iota.
    unfold LatencyRoute.run. rewrite Hport.
    eexists. split; [reflexivity|]. unfold LatencyRoute.firstEvent.
    destruct remote as [after elapsed|after|];
      try destruct (ltb (Num after) (LatencyRoute.timeoutOf t));
      simpl; (split; [split; [intros H; try discriminate H; eauto
                             | intros [x Hx]; try discriminate Hx; reflexivity]|]);
      (split; [reflexivity|]);
      unfold Probe.sampleOf; simpl; try reflexivity.
    fold (inject_Z elapsed). now rewrite Math_round_whole.
  - intros f. destruct f as [|ok body]; simpl.
    + split; [split; eauto|]. now right.
    + destruct (negb ok || isNull (LatencyRoute.latency body)); simpl.
      * split; [split; eauto|]. now right.
      * split; [|now left]. split; [discriminate|]. intros [x Hx]. discriminate.
Qed.

(** The page probes port 3333 and the remote end refuses after 12 ms: the
    route answers 200 with a null latency and "connect-error". *)
Lemma probe_outcomes_are_values_witness :
  LatencyRoute.serve (Probe.requestOf row3333) (LatencyRoute.Refuses 12)
  = LatencyRoute.Returned
      {| LatencyRoute.httpStatus := 200;
         LatencyRoute.json := {| LatencyRoute.latency := Null;
                                 LatencyRoute.error := Some "connect-error" |} |}.
Proof.
  destruct (probe_outcomes_are_values
              (LatencyRoute.PString "pool.local") (LatencyRoute.PNumber 3333)
              (LatencyRoute.PNumber 4000) (LatencyRoute.Refuses 12))
    as [(result & Hserve & _ & Hresult & _) _].
  - split.
    + exists "pool.local". split; reflexivity.
    + exists 3333%Q, 3333. split; [reflexivity|]. split; [reflexivity|]. lia.
  - change (Probe.requestOf row3333)
      with (LatencyRoute.Payload (LatencyRoute.PString "pool.local")
              (LatencyRoute.PNumber 3333) (LatencyRoute.PNumber 4000)).
    rewrite Hserve, Hresult. reflexivity.
Defined.

(** ** The pool data hook *)

(** C8, as the code has it: [fetchPools] returns the response body as it
    is, and it is [load] that normalises it before storing: a bare array
    gives that array in order, an object whose [pools] property is an array
    gives that property, every other body gives the empty array. *)
Theorem load_normalizes_fetched_pools
    (data : PoolsData.Json) (now : Z) (s : PoolsData.State) :
  PoolsData.fetchPools (PoolsData.Resolved data) = PoolsData.Returned data
  /\ PoolsData.pools (PoolsData.load (PoolsData.Resolved data) now s)
     = PoolsData.poolList data
  /\ match data with
     | PoolsData.JArray items => PoolsData.poolList data = items
     | PoolsData.JObject props =>
         match PoolsData.lookupProp "pools" props with
         | Some (PoolsData.JArray items) => PoolsData.poolList data = items
         | _ => PoolsData.poolList data = []
         end
     | _ => PoolsData.poolList data = []
     end.
Proof.
  split; [reflexivity|]. split; [reflexivity|].
  destruct data as [| | | |items|props]; try reflexivity.
  unfold PoolsData.poolList, PoolsData.poolsOf.
  destruct (PoolsData.lookupProp "pools" props) as [[| | | |items|inner]|];
    reflexivity.
Qed.

(** C8 as stated fails: for the body [{pools: [null]}], [fetchPools]
    returns the whole object, not its [pools] value, and for the body
    [null] it returns null, not the empty array. *)
Lemma fetchPools_returns_body_as_is :
  PoolsData.fetchPools
    (PoolsData.Resolved
       (PoolsData.JObject [("pools", PoolsData.JArray [PoolsData.JNull])]))
  = PoolsData.Returned
      (PoolsData.JObject [("pools", PoolsData.JArray [PoolsData.JNull])])
  /\ PoolsData.fetchPools
       (PoolsData.Resolved
          (PoolsData.JObject [("pools", PoolsData.JArray [PoolsData.JNull])]))
     <> PoolsData.Returned (PoolsData.JArray [PoolsData.JNull])
  /\ PoolsData.fetchPools (PoolsData.Resolved PoolsData.JNull)
     <> PoolsData.Returned (PoolsData.JArray []).
Proof.
  split; [reflexivity|]. split; discriminate.
Qed.

Lemma runLoads_all_rejected (ticks : list (PoolsData.HttpResult * Z))
    (s : PoolsData.State) :
  Forall (fun tick => fst tick = PoolsData.Rejected) ticks ->
  PoolsData.pools (runLoads ticks s) = PoolsData.pools s
  /\ PoolsData.lastUpdated (runLoads ticks s) = PoolsData.lastUpdated s.
Proof.
  intros Hall. revert s.
  induction Hall as [|[http now] ticks Hhttp _ IH]; intros s; [now split|].
  simpl in Hhttp. subst http. unfold runLoads in *. simpl.
  destruct (IH (PoolsData.load PoolsData.Rejected now s)) as [-> ->].
  now split.
Qed.

(** C10: a failed fetch keeps the pools and the time stamp of the last
    successful one, sets the error to 'Unable to load pool data.' and
    clears the loading flag, also over any run of failed fetches; a
    successful fetch clears the error, sets the time stamp and clears the
    loading flag. *)
Theorem load_failure_keeps_pools (now : Z) (s : PoolsData.State) :
  (PoolsData.pools (PoolsData.load PoolsData.Rejected now s) = PoolsData.pools s
   /\ PoolsData.error (PoolsData.load PoolsData.Rejected now s)
      = Some "Unable to load pool data."
   /\ PoolsData.loading (PoolsData.load PoolsData.Rejected now s) = false
   /\ PoolsData.lastUpdated (PoolsData.load PoolsData.Rejected now s)
      = PoolsData.lastUpdated s)
  /\ (forall ticks,
        Forall (fun tick => fst tick = PoolsData.Rejected) ticks ->
        PoolsData.pools (runLoads ticks s) = PoolsData.pools s)
  /\ (forall data,
        PoolsData.error (PoolsData.load (PoolsData.Resolved data) now s) = None
        /\ PoolsData.lastUpdated (PoolsData.load (PoolsData.Resolved data) now s)
           = Some now
        /\ PoolsData.loading (PoolsData.load (PoolsData.Resolved data) now s)
           = false
        /\ PoolsData.pools (PoolsData.load (PoolsData.Resolved data) now s)
           = PoolsData.poolList data).
Proof.
  split; [repeat split|]. split.
  - intros ticks Hall. now apply runLoads_all_rejected.
  - intros data. repeat split.
Qed.

(** ** The stratum latency panel *)

Lemma firstn_firstn_app {A : Type} (n : nat) (a b : list A) :
  firstn n (firstn n a ++ b) = firstn n (a ++ b).
Proof.
  revert a. induction n as [|n IH]; intros a; [reflexivity|].
  destruct a as [|x a]; [reflexivity|]. simpl. now rewrite IH.
Qed.

Lemma addPort_fold (h : string) (pool : Panel.Pool) (keys : list string)
    (generated : list Panel.StratumLocation) :
  (length generated <= 6)%nat ->
  fold_left (Panel.addPort h pool) keys generated
  = firstn 6 (generated ++ map (locationOf h pool) (List.filter usableKey keys)).
Proof.
  revert generated. induction keys as [|k keys IH]; intros generated Hlen; simpl.
  - rewrite app_nil_r. symmetry. now apply firstn_all2.
  - assert (Hstep : Panel.addPort h pool generated k
                      = if usableKey k
                        then if (6 <=? length generated)%nat then generated
                             else (generated ++ [locationOf h pool k])%list
                        else generated).
    { unfold Panel.addPort, usableKey, locationOf.
      now destruct (truthy (Number_of_string k)). }
    rewrite Hstep. destruct (usableKey k) eqn:Hk; [|now apply IH].
    destruct (Nat.leb_spec 6 (length generated)) as [Hfull|Hroom].
    + rewrite (IH generated Hlen).
      assert (H6 : length generated = 6%nat) by lia.
      rewrite !firstn_app, H6. reflexivity.
    + rewrite IH.
      * cbn [map]. now rewrite <- app_assoc.
      * rewrite length_app. simpl. lia.
Qed.

Lemma addPool_fold (h : string) (pools : list Panel.Pool)
    (generated : list Panel.StratumLocation) :
  (length generated <= 6)%nat ->
  fold_left (Panel.addPool h) pools generated
  = firstn 6 (generated ++ candidates h pools).
Proof.
  revert generated. induction pools as [|pool pools IH]; intros generated Hlen.
  - simpl. unfold candidates; simpl. rewrite app_nil_r. symmetry.
    now apply firstn_all2.
  - simpl. unfold Panel.addPool at 2. rewrite (addPort_fold h pool _ _ Hlen).
    rewrite IH by apply firstn_le_length.
    rewrite firstn_firstn_app. unfold candidates; simpl. now rewrite <- app_assoc.
Qed.

(** C9, as the code has it: without an explicit location list the panel
    lists at most 6 entries, namely the first six entries of the usable
    port keys of all pools in order, a key being skipped when its numeric
    conversion is NaN or zero; and with no usable key at all the list is
    the single fallback entry, port 5108 on the default host. *)
Theorem derived_locations_at_most_six
    (pools : list Panel.Pool) (defaultHost : string)
    (locations : option (list Panel.StratumLocation))
    (Hnone : locations = None \/ locations = Some []) :
  (length (Panel.derivedLocations pools defaultHost locations) <= 6)%nat
  /\ (candidates defaultHost pools <> [] ->
      Panel.derivedLocations pools defaultHost locations
      = firstn 6 (candidates defaultHost pools))
  /\ (candidates defaultHost pools = [] ->
      Panel.derivedLocations pools defaultHost locations
      = [{| Panel.id := "default-5108"; Panel.host := defaultHost;
            Panel.port := Num 5108 |}]).
Proof.
  assert (Hderived :
    Panel.derivedLocations pools defaultHost locations
    = match firstn 6 (candidates defaultHost pools) with
      | [] => [Panel.fallbackLocation defaultHost]
      | generated => generated
      end).
  { unfold Panel.derivedLocations.
    rewrite (addPool_fold defaultHost pools []) by (simpl; lia).
    destruct Hnone as [-> | ->]; reflexivity. }
  rewrite Hderived. split; [|split].
  - pose proof (firstn_le_length 6 (candidates defaultHost pools)) as Hle.
    destruct (firstn 6 (candidates defaultHost pools)); simpl in *; lia.
  - intros Hsome. destruct (candidates defaultHost pools); [contradiction|].
    reflexivity.
  - intros ->. reflexivity.
Qed.

(** For one pool with the port keys 3333, 0 and abc the panel lists the
    entry of 3333 only. *)
Lemma derived_locations_at_most_six_witness :
  Panel.derivedLocations [poolMixedKeys] "pool.local" None
  = [{| Panel.id := "btc-3333"; Panel.host := "pool.local";
        Panel.port := Num 3333 |}].
Proof.
  destruct (derived_locations_at_most_six [poolMixedKeys] "pool.local" None)
    as (_ & Hsome & _); [now left|].
  rewrite Hsome; [reflexivity | discriminate].
Defined.

(** C9 as stated fails: the port key -5 is no positive number, yet the
    panel lists an entry for it. *)
Lemma negative_port_key_is_listed :
  Number_of_string "-5" = Num (-5)
  /\ ~ (0 < -5)%Q
  /\ Panel.derivedLocations [poolNegativeKey] "pool.local" None
     = [{| Panel.id := "p--5"; Panel.host := "pool.local";
           Panel.port := Num (-5) |}].
Proof.
  split; [reflexivity|]. split; [|reflexivity]. intros H. discriminate H.
Qed.

(** * Further properties of the code *)

(** ** Rows of a port map *)

Lemma append_inj_r (a b c : string) : a +:+ b = a +:+ c -> b = c.
Proof. induction a as [|x a IH]; simpl; [auto|]. intros [= H]. auto. Qed.

(** X1: the rows of a port map are never empty: one row per port entry,
    and the single default row, port 3333, when there is none; all rows
    have the stratum host; and distinct port keys give distinct row ids, so
    the latency map holds one sample per row. *)
Theorem connectionRows_shape
    (h : string) (entries : list (string * PortConfig))
    (Hkeys : NoDup (map fst entries)) :
  length (connectionRows h entries) = Nat.max 1 (length entries)
  /\ Forall (fun r => host r = h) (connectionRows h entries)
  /\ NoDup (map id (connectionRows h entries))
  /\ (entries = [] ->
      connectionRows h entries = [defaultRow h] /\ port (defaultRow h) = Num 3333).
Proof.
  split; [|split; [apply connectionRows_host|split]].
  - destruct entries as [|e entries]; simpl; [reflexivity|].
    now rewrite length_map.
  - destruct entries as [|e entries]; [repeat constructor; apply not_elem_of_nil|].
    change (connectionRows h (e :: entries))
      with (map (rowOfEntry h) (e :: entries)).
    rewrite map_map.
    assert (Hid : forall x, id (rowOfEntry h x) = h +:+ "-" +:+ fst x)
      by (now intros [k c]).
    rewrite (map_ext _ _ Hid), <- (map_map fst (fun k => h +:+ "-" +:+ k)).
    apply NoDup_fmap_2; [|exact Hkeys].
    intros a b Hab. apply (append_inj_r h) in Hab. simpl in Hab.
    now injection Hab.
  - intros ->. split; reflexivity.
Qed.

(** The ports 3333 and 3355 give the two rows pool.local-3333 and
    pool.local-3355. *)
Lemma connectionRows_shape_witness :
  map id (connectionRows poolLocal portsPlain)
  = ["pool.local-3333"; "pool.local-3355"]
  /\ NoDup (map id (connectionRows poolLocal portsPlain)).
Proof.
  split; [reflexivity|].
  apply (connectionRows_shape poolLocal portsPlain).
  apply (bool_decide_unpack (NoDup (map fst portsPlain))). vm_compute. exact I.
Defined.

(** ** Sorting by port *)

Lemma gtb_sub_lt (x y : Q) :
  gtb (sub (Num y) (Num x)) (Num 0) = true <-> (x < y)%Q.
Proof.
  unfold gtb, ltb, sub. rewrite Qltb_spec. split; intros H; lra.
Qed.

Lemma insertSorted_elem (x y : ConnectionRow) (l : list ConnectionRow) :
  y ∈ insertSorted x l <-> y = x \/ y ∈ l.
Proof. rewrite (insertSorted_perm x l). apply elem_of_cons. Qed.

Lemma PortLe_trans (a b c : ConnectionRow) : PortLe a b -> PortLe b c -> PortLe a c.
Proof.
  intros (x & y & Ha & Hb & Hxy) (y' & z & Hb' & Hc & Hyz).
  rewrite Hb in Hb'. injection Hb' as <-. exists x, z. repeat split; auto. lra.
Qed.

Lemma insertSorted_sorted (x : ConnectionRow) (l : list ConnectionRow) :
  NumericPort x -> Forall NumericPort l ->
  StronglySorted PortLe l -> StronglySorted PortLe (insertSorted x l).
Proof.
  intros [qx Hx] Hnum Hsorted.
  induction Hsorted as [|y l Hsorted IH Hy]; cbn [insertSorted].
  - repeat constructor.
  - inversion Hnum as [|? ? [qy Hqy] Hnum']; subst.
    unfold comparePort. rewrite Hqy, Hx.
    destruct (gtb (sub (Num qy) (Num qx)) (Num 0)) eqn:Hcmp.
    + apply gtb_sub_lt in Hcmp.
      assert (Hxy : PortLe x y) by (exists qx, qy; repeat split; auto; lra).
      constructor; [now constructor|]. constructor; [exact Hxy|].
      eapply Forall_impl; [exact Hy|]. intros z Hz.
      now apply (PortLe_trans x y z).
    + assert (Hyx : PortLe y x).
      { exists qy, qx. repeat split; auto.
        apply not_true_iff_false in Hcmp. rewrite gtb_sub_lt in Hcmp. lra. }
      constructor; [now apply IH|].
      apply Forall_forall. intros z Hz.
      apply insertSorted_elem in Hz as [->|Hz]; [exact Hyx|].
      rewrite Forall_forall in Hy. now apply Hy.
Qed.

(** X2: the endpoints of a group are sorted by port: when every port is a
    number the sorted list is in ascending port order, and in any case it
    holds the same rows as before. *)
Theorem sortByPort_sorted (l : list ConnectionRow)
    (Hnum : Forall NumericPort l) :
  StronglySorted PortLe (sortByPort l) /\ sortByPort l ≡ₚ l.
Proof.
  split; [|apply sortByPort_perm].
  unfold sortByPort.
  enough (H : forall acc,
             Forall NumericPort acc -> StronglySorted PortLe acc ->
             StronglySorted PortLe
               (fold_left (fun acc x => insertSorted x acc) l acc)
             /\ Forall NumericPort
                  (fold_left (fun acc x => insertSorted x acc) l acc))
    by (apply (H []); constructor).
  induction Hnum as [|x l Hx Hnum IH]; intros acc Hacc Hsorted; simpl; [auto|].
  apply IH.
  - apply Forall_forall. intros z Hz.
    apply insertSorted_elem in Hz as [->|Hz]; [exact Hx|].
    rewrite Forall_forall in Hacc. now apply Hacc.
  - now apply insertSorted_sorted.
Qed.

(** The ports 3355 and 3333, listed in that order, come out as 3333, 3355. *)
Lemma sortByPort_sorted_witness :
  sortByPort [row3355; row3333] = [row3333; row3355]
  /\ StronglySorted PortLe (sortByPort [row3355; row3333]).
Proof.
  split; [reflexivity|].
  apply (sortByPort_sorted [row3355; row3333]).
  repeat constructor; eexists; reflexivity.
Defined.

(** ** Groups of rows *)

Lemma hasHost_spec (k : string) (t : HostTable) :
  hasHost k t = true <-> k ∈ map fst t.
Proof.
  unfold hasHost. rewrite existsb_exists, list_elem_of_fmap. split.
  - intros (e & Hin & Heq). exists e. apply String.eqb_eq in Heq.
    split; [now symmetry | now apply list_elem_of_In].
  - intros (e & -> & Hin). exists e. split; [now apply list_elem_of_In|].
    apply String.eqb_refl.
Qed.

Lemma pushRow_keys (k : string) (r : ConnectionRow) (t : HostTable) :
  map fst (pushRow k r t) = map fst t.
Proof.
  induction t as [|[k' [g rs]] t IH]; simpl; [reflexivity|].
  destruct (String.eqb k' k); simpl; [reflexivity | now rewrite IH].
Qed.

Lemma pushRow_rows (k : string) (r : ConnectionRow) (t : HostTable) :
  k ∈ map fst t -> tableRows (pushRow k r t) ≡ₚ r :: tableRows t.
Proof.
  unfold tableRows. induction t as [|[k' [g rs]] t IH]; simpl.
  - intros H. now apply elem_of_nil in H.
  - intros Hin. destruct (String.eqb k' k) eqn:Hk; simpl.
    + rewrite <- app_assoc. simpl. now rewrite <- Permutation_middle.
    + apply elem_of_cons in Hin as [->|Hin];
        [now rewrite String.eqb_refl in Hk|].
      rewrite (IH Hin). now rewrite Permutation_middle.
Qed.

Lemma pushRow_shape (r : ConnectionRow) (t : HostTable) :
  Forall EntryShape t -> Forall EntryShape (pushRow (host r) r t).
Proof.
  induction 1 as [|[k' [g rs]] t (Hid & Hhost & Hrows) Htail IH]; simpl;
    [constructor|]. simpl in *.
  destruct (String.eqb k' (host r)) eqn:Hk.
  - apply String.eqb_eq in Hk. subst k'. constructor; [|exact Htail].
    repeat split; simpl; auto. apply Forall_app. split; [exact Hrows|].
    now repeat constructor.
  - constructor; [|exact IH]. now repeat split.
Qed.

Lemma pushRow_nonempty (r : ConnectionRow) (t : HostTable) :
  NoDup (map fst t) ->
  Forall (fun e => fst e <> host r -> snd (snd e) <> []) t ->
  Forall (fun e => snd (snd e) <> []) (pushRow (host r) r t).
Proof.
  induction t as [|[k' [g rs]] t IH]; simpl; intros Hnodup Hall; [constructor|].
  apply NoDup_cons in Hnodup as [Hnotin Hnodup].
  inversion Hall as [|? ? Hhead Hrest]; subst. simpl in *.
  destruct (String.eqb k' (host r)) eqn:Hk.
  - apply String.eqb_eq in Hk. subst k'. constructor.
    + simpl. intros Hnil. now apply app_eq_nil in Hnil as [_ [=]].
    + rewrite Forall_forall in Hrest. apply Forall_forall. intros e He.
      apply Hrest; [exact He|]. intros Heq. apply Hnotin. rewrite <- Heq.
      apply list_elem_of_fmap. now exists e.
  - constructor; [|now apply IH]. simpl. apply Hhead.
    intros ->. now rewrite String.eqb_refl in Hk.
Qed.

Lemma addRow_ok (t : HostTable) (r : ConnectionRow) :
  TableOk t -> TableOk (addRow t r) /\ tableRows (addRow t r) ≡ₚ r :: tableRows t.
Proof.
  intros (Hnodup & Hshape & Hnonempty). unfold addRow.
  set (fresh := (host r, ({| groupId := host r; groupLabel := label r;
                             groupHost := host r; endpoints := [] |},
                          @nil ConnectionRow))).
  set (t' := if hasHost (host r) t then t else (t ++ [fresh])%list).
  assert (Hin : host r ∈ map fst t').
  { subst t'. destruct (hasHost (host r) t) eqn:Hhas.
    - now apply hasHost_spec.
    - rewrite map_app. apply elem_of_app. right. apply list_elem_of_here. }
  assert (Hnodup' : NoDup (map fst t')).
  { subst t'. destruct (hasHost (host r) t) eqn:Hhas; [exact Hnodup|].
    rewrite map_app. apply NoDup_app. split; [exact Hnodup|]. split.
    - intros k Hk Hk'. simpl in Hk'. apply list_elem_of_singleton in Hk'.
      rewrite Hk' in Hk. apply hasHost_spec in Hk. rewrite Hk in Hhas.
      discriminate Hhas.
    - apply NoDup_singleton. }
  assert (Hshape' : Forall EntryShape t').
  { subst t'. destruct (hasHost (host r) t); [exact Hshape|].
    apply Forall_app. split; [exact Hshape|]. constructor; [|constructor].
    repeat split; simpl; auto. }
  assert (Hnonempty' : Forall (fun e => fst e <> host r -> snd (snd e) <> []) t').
  { subst t'. destruct (hasHost (host r) t).
    - eapply Forall_impl; [exact Hnonempty|]. auto.
    - apply Forall_app. split.
      + eapply Forall_impl; [exact Hnonempty|]. auto.
      + constructor; [|constructor]. simpl. congruence. }
  assert (Hrows' : tableRows t' = tableRows t).
  { subst t'. destruct (hasHost (host r) t); [reflexivity|].
    unfold tableRows. rewrite map_app, concat_app. simpl. now rewrite app_nil_r. }
  split; [split; [|split]|].
  - now rewrite pushRow_keys.
  - now apply pushRow_shape.
  - now apply pushRow_nonempty.
  - rewrite (pushRow_rows (host r) r t' Hin). now rewrite Hrows'.
Qed.

Lemma fold_addRow_ok (rows : list ConnectionRow) (t : HostTable) :
  TableOk t ->
  TableOk (fold_left addRow rows t)
  /\ tableRows (fold_left addRow rows t) ≡ₚ (tableRows t ++ rows)%list.
Proof.
  revert t. induction rows as [|r rows IH]; intros t Hok; simpl.
  - split; [exact Hok | now rewrite app_nil_r].
  - destruct (addRow_ok t r Hok) as [Hok' Hperm].
    destruct (IH (addRow t r) Hok') as [Hfinal Hrows].
    split; [exact Hfinal|]. rewrite Hrows, Hperm.
    now rewrite <- Permutation_middle.
Qed.

Lemma connectionGroups_facts (rows : list ConnectionRow) :
  NoDup (map groupId (connectionGroups rows))
  /\ Forall (fun g => groupHost g = groupId g /\ endpoints g <> []
                      /\ Forall (fun r => host r = groupHost g) (endpoints g))
       (connectionGroups rows)
  /\ concat (map endpoints (connectionGroups rows)) ≡ₚ rows.
Proof.
  destruct (fold_addRow_ok rows []) as [(Hnodup & Hshape & Hnonempty) Hrows].
  { split; [constructor|]. split; constructor. }
  unfold connectionGroups. set (t := fold_left addRow rows []) in *.
  simpl in Hrows. clearbody t.
  split; [|split].
  - rewrite map_map.
    replace (map _ t) with (map fst t); [exact Hnodup|].
    apply Forall_fmap_ext_1. eapply Forall_impl; [exact Hshape|].
    intros [k [g rs]] (Hid & _). simpl in *. now symmetry.
  - apply Forall_fmap. apply Forall_forall. intros [k [g rs]] He. simpl.
    rewrite Forall_forall in Hshape, Hnonempty.
    destruct (Hshape _ He) as (Hid & Hhost & Hall). specialize (Hnonempty _ He).
    simpl in *. split; [congruence|]. split.
    + intros Hnil. apply Hnonempty.
      apply Permutation_nil. now rewrite <- (sortByPort_perm rs), Hnil.
    + rewrite Hhost. rewrite sortByPort_perm. exact Hall.
  - rewrite <- Hrows. unfold tableRows. clear.
    induction t as [|[k [g rs]] t IH]; simpl; [reflexivity|].
    now rewrite IH, sortByPort_perm.
Qed.

(** X3: grouping puts every row into exactly one group, the group of its
    host: the groups have distinct ids, each group has its host as id, has
    at least one endpoint and only endpoints of its host, and the endpoints
    of all groups together are the rows, each as often as it was given. *)
Theorem connectionGroups_partition (rows : list ConnectionRow) :
  NoDup (map groupId (connectionGroups rows))
  /\ Forall (fun g => groupHost g = groupId g /\ endpoints g <> []
                      /\ Forall (fun r => host r = groupHost g) (endpoints g))
       (connectionGroups rows)
  /\ concat (map endpoints (connectionGroups rows)) ≡ₚ rows.
Proof.
  apply connectionGroups_facts.
Qed.

(** ** The endpoint picked in a group *)

Lemma bestLatencyRow_elem (rows : list ConnectionRow)
    (m : gmap string LatencyState) (r : ConnectionRow) :
  bestLatencyRow rows m = Some r -> r ∈ rows.
Proof.
  unfold bestLatencyRow. pose proof (Leading_all m rows) as H.
  destruct (fold_left (latencyStep m) rows (None, None)) as [[b|] [l|]];
    simpl in *; try contradiction; try discriminate.
  intros [= ->]. destruct H as (pre & post & -> & _).
  apply elem_of_app. right. apply list_elem_of_here.
Qed.

Lemma find_elem {A : Type} (f : A -> bool) (l : list A) (x : A) :
  List.find f l = Some x -> x ∈ l.
Proof. intros H. apply find_some in H as [Hin _]. now apply list_elem_of_In. Qed.

Lemma head_elem {A : Type} (l : list A) (x : A) : head l = Some x -> x ∈ l.
Proof. destruct l; [discriminate|]. intros [= ->]. apply list_elem_of_here. Qed.

Lemma endpointPreference_elem (d : option ConnectionRow)
    (m : gmap string LatencyState) (g : ConnectionGroup) (e : ConnectionRow) :
  endpointPreference d m g = Some e -> e ∈ endpoints g.
Proof.
  unfold endpointPreference, defaultWithin.
  destruct d as [d|]; simpl.
  - destruct (String.eqb (host d) (groupHost g)); simpl.
    + destruct (List.find _ (endpoints g)) eqn:H1; simpl;
        [intros [= <-]; now apply find_elem in H1|].
      destruct (List.find nameHasMid (endpoints g)) eqn:H2; simpl;
        [intros [= <-]; now apply find_elem in H2|].
      destruct (List.find looksVarDiff (endpoints g)) eqn:H3; simpl;
        [intros [= <-]; now apply find_elem in H3|].
      destruct (bestLatencyRow (endpoints g) m) eqn:H4; simpl;
        [intros [= <-]; now apply bestLatencyRow_elem in H4|].
      apply head_elem.
    + destruct (List.find nameHasMid (endpoints g)) eqn:H2; simpl;
        [intros [= <-]; now apply find_elem in H2|].
      destruct (List.find looksVarDiff (endpoints g)) eqn:H3; simpl;
        [intros [= <-]; now apply find_elem in H3|].
      destruct (bestLatencyRow (endpoints g) m) eqn:H4; simpl;
        [intros [= <-]; now apply bestLatencyRow_elem in H4|].
      apply head_elem.
  - destruct (List.find nameHasMid (endpoints g)) eqn:H2; simpl;
      [intros [= <-]; now apply find_elem in H2|].
    destruct (List.find looksVarDiff (endpoints g)) eqn:H3; simpl;
      [intros [= <-]; now apply find_elem in H3|].
    destruct (bestLatencyRow (endpoints g) m) eqn:H4; simpl;
      [intros [= <-]; now apply bestLatencyRow_elem in H4|].
    apply head_elem.
Qed.

Lemma endpointPreference_none (d : option ConnectionRow)
    (m : gmap string LatencyState) (g : ConnectionGroup) :
  endpointPreference d m g = None <-> endpoints g = [].
Proof.
  split.
  - unfold endpointPreference.
    destruct (defaultWithin g d); [discriminate|]; simpl.
    destruct (List.find nameHasMid (endpoints g)); [discriminate|]; simpl.
    destruct (List.find looksVarDiff (endpoints g)); [discriminate|]; simpl.
    destruct (bestLatencyRow (endpoints g) m); [discriminate|]; simpl.
    destruct (endpoints g); [reflexivity | discriminate].
  - intros Hnil. destruct (endpointPreference d m g) as [e|] eqn:He; [|reflexivity].
    apply endpointPreference_elem in He. rewrite Hnil in He.
    now apply elem_of_nil in He.
Qed.

(** X4: the endpoint picked for a group is always one of the endpoints of
    that group, whatever the default endpoint and the latency samples are;
    nothing is picked only when there is no group or the group has no
    endpoint. *)
Theorem pickEndpointForGroup_within_group
    (d : option ConnectionRow) (m : gmap string LatencyState)
    (g : ConnectionGroup) :
  (forall e, pickEndpointForGroup d m (Some g) = Some e -> e ∈ endpoints g)
  /\ (pickEndpointForGroup d m (Some g) = None <-> endpoints g = [])
  /\ (forall e, fastestEndpointFor m (Some g) = Some e -> e ∈ endpoints g)
  /\ pickEndpointForGroup d m None = None.
Proof.
  rewrite pickEndpointForGroup_preference.
  split; [intros e; apply endpointPreference_elem|].
  split; [apply endpointPreference_none|]. split; [|reflexivity].
  intros e. unfold fastestEndpointFor.
  fold (bestLatencyRow (endpoints g) m).
  destruct (bestLatencyRow (endpoints g) m) eqn:Hbest; simpl.
  - intros [= <-]. now apply bestLatencyRow_elem in Hbest.
  - apply head_elem.
Qed.

(** ** The selection after a render of the pool page *)

Lemma getIfSet_single (h : string) (g g' : ConnectionGroup) (key : option string) :
  getIfSet (<[h := g]> ∅) key = Some g' -> key = Some h /\ g' = g.
Proof.
  unfold getIfSet. destruct key as [k|]; [|discriminate].
  destruct (nonEmpty k); [|discriminate].
  destruct (decide (h = k)) as [->|Hne].
  - rewrite lookup_insert_eq. now intros [= ->].
  - rewrite lookup_insert_ne by exact Hne. now rewrite lookup_empty.
Qed.

(** What every render of the pool page shows: one group, the group of the
    stratum host, which every fallback leads to. *)
Lemma render_page (h : string) (entries : list (string * PortConfig))
    (m : gmap string LatencyState) (s : Selection) :
  nonEmpty h = true ->
  exists g,
    pageGroup h entries = Some g /\ groupId g = h /\ groupHost g = h
    /\ endpoints g ≡ₚ connectionRows h entries
    /\ viewGroups (render (connectionRows h entries) m s) = [g]
    /\ viewById (render (connectionRows h entries) m s) = <[h := g]> ∅
    /\ groupFallback (render (connectionRows h entries) m s) = Some g
    /\ endpointFallbackGroup (render (connectionRows h entries) m s) = Some g.
Proof.
  intros Hh. unfold pageGroup.
  destruct (connectionRows_cons h entries) as (r & rest & Hrows).
  pose proof (connectionRows_host h entries) as Hhost.
  destruct (defaultEndpointRow_is_Some r rest) as (d & Hd).
  rewrite <- Hrows in Hd.
  assert (Hdh : host d = h).
  { rewrite Forall_forall in Hhost. apply Hhost.
    now apply defaultEndpointRow_elem. }
  assert (Hbest : forall b, bestLatencyRow (connectionRows h entries) m = Some b ->
                            host b = h).
  { intros b Hb. rewrite Forall_forall in Hhost. apply Hhost.
    now apply bestLatencyRow_elem in Hb. }
  rewrite Hrows in Hhost.
  pose proof (connectionGroups_one_host h r rest Hhost) as Hgroups.
  rewrite <- Hrows in Hgroups.
  set (g := {| groupId := h; groupLabel := label r; groupHost := h;
               endpoints := sortByPort (connectionRows h entries) |}) in *.
  exists g. rewrite Hgroups.
  assert (Hdefault : defaultGroup (render (connectionRows h entries) m s) = Some g).
  { unfold render; simpl. rewrite Hgroups, Hd. simpl. rewrite Hdh, Hh.
    unfold groupByHost. simpl. apply lookup_insert_eq. }
  assert (Hbestg : forall x,
            bestLatencyGroup (render (connectionRows h entries) m s) = Some x ->
            x = g).
  { unfold render; simpl. rewrite Hgroups. unfold groupByHost. simpl.
    intros x Hx. now apply getIfSet_single in Hx. }
  assert (Hselg : forall x,
            selectedGroup (render (connectionRows h entries) m s) = Some x ->
            x = g).
  { unfold render; simpl. rewrite Hgroups. unfold groupById. simpl.
    intros x Hx. now apply getIfSet_single in Hx. }
  assert (Hfallback : groupFallback (render (connectionRows h entries) m s) = Some g).
  { unfold groupFallback. rewrite Hdefault.
    destruct (bestLatencyGroup _) as [x|] eqn:Hx; simpl; [|reflexivity].
    now rewrite (Hbestg x). }
  repeat split; try reflexivity.
  - apply sortByPort_perm.
  - unfold render; simpl. now rewrite Hgroups.
  - unfold render; simpl. now rewrite Hgroups.
  - exact Hfallback.
  - unfold endpointFallbackGroup. fold (groupFallback (render (connectionRows h entries) m s)).
    rewrite Hfallback.
    destruct (selectedGroup _) as [x|] eqn:Hx; simpl; [|reflexivity].
    now rewrite (Hselg x).
Qed.

(** The group effect on the pool page: the group of the host ends up
    selected, and nothing moves when it already was. *)
Lemma groupEffect_page (v : View) (s : Selection) (h : string)
    (g : ConnectionGroup) :
  nonEmpty h = true -> viewGroups v = [g] -> viewById v = <[h := g]> ∅ ->
  groupFallback v = Some g -> groupId g = h ->
  selectedGroupId (groupEffect v s s) = Some h
  /\ selectedEndpointId (groupEffect v s s) = selectedEndpointId s
  /\ manualEndpointRef (groupEffect v s s) = manualEndpointRef s
  /\ (selectedGroupId s = Some h -> groupEffect v s s = s).
Proof.
  intros Hh Hgroups Hbyid Hfallback Hid.
  destruct (groupEffect_keeps_endpoint v s s) as [Hcell Href];
    [now rewrite Hgroups|].
  split; [|split; [exact Hcell|split; [exact Href|]]].
  - unfold groupEffect. rewrite Hgroups, Hfallback, Hbyid. simpl. rewrite Hid.
    destruct (selectedGroupId s) as [k|] eqn:Hsel.
    + destruct (decide (h = k)) as [<-|Hne].
      * rewrite Hh, lookup_insert_eq. simpl.
        destruct (manualSelectionRef s); simpl; [exact Hsel|].
        unfold sameId. rewrite bool_decide_eq_true_2 by reflexivity. exact Hsel.
      * rewrite lookup_insert_ne by exact Hne. rewrite lookup_empty.
        replace (nonEmpty k && bool_decide (is_Some None)) with false
          by (destruct (nonEmpty k); reflexivity).
        rewrite orb_true_r.
        unfold sameId. rewrite bool_decide_eq_false_2 by congruence. reflexivity.
    + rewrite orb_true_r. reflexivity.
  - intros Hsel. unfold groupEffect.
    rewrite Hgroups, Hfallback, Hbyid, Hsel. simpl.
    rewrite Hid, Hh, lookup_insert_eq. simpl.
    destruct (manualSelectionRef s); simpl; [reflexivity|].
    unfold sameId. now rewrite bool_decide_eq_true_2.
Qed.

(** The endpoint effect keeps the selected endpoint when it is the
    automatic choice already, or is manual and still listed. *)
Lemma endpointEffect_stable (v : View) (s : Selection) (g : ConnectionGroup) :
  endpointFallbackGroup v = Some g ->
  selectedEndpointId s
  = id <$> endpointPreference (viewDefaultEndpoint v) (viewLatency v) g
  \/ (manualEndpointRef s = true
      /\ exists k, selectedEndpointId s = Some k /\ nonEmpty k = true
                   /\ exists e, e ∈ endpoints g /\ k = id e) ->
  endpointEffect v s s = s.
Proof.
  intros Hg Hcases. unfold endpointEffect.
  rewrite Hg, pickEndpointForGroup_preference.
  destruct Hcases as [Hauto | (Hman & k & Hsel & Hk & Hlisted)].
  - rewrite <- Hauto. unfold sameId.
    rewrite bool_decide_eq_true_2 by reflexivity. simpl.
    now destruct (negb (manualEndpointRef s) || _).
  - apply existsb_listed in Hlisted. now rewrite Hman, Hsel, Hk, Hlisted.
Qed.

(** The endpoint effect leaves the state in one of the two stable shapes of
    the lemma above. *)
Lemma endpointEffect_lands (v : View) (seen now : Selection) (g : ConnectionGroup) :
  endpointFallbackGroup v = Some g ->
  selectedEndpointId now = selectedEndpointId seen ->
  selectedEndpointId (endpointEffect v seen now)
  = id <$> endpointPreference (viewDefaultEndpoint v) (viewLatency v) g
  \/ (manualEndpointRef (endpointEffect v seen now) = true
      /\ exists k, selectedEndpointId (endpointEffect v seen now) = Some k
                   /\ nonEmpty k = true
                   /\ exists e, e ∈ endpoints g /\ k = id e).
Proof.
  intros Hg Hkept. unfold endpointEffect.
  rewrite Hg, pickEndpointForGroup_preference.
  destruct (manualEndpointRef now) eqn:Hman; simpl.
  - destruct (selectedEndpointId seen) as [k|] eqn:Hsel; simpl.
    + destruct (nonEmpty k) eqn:Hk; simpl.
      * destruct (existsb _ (endpoints g)) eqn:Hex; simpl.
        -- right. split; [exact Hman|]. exists k. split; [congruence|].
           split; [exact Hk|]. now apply existsb_listed.
        -- left. destruct (sameId _ (Some k)) eqn:Hsame; simpl; [|reflexivity].
           apply sameId_true in Hsame. congruence.
      * left. destruct (sameId _ (Some k)) eqn:Hsame; simpl; [|reflexivity].
        apply sameId_true in Hsame. congruence.
    + left. destruct (sameId _ None) eqn:Hsame; simpl; [|reflexivity].
      apply sameId_true in Hsame. congruence.
  - left. destruct (sameId _ (selectedEndpointId seen)) eqn:Hsame; simpl;
      [|reflexivity].
    apply sameId_true in Hsame. congruence.
Qed.

(** On the pool page one render with its effects always leaves a valid
    selection, from any earlier state: the group of the stratum host is
    selected and the selected endpoint is one of the current rows; and the
    state is settled, so further renders with the same data change
    nothing. *)
Lemma reconcile_page_facts
    (env : option string) (entries : list (string * PortConfig))
    (m : gmap string LatencyState) (s : Selection) :
  selectedGroupId (reconcile (connectionRows (stratumHost env) entries) m s)
  = Some (stratumHost env)
  /\ (exists e,
        e ∈ connectionRows (stratumHost env) entries
        /\ selectedEndpointId
             (reconcile (connectionRows (stratumHost env) entries) m s)
           = Some (id e))
  /\ reconcile (connectionRows (stratumHost env) entries) m
       (reconcile (connectionRows (stratumHost env) entries) m s)
     = reconcile (connectionRows (stratumHost env) entries) m s
  /\ forall n,
       settle (S n) (connectionRows (stratumHost env) entries) m s
       = reconcile (connectionRows (stratumHost env) entries) m s.
Proof.
  set (h := stratumHost env).
  pose proof (stratumHost_nonEmpty env) as Hh. fold h in Hh.
  destruct (render_page h entries m s Hh)
    as (g & Hpage & Hid & Hhost & Hperm & Hgroups & Hbyid & Hfallback & Hefallback).
  destruct (render_page h entries m
              (reconcile (connectionRows h entries) m s) Hh)
    as (g' & Hpage' & _ & _ & _ & Hgroups' & Hbyid' & Hfallback' & Hefallback').
  assert (g' = g) by congruence. subst g'.
  set (rows := connectionRows h entries) in *.
  set (s' := reconcile rows m s) in *.
  set (v := render rows m s) in *. set (v' := render rows m s') in *.
  destruct (groupEffect_page v s h g Hh Hgroups Hbyid Hfallback Hid)
    as (Hgsel & Hgcell & Hgref & _).
  assert (Hsel : selectedGroupId s' = Some h).
  { subst s'. unfold reconcile. fold v.
    now rewrite (proj1 (endpointEffect_keeps_group v s (groupEffect v s s))). }
  assert (Hlands := endpointEffect_lands v s (groupEffect v s s) g Hefallback Hgcell).
  fold (reconcile rows m s) in Hlands. fold s' in Hlands.
  change (viewDefaultEndpoint v) with (defaultEndpointRow rows) in Hlands.
  change (viewLatency v) with m in Hlands.
  split; [exact Hsel|]. split; [|split].
  - destruct Hlands as [Hauto | (_ & k & Hk & _ & e & He & ->)].
    + destruct (endpointPreference (defaultEndpointRow rows) m g) as [e|] eqn:Hpref.
      * exists e. split; [|exact Hauto].
        apply endpointPreference_elem in Hpref. now rewrite <- Hperm.
      * apply endpointPreference_none in Hpref.
        destruct (connectionRows_cons h entries) as (r & rest & Hrows).
        fold rows in Hrows. rewrite Hpref, Hrows in Hperm.
        now apply Permutation_nil_cons in Hperm.
    + exists e. split; [now rewrite <- Hperm | exact Hk].
  - unfold reconcile at 1. fold v'.
    destruct (groupEffect_page v' s' h g Hh Hgroups' Hbyid' Hfallback' Hid)
      as (_ & _ & _ & Hsame).
    rewrite (Hsame Hsel).
    apply (endpointEffect_stable v' s' g Hefallback'). exact Hlands.
  - assert (Hfix : reconcile rows m s' = s').
    { unfold reconcile at 1. fold v'.
      destruct (groupEffect_page v' s' h g Hh Hgroups' Hbyid' Hfallback' Hid)
        as (_ & _ & _ & Hsame).
      rewrite (Hsame Hsel).
      apply (endpointEffect_stable v' s' g Hefallback'). exact Hlands. }
    intros n. simpl. fold s'. induction n as [|n IH]; [reflexivity|].
    simpl. now rewrite Hfix.
Qed.

(** X5: on the pool page one render with its effects always leaves a valid
    selection, from any earlier state: the group of the stratum host is
    selected and the selected endpoint is one of the current rows; and the
    state is settled, so further renders with the same data change
    nothing. *)
Theorem reconcile_settles
    (env : option string) (entries : list (string * PortConfig))
    (m : gmap string LatencyState) (s : Selection) :
  selectedGroupId (reconcile (connectionRows (stratumHost env) entries) m s)
  = Some (stratumHost env)
  /\ (exists e,
        e ∈ connectionRows (stratumHost env) entries
        /\ selectedEndpointId
             (reconcile (connectionRows (stratumHost env) entries) m s)
           = Some (id e))
  /\ reconcile (connectionRows (stratumHost env) entries) m
       (reconcile (connectionRows (stratumHost env) entries) m s)
     = reconcile (connectionRows (stratumHost env) entries) m s
  /\ forall n,
       settle (S n) (connectionRows (stratumHost env) entries) m s
       = reconcile (connectionRows (stratumHost env) entries) m s.
Proof. apply reconcile_page_facts. Qed.

(** ** Choosing a group *)

Lemma fold_insert_other (groups : list ConnectionGroup)
    (m0 : gmap string ConnectionGroup) (k : string) :
  k ∉ map groupId groups ->
  fold_left (fun m g => <[groupId g := g]> m) groups m0 !! k = m0 !! k.
Proof.
  revert m0. induction groups as [|x groups IH]; intros m0 Hk; simpl; [reflexivity|].
  simpl in Hk. apply not_elem_of_cons in Hk as [Hne Hk].
  rewrite IH by exact Hk. now rewrite lookup_insert_ne.
Qed.

Lemma groupById_lookup (groups : list ConnectionGroup) (g : ConnectionGroup) :
  NoDup (map groupId groups) -> g ∈ groups ->
  groupById groups !! groupId g = Some g.
Proof.
  unfold groupById. generalize (∅ : gmap string ConnectionGroup).
  induction groups as [|x groups IH]; intros m0 Hnodup Hin;
    [now apply elem_of_nil in Hin|].
  simpl in *. apply NoDup_cons in Hnodup as [Hnotin Hnodup].
  apply elem_of_cons in Hin as [->|Hin].
  - rewrite fold_insert_other by exact Hnotin. apply lookup_insert_eq.
  - now apply IH.
Qed.

(** X6: choosing another group than the selected one clears the endpoint
    selection and its manual mark, and the next render keeps the chosen
    group and selects in it the endpoint the automatic order prefers, one
    of its endpoints; choosing the selected group again leaves the endpoint
    selection as it is. *)
Theorem selectGroup_resets_endpoint
    (rows : list ConnectionRow) (m : gmap string LatencyState) (s : Selection)
    (g : ConnectionGroup)
    (Hin : g ∈ connectionGroups rows)
    (Hkey : nonEmpty (groupId g) = true)
    (Hother : selectedGroupId s <> Some (groupId g)) :
  selectedEndpointId (selectGroup (groupId g) s) = None
  /\ manualEndpointRef (selectGroup (groupId g) s) = false
  /\ selectedGroupId (reconcile rows m (selectGroup (groupId g) s))
     = Some (groupId g)
  /\ manualSelectionRef (reconcile rows m (selectGroup (groupId g) s)) = true
  /\ selectedEndpointId (reconcile rows m (selectGroup (groupId g) s))
     = id <$> endpointPreference (defaultEndpointRow rows) m g
  /\ (exists e,
        e ∈ endpoints g
        /\ selectedEndpointId (reconcile rows m (selectGroup (groupId g) s))
           = Some (id e))
  /\ (forall s0,
        selectedGroupId s0 = Some (groupId g) ->
        selectedEndpointId (selectGroup (groupId g) s0) = selectedEndpointId s0
        /\ manualEndpointRef (selectGroup (groupId g) s0) = manualEndpointRef s0).
Proof.
  assert (Hs1 : selectGroup (groupId g) s
                = setSelectedGroupId (Some (groupId g))
                    (setSelectedEndpointId None
                       (setManualEndpoint false (setManualSelection true s)))).
  { unfold selectGroup, sameId.
    rewrite bool_decide_eq_false_2 by congruence. reflexivity. }
  set (s1 := selectGroup (groupId g) s) in *.
  destruct (connectionGroups_facts rows) as (Hnodup & Hgroups & _).
  pose proof (groupById_lookup _ g Hnodup Hin) as Hlook.
  set (v := render rows m s1).
  assert (Hsel1 : selectedGroupId s1 = Some (groupId g)) by now rewrite Hs1.
  assert (Hview : viewById v !! groupId g = Some g) by exact Hlook.
  assert (Hfallback : endpointFallbackGroup v = Some g).
  { unfold endpointFallbackGroup, v, render; simpl.
    rewrite Hsel1. simpl. now rewrite Hkey, Hlook. }
  assert (Hne : viewGroups v <> []).
  { unfold v, render; simpl. intros Hnil. rewrite Hnil in Hin.
    now apply elem_of_nil in Hin. }
  assert (Hgroup : groupEffect v s1 s1 = s1).
  { apply (groupEffect_pinned v s1 (groupId g) g); auto. now rewrite Hs1. }
  assert (Hpick : selectedEndpointId (reconcile rows m s1)
                  = id <$> endpointPreference (defaultEndpointRow rows) m g).
  { unfold reconcile. fold v. rewrite Hgroup.
    apply (endpointEffect_recomputes v s1 s1 g Hfallback eq_refl).
    left. now rewrite Hs1. }
  split; [now rewrite Hs1|]. split; [now rewrite Hs1|].
  split; [|split; [|split; [exact Hpick|split]]].
  - unfold reconcile. fold v.
    rewrite (proj1 (endpointEffect_keeps_group v s1 (groupEffect v s1 s1))).
    now rewrite Hgroup.
  - unfold reconcile. fold v.
    rewrite (proj2 (endpointEffect_keeps_group v s1 (groupEffect v s1 s1))).
    rewrite Hgroup. now rewrite Hs1.
  - rewrite Hpick.
    destruct (endpointPreference (defaultEndpointRow rows) m g) as [e|] eqn:Hpref.
    + exists e. split; [|reflexivity]. now apply endpointPreference_elem in Hpref.
    + apply endpointPreference_none in Hpref.
      rewrite Forall_forall in Hgroups. now destruct (Hgroups g Hin) as (_ & Hsome & _).
  - intros s0 Hs0. unfold selectGroup, sameId.
    rewrite bool_decide_eq_true_2 by congruence. split; reflexivity.
Qed.

(** With nothing selected yet, choosing the group of the ports 3333 and
    3355 selects port 3333 in it. *)
Lemma selectGroup_resets_endpoint_witness :
  selectedEndpointId
    (reconcile (connectionRows poolLocal portsPlain) samplesPlain
       (selectGroup (groupId groupPlain) initialSelection))
  = Some "pool.local-3333".
Proof.
  destruct (selectGroup_resets_endpoint (connectionRows poolLocal portsPlain)
              samplesPlain initialSelection groupPlain)
    as (_ & _ & _ & _ & Hpick & _).
  - apply list_elem_of_In. vm_compute. left. reflexivity.
  - reflexivity.
  - discriminate.
  - rewrite Hpick. reflexivity.
Defined.

(** ** The endpoint shown *)

(** X7: the endpoint the page shows as selected is always an endpoint of
    the group it shows as selected; and after a render with its effects on
    the pool page, the endpoint shown is the one the selection state
    names. *)
Theorem shown_endpoint_matches_selection
    (env : option string) (entries : list (string * PortConfig))
    (rows : list ConnectionRow) (m : gmap string LatencyState) (s : Selection) :
  (forall e,
     PageView.effectiveSelectedEndpoint (render rows m s) s = Some e ->
     exists g,
       PageView.effectiveSelectedGroup (render rows m s) = Some g
       /\ e ∈ endpoints g)
  /\ id <$> PageView.effectiveSelectedEndpoint
              (render (connectionRows (stratumHost env) entries) m
                 (reconcile (connectionRows (stratumHost env) entries) m s))
              (reconcile (connectionRows (stratumHost env) entries) m s)
     = selectedEndpointId
         (reconcile (connectionRows (stratumHost env) entries) m s).
Proof.
  split.
  - intros e. unfold PageView.effectiveSelectedEndpoint.
    destruct (PageView.effectiveSelectedGroup (render rows m s)) as [g|];
      [|discriminate].
    intros He. exists g. split; [reflexivity|].
    destruct (match selectedEndpointId s with Some _ => _ | None => _ end)
      as [x|] eqn:Hexplicit.
    + injection He as <-.
      destruct (selectedEndpointId s) as [k|]; [|discriminate].
      destruct (nonEmpty k); [|discriminate]. now apply find_elem in Hexplicit.
    + rewrite pickEndpointForGroup_preference in He.
      now apply endpointPreference_elem in He.
  - set (h := stratumHost env).
    pose proof (stratumHost_nonEmpty env) as Hh. fold h in Hh.
    destruct (reconcile_page_facts env entries m s) as (_ & (e & He & Hsel) & _).
    fold h in He, Hsel.
    destruct (render_page h entries m
                (reconcile (connectionRows h entries) m s) Hh)
      as (g & _ & _ & _ & Hperm & _ & _ & _ & Hefallback).
    unfold PageView.effectiveSelectedEndpoint, PageView.effectiveSelectedGroup.
    unfold endpointFallbackGroup in Hefallback. rewrite Hefallback, Hsel.
    rewrite (connectionRows_id_nonEmpty h entries e He).
    destruct (find_by_id (endpoints g) e) as (e' & Hfind & Hid & _);
      [now rewrite Hperm|].
    rewrite Hfind. simpl. now rewrite Hid.
Qed.

(** ** Starting probes *)

Lemma autoProbe_noop (rows : list ConnectionRow) (p : PageView.Probing) :
  (forall r, r ∈ rows -> id r ∈ PageView.measuredRef p) ->
  PageView.autoProbe rows p = p.
Proof.
  unfold PageView.autoProbe.
  induction rows as [|x rows IH]; intros Hall; simpl; [reflexivity|].
  rewrite decide_True by (apply Hall, list_elem_of_here).
  apply IH. intros r Hr. apply Hall. now apply list_elem_of_further.
Qed.

Lemma autoProbe_started (rows : list ConnectionRow) (p : PageView.Probing) :
  exists started : list ConnectionRow,
    PageView.requests (PageView.autoProbe rows p)
    = (PageView.requests p ++ started)%list
    /\ PageView.measuredRef (PageView.autoProbe rows p)
       = PageView.measuredRef p ∪ list_to_set (map id started)
    /\ NoDup (map id started)
    /\ (forall r, r ∈ started -> r ∈ rows /\ id r ∉ PageView.measuredRef p)
    /\ (forall r, r ∈ rows -> id r ∈ PageView.measuredRef (PageView.autoProbe rows p))
    /\ (forall k,
          PageView.latencyMap (PageView.autoProbe rows p) !! k
          = if decide (k ∈ map id started) then Some inFlight
            else PageView.latencyMap p !! k).
Proof.
  revert p. induction rows as [|x rows IH]; intros p.
  - exists [].
    split; [simpl; now rewrite app_nil_r|].
    split; [simpl; now rewrite union_empty_r_L|].
    split; [constructor|].
    split; [intros r Hr; now apply elem_of_nil in Hr|].
    split; [intros r Hr; now apply elem_of_nil in Hr|].
    intros k. cbn [map].
    destruct (decide (k ∈ [])) as [H|H]; [now apply elem_of_nil in H|reflexivity].
  - unfold PageView.autoProbe. simpl.
    fold (PageView.autoProbe rows
            (if decide (id x ∈ PageView.measuredRef p) then p
             else PageView.testLatencyBegin x p)).
    destruct (decide (id x ∈ PageView.measuredRef p)) as [Hseen|Hnew].
    + destruct (IH p) as (started & Hreq & Hmeasured & Hnodup & Hfrom & Hall & Hmap).
      exists started.
      split; [exact Hreq|]. split; [exact Hmeasured|]. split; [exact Hnodup|].
      split; [|split; [|exact Hmap]].
      * intros r Hr. destruct (Hfrom r Hr) as [Hin Hnot].
        split; [now apply list_elem_of_further | exact Hnot].
      * intros r Hr. apply elem_of_cons in Hr as [->|Hr]; [|now apply Hall].
        rewrite Hmeasured. apply elem_of_union. now left.
    + destruct (IH (PageView.testLatencyBegin x p))
        as (started & Hreq & Hmeasured & Hnodup & Hfrom & Hall & Hmap).
      exists (x :: started). simpl in *.
      assert (Hfresh : id x ∉ map id started).
      { intros Hin. apply list_elem_of_fmap in Hin as (r & Hid & Hr).
        destruct (Hfrom r Hr) as [_ Hnot]. apply Hnot. rewrite <- Hid.
        apply elem_of_union. left. now apply elem_of_singleton. }
      split; [rewrite Hreq; now rewrite <- app_assoc|].
      split; [rewrite Hmeasured; now rewrite (assoc_L (∪)), (comm_L (∪) {[id x]})|].
      split; [now constructor|].
      split; [|split].
      * intros r Hr. apply elem_of_cons in Hr as [->|Hr].
        -- split; [apply list_elem_of_here | exact Hnew].
        -- destruct (Hfrom r Hr) as [Hin Hnot].
           split; [now apply list_elem_of_further|].
           intros Hold. apply Hnot. apply elem_of_union. now right.
      * intros r Hr. apply elem_of_cons in Hr as [->|Hr]; [|now apply Hall].
        rewrite Hmeasured. apply elem_of_union. left. apply elem_of_union.
        left. now apply elem_of_singleton.
      * intros k. rewrite Hmap.
        destruct (decide (k ∈ map id started)) as [Hk|Hk].
        -- rewrite decide_True by (now apply list_elem_of_further). reflexivity.
        -- destruct (decide (k = id x)) as [->|Hne].
           ++ rewrite decide_True by apply list_elem_of_here.
              apply lookup_insert_eq.
           ++ rewrite decide_False by (rewrite elem_of_cons; tauto).
              now rewrite lookup_insert_ne.
Qed.

(** X8: the effect that probes new rows sends a request for exactly the
    rows whose id was not measured before, once per id and in row order,
    marks their ids and puts their samples in flight, leaves every other
    sample alone, and sends nothing when it runs again on the same rows. *)
Theorem autoProbe_probes_each_new_row_once
    (rows : list ConnectionRow) (p : PageView.Probing) :
  (exists started : list ConnectionRow,
     PageView.requests (PageView.autoProbe rows p)
     = (PageView.requests p ++ started)%list
     /\ NoDup (map id started)
     /\ (forall r, r ∈ started -> r ∈ rows /\ id r ∉ PageView.measuredRef p)
     /\ (forall r, r ∈ rows -> id r ∉ PageView.measuredRef p ->
                   id r ∈ map id started)
     /\ (forall k,
           PageView.latencyMap (PageView.autoProbe rows p) !! k
           = if decide (k ∈ map id started) then Some inFlight
             else PageView.latencyMap p !! k))
  /\ (forall r, r ∈ rows -> id r ∈ PageView.measuredRef (PageView.autoProbe rows p))
  /\ PageView.autoProbe rows (PageView.autoProbe rows p) = PageView.autoProbe rows p.
Proof.
  destruct (autoProbe_started rows p)
    as (started & Hreq & Hmeasured & Hnodup & Hfrom & Hall & Hmap).
  split; [|split; [exact Hall | now apply autoProbe_noop]].
  exists started. split; [exact Hreq|]. split; [exact Hnodup|].
  split; [exact Hfrom|]. split; [|exact Hmap].
  intros r Hr Hnew. specialize (Hall r Hr). rewrite Hmeasured in Hall.
  apply elem_of_union in Hall as [Hold|Hin]; [contradiction|].
  now apply elem_of_list_to_set in Hin.
Qed.

Lemma remeasure_fold (rows : list ConnectionRow) (p : PageView.Probing) :
  PageView.requests (fold_left PageView.probeAgain rows p)
  = (PageView.requests p ++ rows)%list
  /\ PageView.measuredRef (fold_left PageView.probeAgain rows p)
     = PageView.measuredRef p ∪ list_to_set (map id rows)
  /\ (forall k,
        PageView.latencyMap (fold_left PageView.probeAgain rows p) !! k
        = if decide (k ∈ map id rows) then Some inFlight
          else PageView.latencyMap p !! k).
Proof.
  revert p. induction rows as [|x rows IH]; intros p; cbn [fold_left].
  - split; [now rewrite app_nil_r|].
    split; [simpl; now rewrite union_empty_r_L|]. intros k. cbn [map].
    destruct (decide (k ∈ [])) as [H|H]; [now apply elem_of_nil in H|reflexivity].
  - destruct (IH (PageView.probeAgain p x)) as (Hreq & Hmeasured & Hmap).
    split; [|split].
    + rewrite Hreq. simpl. now rewrite <- app_assoc.
    + rewrite Hmeasured. simpl.
      apply set_eq. intros k. rewrite !elem_of_union, elem_of_difference,
        !elem_of_singleton.
      destruct (decide (k = id x)); tauto.
    + intros k. rewrite Hmap. simpl.
      destruct (decide (k ∈ map id rows)) as [Hk|Hk].
      * rewrite decide_True by (now apply list_elem_of_further). reflexivity.
      * destruct (decide (k = id x)) as [->|Hne].
        -- rewrite decide_True by apply list_elem_of_here. apply lookup_insert_eq.
        -- rewrite decide_False by (rewrite elem_of_cons; tauto).
           now rewrite lookup_insert_ne.
Qed.

(** X9: retesting sends a request for every listed row, measured before or
    not, in row order, puts the sample of each in flight and leaves the
    samples of other ids alone; retrying a group does the same for the
    endpoints of the group. *)
Theorem remeasureAll_probes_every_row
    (rows : list ConnectionRow) (g : ConnectionGroup) (p : PageView.Probing) :
  PageView.requests (PageView.remeasureAll rows p)
  = (PageView.requests p ++ rows)%list
  /\ (forall r, r ∈ rows ->
        id r ∈ PageView.measuredRef (PageView.remeasureAll rows p)
        /\ PageView.latencyMap (PageView.remeasureAll rows p) !! id r
           = Some inFlight)
  /\ (forall k, k ∉ map id rows ->
        PageView.latencyMap (PageView.remeasureAll rows p) !! k
        = PageView.latencyMap p !! k)
  /\ PageView.requests (PageView.retryGroup g p)
     = (PageView.requests p ++ endpoints g)%list
  /\ (forall k, k ∉ map id (endpoints g) ->
        PageView.latencyMap (PageView.retryGroup g p) !! k
        = PageView.latencyMap p !! k).
Proof.
  unfold PageView.remeasureAll, PageView.retryGroup.
  destruct (remeasure_fold rows p) as (Hreq & Hmeasured & Hmap).
  destruct (remeasure_fold (endpoints g) p) as (Hreq' & _ & Hmap').
  split; [exact Hreq|]. split; [|split; [|split; [exact Hreq'|]]].
  - intros r Hr.
    assert (Hid : id r ∈ map id rows) by (apply list_elem_of_fmap; eauto).
    split.
    + rewrite Hmeasured. apply elem_of_union. right.
      now apply elem_of_list_to_set.
    + rewrite Hmap. now rewrite decide_True.
  - intros k Hk. rewrite Hmap. now rewrite decide_False.
  - intros k Hk. rewrite Hmap'. now rewrite decide_False.
Qed.

(** ** The latency map of the panel *)

Lemma listed_location (locations : list Panel.StratumLocation) (k : string) :
  existsb (fun location => String.eqb (Panel.id location) k) locations = true
  <-> k ∈ map Panel.id locations.
Proof.
  rewrite existsb_exists, list_elem_of_fmap. split.
  - intros (l & Hin & Heq). exists l. apply String.eqb_eq in Heq.
    split; [now symmetry | now apply list_elem_of_In].
  - intros (l & -> & Hin). exists l. split; [now apply list_elem_of_In|].
    apply String.eqb_refl.
Qed.

Lemma fill_missing_lookup (locations : list Panel.StratumLocation)
    (prev : gmap string LatencyState) (k : string) :
  fold_left
    (fun next location =>
       match next !! Panel.id location with
       | Some _ => next
       | None => <[Panel.id location := Display.DEFAULT_LATENCY]> next
       end) locations prev !! k
  = match prev !! k with
    | Some entry => Some entry
    | None => if decide (k ∈ map Panel.id locations)
              then Some Display.DEFAULT_LATENCY else None
    end.
Proof.
  revert prev. induction locations as [|l locations IH]; intros prev; cbn [fold_left map].
  - destruct (prev !! k); [reflexivity|].
    destruct (decide (k ∈ [])) as [H|H]; [now apply elem_of_nil in H|reflexivity].
  - rewrite IH. destruct (prev !! Panel.id l) as [entry|] eqn:Hl.
    + destruct (prev !! k) as [e|] eqn:Hk; [reflexivity|].
      destruct (decide (k ∈ map Panel.id locations)) as [Hin|Hout].
      * rewrite decide_True by (now apply list_elem_of_further). reflexivity.
      * rewrite decide_False; [reflexivity|].
        rewrite elem_of_cons. intros [->|Hin]; [congruence | contradiction].
    + destruct (decide (k = Panel.id l)) as [->|Hne].
      * rewrite lookup_insert_eq, Hl.
        rewrite decide_True by apply list_elem_of_here. reflexivity.
      * rewrite lookup_insert_ne by congruence.
        destruct (prev !! k) as [e|]; [reflexivity|].
        destruct (decide (k ∈ map Panel.id locations)) as [Hin|Hout].
        -- rewrite decide_True by (now apply list_elem_of_further). reflexivity.
        -- rewrite decide_False; [reflexivity|].
           rewrite elem_of_cons. tauto.
Qed.

(** X10: when the locations of the panel change, its latency map is brought
    in line with them: afterwards the map has an entry exactly for the ids
    of the locations, a location that had a sample keeps it, a new location
    gets the idle default, and doing it again changes nothing. *)
Theorem syncLatencyMap_matches_locations
    (locations : list Panel.StratumLocation) (prev : gmap string LatencyState) :
  (forall k,
     Display.syncLatencyMap locations prev !! k
     = if decide (k ∈ map Panel.id locations)
       then match prev !! k with
            | Some entry => Some entry
            | None => Some Display.DEFAULT_LATENCY
            end
       else None)
  /\ dom (Display.syncLatencyMap locations prev)
     = list_to_set (map Panel.id locations)
  /\ Display.syncLatencyMap locations (Display.syncLatencyMap locations prev)
     = Display.syncLatencyMap locations prev.
Proof.
  assert (Hlookup : forall prev' k,
     Display.syncLatencyMap locations prev' !! k
     = if decide (k ∈ map Panel.id locations)
       then match prev' !! k with
            | Some entry => Some entry
            | None => Some Display.DEFAULT_LATENCY
            end
       else None).
  { intros prev' k. unfold Display.syncLatencyMap.
    destruct (decide (k ∈ map Panel.id locations)) as [Hin|Hout].
    - pose proof (fill_missing_lookup locations prev' k) as Hfill.
      rewrite decide_True in Hfill by exact Hin.
      destruct (prev' !! k) as [entry|].
      + apply map_lookup_filter_Some. split; [exact Hfill|].
        simpl. now apply listed_location.
      + apply map_lookup_filter_Some. split; [exact Hfill|].
        simpl. now apply listed_location.
    - apply map_lookup_filter_None. right. intros x _ Hlisted. simpl in Hlisted.
      now apply listed_location in Hlisted. }
  split; [apply Hlookup|]. split.
  - apply set_eq. intros k. rewrite elem_of_dom, elem_of_list_to_set, Hlookup.
    destruct (decide (k ∈ map Panel.id locations)) as [Hin|Hout].
    + split; [auto|]. intros _. destruct (prev !! k); eauto.
    + split; [intros [x Hx]; discriminate | contradiction].
  - apply map_eq. intros k. rewrite (Hlookup (Display.syncLatencyMap locations prev)).
    rewrite Hlookup.
    destruct (decide (k ∈ map Panel.id locations)); [|reflexivity].
    destruct (prev !! k); reflexivity.
Qed.

(** ** Latency badges *)

(** X11: the panel colours the badge and the dot of a sample alike, and
    the pool page gives a sample that is not idle the label and the colour
    the panel gives it; they differ on an endpoint without sample, which
    the pool page shows as "—" and the panel, through its idle default, as
    "unreachable". *)
Theorem latency_badges_agree (entry : LatencyState) :
  (forall colour,
     colour ∈ ["emerald"; "amber"; "rose"] ->
     includes (Display.className (Display.latencyToBadge entry)) colour
     = includes (Display.latencyDotClass entry) colour)
  /\ (forall (m : gmap string LatencyState) (row : ConnectionRow) colour,
        m !! id row = Some entry -> status entry <> idle ->
        colour ∈ ["emerald"; "amber"; "rose"] ->
        Display.label (Display.latencyStatusFor m row)
        = Display.label (Display.latencyToBadge entry)
        /\ includes (Display.className (Display.latencyStatusFor m row)) colour
           = includes (Display.className (Display.latencyToBadge entry)) colour)
  /\ (forall (m : gmap string LatencyState) (row : ConnectionRow),
        m !! id row = None \/ (m !! id row = Some entry /\ status entry = idle) ->
        Display.label (Display.latencyStatusFor m row) = "—")
  /\ (forall (m : gmap string LatencyState) (location : Panel.StratumLocation),
        m !! Panel.id location = None ->
        Display.label (Display.latencyToBadge (Display.entryOf m location))
        = "unreachable").
Proof.
  assert (Hcolours : forall c (P : string -> Prop),
            c ∈ ["emerald"; "amber"; "rose"] ->
            P "emerald" -> P "amber" -> P "rose" -> P c).
  { intros c P Hc H1 H2 H3.
    apply elem_of_cons in Hc as [->|Hc]; [exact H1|].
    apply elem_of_cons in Hc as [->|Hc]; [exact H2|].
    apply list_elem_of_singleton in Hc as ->. exact H3. }
  destruct entry as [l st f]. split; [|split; [|split]].
  - intros colour Hc. unfold Display.latencyToBadge, Display.latencyDotClass; simpl.
    apply (Hcolours colour (fun c => includes _ c = includes _ c) Hc);
      destruct st, l as [l|]; simpl;
      try destruct (l <=? 120); try destruct (l <=? 220); reflexivity.
  - intros m row colour Hm Hst Hc.
    unfold Display.latencyStatusFor, Display.latencyToBadge. rewrite Hm. simpl.
    split.
    + destruct st, l as [l|]; simpl; try contradiction;
        try destruct (l <=? 120); try destruct (l <=? 220); reflexivity.
    + apply (Hcolours colour (fun c => includes _ c = includes _ c) Hc);
        destruct st, l as [l|]; simpl; try contradiction;
        try destruct (l <=? 120); try destruct (l <=? 220); reflexivity.
  - intros m row [Hm | [Hm Hst]]; unfold Display.latencyStatusFor; rewrite Hm;
      [reflexivity|]. simpl in *. now rewrite Hst.
  - intros m location Hm. unfold Display.entryOf. now rewrite Hm.
Qed.

(** ** Requests the route refuses *)

Lemma run_answer (r : LatencyRoute.Response) (ev : LatencyRoute.SocketEvent) :
  LatencyRoute.run (LatencyRoute.Answer r) ev = LatencyRoute.Returned r.
Proof. reflexivity. Qed.

Lemma POST_answer (body : LatencyRoute.Body) (resp : LatencyRoute.Response) :
  LatencyRoute.POST body = LatencyRoute.Answer resp ->
  LatencyRoute.httpStatus resp = 400
  /\ LatencyRoute.latency (LatencyRoute.json resp) = Undefined
  /\ (LatencyRoute.error (LatencyRoute.json resp) = Some "Invalid JSON payload"
      \/ LatencyRoute.error (LatencyRoute.json resp)
         = Some "host and port are required").
Proof.
  unfold LatencyRoute.POST, LatencyRoute.badRequest.
  destruct body as [| |h p t]; [intros [= <-]; simpl; auto | discriminate |].
  destruct h as [| |b|x|name]; try discriminate;
    try (intros [= <-]; simpl; now auto).
  destruct (negb (nonEmpty (trim name)) || isNaN (LatencyRoute.Number p)
            || leb (LatencyRoute.Number p) (Num 0)); [|discriminate].
  intros [= <-]. simpl. auto.
Qed.

Lemma POST_connect (body : LatencyRoute.Body) (hostName : string)
    (port timeout : number)
    (resolve : LatencyRoute.SocketEvent -> LatencyRoute.Result) :
  LatencyRoute.POST body = LatencyRoute.Connect hostName port timeout resolve ->
  resolve = LatencyRoute.resolveOn
  /\ exists name p t q,
       body = LatencyRoute.Payload (LatencyRoute.PString name) p t
       /\ hostName = trim name /\ nonEmpty (trim name) = true
       /\ LatencyRoute.Number p = Num q /\ port = Num q /\ (0 < q)%Q.
Proof.
  unfold LatencyRoute.POST, LatencyRoute.badRequest.
  destruct body as [| |h p t]; try discriminate.
  destruct h as [| |b|x|name]; try discriminate.
  destruct (nonEmpty (trim name)) eqn:Hname; [|discriminate]. simpl.
  destruct (LatencyRoute.Number p) as [|q] eqn:Hp; [discriminate|]. simpl.
  destruct (Qle_bool q 0) eqn:Hq; [discriminate|].
  intros [= <- <- _ <-]. split; [reflexivity|].
  exists name, p, t, q. repeat split; auto.
  apply not_true_iff_false in Hq. rewrite Qle_bool_iff in Hq. lra.
Qed.

(** X12: whatever the request and the remote end, an answer of the route is
    either a 400 without latency field, carrying one of its two messages,
    or a 200 whose latency is null exactly when an error is set; and a 200
    is only given for a host string that is not blank and a port above
    zero. *)
Theorem serve_answers_400_or_200
    (body : LatencyRoute.Body) (remote : LatencyRoute.Remote)
    (r : LatencyRoute.Response)
    (Hserve : LatencyRoute.serve body remote = LatencyRoute.Returned r) :
  (LatencyRoute.httpStatus r = 400
   /\ LatencyRoute.latency (LatencyRoute.json r) = Undefined
   /\ (LatencyRoute.error (LatencyRoute.json r) = Some "Invalid JSON payload"
       \/ LatencyRoute.error (LatencyRoute.json r)
          = Some "host and port are required"))
  \/ (LatencyRoute.httpStatus r = 200
      /\ (LatencyRoute.latency (LatencyRoute.json r) = Null
          <-> is_Some (LatencyRoute.error (LatencyRoute.json r)))
      /\ exists name p t q,
           body = LatencyRoute.Payload (LatencyRoute.PString name) p t
           /\ nonEmpty (trim name) = true
           /\ LatencyRoute.Number p = Num q /\ (0 < q)%Q).
Proof.
  unfold LatencyRoute.serve in Hserve.
  destruct (LatencyRoute.POST body) as [resp| |hostName port timeout resolve]
    eqn:Hpost.
  - injection Hserve as <-. left. now apply (POST_answer body).
  - discriminate Hserve.
  - apply POST_connect in Hpost
      as (-> & name & p & t & q & -> & _ & Hname & Hp & _ & Hq).
    unfold LatencyRoute.run in Hserve.
    destruct (LatencyRoute.portAccepted port); [|discriminate Hserve].
    injection Hserve as <-. right. simpl. split; [reflexivity|]. split.
    + destruct (LatencyRoute.firstEvent remote timeout);
        simpl; (split; [intros H; try discriminate H; eauto
                       | intros [x Hx]; try discriminate Hx; reflexivity]).
    + exists name, p, t, q. repeat split; auto.
Qed.

(** Port 3333 of pool.local is refused after 12 ms: the answer is a 200. *)
Lemma serve_answers_400_or_200_witness :
  nonEmpty (trim "pool.local") = true /\ (0 < 3333)%Q.
Proof.
  destruct (serve_answers_400_or_200 (Probe.requestOf row3333)
              (LatencyRoute.Refuses 12)
              {| LatencyRoute.httpStatus := 200;
                 LatencyRoute.json :=
                   {| LatencyRoute.latency := Null;
                      LatencyRoute.error := Some "connect-error" |} |})
    as [(Hstatus & _) | (_ & _ & name & p & t & q & Hbody & Hname & Hp & Hq)].
  - reflexivity.
  - discriminate Hstatus.
  - vm_compute in Hbody. injection Hbody as <- <- <-.
    vm_compute in Hp. injection Hp as <-. split; [exact Hname | exact Hq].
Defined.

(** X13: a row whose port is NaN or not above zero is never probed on the
    network: whatever the host and the remote end, the route answers 400
    and the client stores the error "host and port are required". *)
Theorem unusable_port_is_refused
    (row : ConnectionRow) (remote : LatencyRoute.Remote)
    (Hport : UnusablePort row) :
  LatencyRoute.serve (Probe.requestOf row) remote
  = LatencyRoute.Returned
      {| LatencyRoute.httpStatus := 400;
         LatencyRoute.json :=
           {| LatencyRoute.latency := Undefined;
              LatencyRoute.error := Some "host and port are required" |} |}
  /\ Probe.sampleOf
       (Probe.replyOf (LatencyRoute.serve (Probe.requestOf row) remote))
     = refusedSample.
Proof.
  assert (Hpost : LatencyRoute.POST (Probe.requestOf row)
                  = LatencyRoute.badRequest "host and port are required").
  { unfold Probe.requestOf, LatencyRoute.POST.
    destruct (nonEmpty (trim (host row))); simpl; [|reflexivity].
    destruct Hport as [-> | (q & -> & Hq)]; simpl; [reflexivity|].
    apply Qle_bool_iff in Hq. now rewrite Hq. }
  unfold LatencyRoute.serve. rewrite Hpost. simpl. split; reflexivity.
Qed.

(** The port key abc gives a row that is refused. *)
Lemma unusable_port_is_refused_witness :
  Probe.sampleOf
    (Probe.replyOf
       (LatencyRoute.serve
          (Probe.requestOf (rowOfEntry poolLocal ("abc", emptyConfig)))
          (LatencyRoute.Accepts 5 5)))
  = refusedSample.
Proof.
  apply (unusable_port_is_refused (rowOfEntry poolLocal ("abc", emptyConfig))
           (LatencyRoute.Accepts 5 5)).
  left. reflexivity.
Defined.

(** ** Blocks and payments *)

Lemma firstn_page (n : nat) (l : list PoolsData.Json) : (length (firstn n l) <= n)%nat.
Proof. rewrite length_firstn. lia. Qed.

(** X14: one run of the blocks and payments loader.  Each list holds at
    most ten items afterwards.  While the effect is active the two halves
    are independent: the blocks are the first ten of the normalised body,
    or empty with an advisory when the request failed, and the same for the
    payments, whatever happened to the blocks; an object with only a
    [result] array gives blocks but no payments.  Once the effect is no
    longer active nothing is written. *)
Theorem feeds_load_is_bounded_and_independent
    (blocksHttp paymentsHttp : PoolsData.HttpResult)
    (active1 active2 : bool) (s : PoolFeeds.Feeds) :
  ((length (PoolFeeds.blocks s) <= 10)%nat ->
   (length (PoolFeeds.payments s) <= 10)%nat ->
   (length (PoolFeeds.blocks
              (PoolFeeds.load blocksHttp active1 paymentsHttp active2 s)) <= 10)%nat
   /\ (length (PoolFeeds.payments
                 (PoolFeeds.load blocksHttp active1 paymentsHttp active2 s))
       <= 10)%nat)
  /\ (active1 = true -> active2 = true ->
      let s' := PoolFeeds.load blocksHttp active1 paymentsHttp active2 s in
      PoolFeeds.blocks s'
      = match blocksHttp with
        | PoolsData.Resolved data => firstn 10 (PoolFeeds.blocksOf data)
        | PoolsData.Rejected => []
        end
      /\ PoolFeeds.blocksError s'
         = match blocksHttp with
           | PoolsData.Resolved _ => None
           | PoolsData.Rejected => Some "Blocks endpoint unavailable for this pool."
           end
      /\ PoolFeeds.payments s'
         = match paymentsHttp with
           | PoolsData.Resolved data => firstn 10 (PoolFeeds.paymentsOf data)
           | PoolsData.Rejected => []
           end
      /\ PoolFeeds.paymentsError s'
         = match paymentsHttp with
           | PoolsData.Resolved _ => None
           | PoolsData.Rejected =>
               Some "Payments endpoint unavailable for this pool."
           end)
  /\ (active1 = false -> active2 = false ->
      PoolFeeds.load blocksHttp active1 paymentsHttp active2 s = s)
  /\ (forall items,
        PoolFeeds.blocksOf (PoolsData.JObject [("result", PoolsData.JArray items)])
        = items
        /\ PoolFeeds.paymentsOf
             (PoolsData.JObject [("result", PoolsData.JArray items)]) = []).
Proof.
  split; [|split; [|split; [|split; reflexivity]]].
  - intros Hb Hp.
    unfold PoolFeeds.load, PoolFeeds.loadBlocks, PoolFeeds.loadPayments,
      PoolFeeds.BLOCK_PAGE_SIZE, PoolFeeds.PAYMENT_PAGE_SIZE.
    destruct blocksHttp, paymentsHttp, active1, active2;
      cbn -[firstn PoolFeeds.blocksOf PoolFeeds.paymentsOf];
      split; try assumption; try apply firstn_page; simpl; lia.
  - intros -> ->. destruct blocksHttp, paymentsHttp; repeat split.
  - intros -> ->. destruct blocksHttp, paymentsHttp; reflexivity.
Qed.

(** ** The connect page *)

Lemma insertBy_perm {A : Type} (cmp : A -> A -> number) (x : A) (l : list A) :
  ConnectPage.insertBy cmp x l ≡ₚ x :: l.
Proof.
  induction l as [|y l IH]; cbn [ConnectPage.insertBy]; [reflexivity|].
  destruct (gtb (cmp y x) (Num 0)); [reflexivity|].
  rewrite IH. apply Permutation_swap.
Qed.

Lemma sortWith_perm {A : Type} (cmp : A -> A -> number) (l : list A) :
  ConnectPage.sortWith cmp l ≡ₚ l.
Proof.
  unfold ConnectPage.sortWith.
  enough (H : forall acc,
             fold_left (fun acc x => ConnectPage.insertBy cmp x acc) l acc
             ≡ₚ (acc ++ l)%list) by apply (H []).
  induction l as [|x l IH]; intros acc; simpl.
  - now rewrite app_nil_r.
  - rewrite IH, insertBy_perm. simpl. apply Permutation_middle.
Qed.

Lemma MinDifficulty_getMin (config : PortConfig) (d : Q) :
  MinDifficulty config d <-> d = ConnectPage.getMin config.
Proof.
  unfold MinDifficulty, ConnectPage.getMin. split.
  - intros [(v & -> & ->) | [Hnone ->]]; [reflexivity|].
    destruct (varDiff config) as [v|]; [|reflexivity].
    now rewrite (Hnone v eq_refl).
  - intros ->. destruct (varDiff config) as [v|].
    + destruct (minDiff v) as [d|] eqn:Hmin.
      * left. now exists v.
      * right. split; [|reflexivity]. now intros v' [= <-].
    + right. split; [discriminate | reflexivity].
Qed.

Lemma EntryLe_getMin (a b : string * PortConfig) :
  EntryLe a b <->
  (ConnectPage.getMin (snd a) < ConnectPage.getMin (snd b))%Q
  \/ ((ConnectPage.getMin (snd a) == ConnectPage.getMin (snd b))%Q
      /\ exists pa pb : Q,
           Number_of_string (fst a) = Num pa
           /\ Number_of_string (fst b) = Num pb /\ (pa <= pb)%Q).
Proof.
  unfold EntryLe. split.
  - intros (da & db & Ha & Hb & H).
    apply MinDifficulty_getMin in Ha, Hb. now subst.
  - intros H. exists (ConnectPage.getMin (snd a)), (ConnectPage.getMin (snd b)).
    split; [now apply MinDifficulty_getMin|].
    split; [now apply MinDifficulty_getMin | exact H].
Qed.

Lemma EntryLe_trans (a b c : string * PortConfig) :
  EntryLe a b -> EntryLe b c -> EntryLe a c.
Proof.
  rewrite !EntryLe_getMin.
  intros [Hab | (Hab & pa & pb & Hpa & Hpb & Hle)]
         [Hbc | (Hbc & pb' & pc & Hpb' & Hpc & Hle')].
  - left. lra.
  - left. lra.
  - left. lra.
  - right. split; [lra|]. exists pa, pc. rewrite Hpb in Hpb'.
    injection Hpb' as <-. repeat split; auto. lra.
Qed.

(** With numeric keys the comparator decides the order of two entries. *)
Lemma compareEntries_after (y x : string * PortConfig) :
  NumericKey x -> NumericKey y ->
  (gtb (ConnectPage.compareEntries y x) (Num 0) = true -> EntryLe x y)
  /\ (gtb (ConnectPage.compareEntries y x) (Num 0) = false -> EntryLe y x).
Proof.
  intros [px Hx] [py Hy]. rewrite !EntryLe_getMin.
  unfold ConnectPage.compareEntries.
  set (dy := ConnectPage.getMin (snd y)). set (dx := ConnectPage.getMin (snd x)).
  destruct (Qeq_bool dy dx) eqn:Heq; cbn [negb].
  - apply Qeq_bool_iff in Heq. rewrite Hx, Hy. split; intros H.
    + apply gtb_sub_lt in H. right. split; [lra|].
      exists px, py. repeat split; auto. lra.
    + apply not_true_iff_false in H. rewrite gtb_sub_lt in H.
      right. split; [lra|]. exists py, px. repeat split; auto. lra.
  - apply not_true_iff_false in Heq. rewrite Qeq_bool_iff in Heq.
    unfold gtb, ltb. split; intros H.
    + apply Qltb_spec in H. left. lra.
    + apply not_true_iff_false in H. rewrite Qltb_spec in H. left. lra.
Qed.

Lemma insertBy_sorted (x : string * PortConfig) (l : list (string * PortConfig)) :
  NumericKey x -> Forall NumericKey l ->
  StronglySorted EntryLe l ->
  StronglySorted EntryLe (ConnectPage.insertBy ConnectPage.compareEntries x l).
Proof.
  intros Hx Hnum. induction 1 as [|y l Hsorted IH Hy]; cbn [ConnectPage.insertBy].
  - repeat constructor.
  - apply Forall_cons in Hnum as [Hynum Hnum].
    destruct (gtb (ConnectPage.compareEntries y x) (Num 0)) eqn:Hcmp.
    + apply (compareEntries_after y x Hx Hynum) in Hcmp.
      constructor; [now constructor|]. constructor; [exact Hcmp|].
      eapply Forall_impl; [exact Hy|]. intros z Hz.
      now apply (EntryLe_trans x y z).
    + apply (compareEntries_after y x Hx Hynum) in Hcmp.
      constructor; [now apply IH|]. apply Forall_forall. intros z Hz.
      rewrite insertBy_perm in Hz. apply elem_of_cons in Hz as [->|Hz];
        [exact Hcmp|].
      rewrite Forall_forall in Hy. now apply Hy.
Qed.

(** X15: when the port keys of the active pool are numbers, the connect
    page lists its ports by ascending minimum of the variable difficulty,
    the ports without one last (they count as 2^53 - 1), ports of equal
    minimum by ascending port number; and it always lists each port of the
    pool exactly once. *)
Theorem portEntries_sorted_by_min_difficulty (pool : ConnectPage.Pool)
    (Hkeys : Forall NumericKey
               (match ConnectPage.ports pool with Some es => es | None => [] end)) :
  StronglySorted EntryLe (ConnectPage.portEntries (Some pool))
  /\ ConnectPage.portEntries (Some pool)
     ≡ₚ match ConnectPage.ports pool with Some es => es | None => [] end
  /\ ConnectPage.portEntries None = [].
Proof.
  split; [|split; [apply sortWith_perm | reflexivity]].
  unfold ConnectPage.portEntries, ConnectPage.sortWith.
  revert Hkeys.
  generalize (match ConnectPage.ports pool with Some es => es | None => [] end).
  intros l Hkeys.
  enough (H : forall acc,
             Forall NumericKey acc -> StronglySorted EntryLe acc ->
             StronglySorted EntryLe
               (fold_left (fun acc x =>
                             ConnectPage.insertBy ConnectPage.compareEntries x acc)
                  l acc)) by (apply H; constructor).
  induction Hkeys as [|x l Hx Hkeys IH]; intros acc Hnum Hacc; simpl;
    [exact Hacc|].
  apply IH.
  - rewrite insertBy_perm. now constructor.
  - now apply insertBy_sorted.
Qed.

(** The three tiers of the sample pool are listed 256, 1024, none. *)
Lemma portEntries_sorted_by_min_difficulty_witness :
  StronglySorted EntryLe (ConnectPage.portEntries (Some poolTiers))
  /\ map fst (ConnectPage.portEntries (Some poolTiers)) = ["3334"; "3333"; "3335"].
Proof.
  split; [|reflexivity].
  apply (portEntries_sorted_by_min_difficulty poolTiers).
  repeat constructor; eexists; vm_compute; reflexivity.
Defined.

Lemma hasPort_spec (entries : list (string * PortConfig)) (k : string) :
  ConnectPage.hasPort entries k = true <-> k ∈ map fst entries.
Proof.
  unfold ConnectPage.hasPort. rewrite existsb_exists, list_elem_of_fmap. split.
  - intros (e & Hin & Heq). exists e. apply String.eqb_eq in Heq.
    split; [now symmetry | now apply list_elem_of_In].
  - intros (e & -> & Hin). exists e. split; [now apply list_elem_of_In|].
    apply String.eqb_refl.
Qed.

(** X16: the selected port of the connect page is none exactly when the
    pool lists no port, and is otherwise always one of the listed ports:
    the port selected before, when it is still listed, and else the port
    in the middle of the list (index half the length, rounded down), for
    which the guard against running off the end never cuts in. *)
Theorem nextSelectedPort_is_listed
    (entries : list (string * PortConfig)) (prev : option string) :
  (ConnectPage.nextSelectedPort entries prev = None <-> entries = [])
  /\ (forall k, ConnectPage.nextSelectedPort entries prev = Some k ->
                k ∈ map fst entries)
  /\ (forall p, prev = Some p -> nonEmpty p = true -> p ∈ map fst entries ->
                ConnectPage.nextSelectedPort entries prev = Some p)
  /\ ((forall p, prev = Some p -> p ∉ map fst entries) ->
      ConnectPage.nextSelectedPort entries prev
      = fst <$> nth_error entries (length entries / 2)%nat).
Proof.
  destruct entries as [|e entries].
  { split; [split; reflexivity|]. split; [discriminate|].
    split; [|reflexivity]. intros p _ _ Hin. now apply elem_of_nil in Hin. }
  set (l := e :: entries).
  assert (Hmin : Nat.min (length l / 2) (length l - 1) = (length l / 2)%nat).
  { apply Nat.min_l. subst l. simpl length.
    pose proof (Nat.div_lt (S (length entries)) 2). lia. }
  assert (Hmid : exists x, nth_error l (length l / 2) = Some x).
  { destruct (nth_error l (length l / 2)) as [x|] eqn:Hx; [eauto|].
    apply nth_error_None in Hx. subst l. simpl length in *.
    pose proof (Nat.div_lt (S (length entries)) 2). lia. }
  destruct Hmid as (x & Hx).
  assert (Hxin : fst x ∈ map fst l).
  { apply list_elem_of_fmap. exists x. split; [reflexivity|].
    apply list_elem_of_In. now apply nth_error_In in Hx. }
  assert (Hnext : ConnectPage.nextSelectedPort l prev
                  = if match prev with
                       | Some p => nonEmpty p && ConnectPage.hasPort l p
                       | None => false
                       end
                    then prev else Some (fst x)).
  { unfold ConnectPage.nextSelectedPort. subst l. cbv zeta.
    rewrite Hmin, Hx. reflexivity. }
  rewrite Hnext. split; [|split; [|split]].
  - split; [|discriminate].
    destruct prev as [p|]; [|discriminate].
    destruct (nonEmpty p && ConnectPage.hasPort l p); discriminate.
  - intros k. destruct prev as [p|]; [|now intros [= <-]].
    destruct (nonEmpty p && ConnectPage.hasPort l p) eqn:Hkeep.
    + intros [= <-]. apply andb_true_iff in Hkeep as [_ Hhas].
      now apply hasPort_spec.
    + now intros [= <-].
  - intros p -> Hp Hin. apply hasPort_spec in Hin. now rewrite Hp, Hin.
  - intros Hgone. rewrite Hx. destruct prev as [p|]; [|reflexivity].
    destruct (ConnectPage.hasPort l p) eqn:Hhas.
    + apply hasPort_spec in Hhas. now destruct (Hgone p eq_refl).
    + now rewrite andb_false_r.
Qed.

Lemma hasPool_spec (pools : list ConnectPage.Pool) (k : string) :
  ConnectPage.hasPool pools k = true <->
  exists pool, pool ∈ pools /\ ConnectPage.poolId pool = k.
Proof.
  unfold ConnectPage.hasPool. rewrite existsb_exists. split.
  - intros (pool & Hin & Heq). exists pool. apply String.eqb_eq in Heq.
    split; [now apply list_elem_of_In | exact Heq].
  - intros (pool & Hin & <-). exists pool. split; [now apply list_elem_of_In|].
    apply String.eqb_refl.
Qed.

(** X17: with at least one pool the connect page always has an active
    pool: the id it settles on is the id of a listed pool, and the active
    pool found for it carries that id.  The lower-cased pool of the
    address wins when a pool has that id, then the pool active before when
    it is still listed, then the first pool. *)
Theorem nextActivePoolId_names_a_pool
    (first : ConnectPage.Pool) (others : list ConnectPage.Pool)
    (requested prev : option string) :
  (exists pool,
     pool ∈ first :: others
     /\ ConnectPage.nextActivePoolId (first :: others) requested prev
        = Some (ConnectPage.poolId pool)
     /\ exists found,
          ConnectPage.activePool (first :: others)
            (ConnectPage.nextActivePoolId (first :: others) requested prev)
          = Some found
          /\ ConnectPage.poolId found = ConnectPage.poolId pool)
  /\ (forall r,
        requested = Some r -> nonEmpty (toLowerCase r) = true ->
        (exists pool, pool ∈ first :: others
                      /\ ConnectPage.poolId pool = toLowerCase r) ->
        ConnectPage.nextActivePoolId (first :: others) requested prev
        = Some (toLowerCase r))
  /\ ConnectPage.nextActivePoolId [] requested prev = prev.
Proof.
  set (pools := first :: others).
  assert (Hfound : forall pool,
            pool ∈ pools ->
            exists found,
              ConnectPage.activePool pools (Some (ConnectPage.poolId pool)) = Some found
              /\ ConnectPage.poolId found = ConnectPage.poolId pool).
  { intros pool Hin. unfold ConnectPage.activePool.
    destruct (List.find _ pools) as [found|] eqn:Hfind.
    - exists found. split; [reflexivity|].
      apply find_some in Hfind as [_ Heq]. now apply String.eqb_eq in Heq.
    - apply find_none in Hfind. rewrite Forall_forall in Hfind.
      specialize (Hfind pool Hin). simpl in Hfind.
      now rewrite String.eqb_refl in Hfind. }
  assert (Hname : forall k,
            ConnectPage.hasPool pools k = true ->
            exists pool, pool ∈ pools /\ Some k = Some (ConnectPage.poolId pool)).
  { intros k Hk. apply hasPool_spec in Hk as (pool & Hin & <-). eauto. }
  assert (Hfirst : exists pool,
            pool ∈ pools
            /\ Some (ConnectPage.poolId first) = Some (ConnectPage.poolId pool)).
  { exists first. split; [apply list_elem_of_here | reflexivity]. }
  assert (Hcases : exists pool,
            pool ∈ pools
            /\ ConnectPage.nextActivePoolId pools requested prev
               = Some (ConnectPage.poolId pool)).
  { unfold ConnectPage.nextActivePoolId. subst pools. cbv beta iota zeta.
    set (pools := first :: others) in *.
    assert (Hprev : exists pool,
              pool ∈ pools
              /\ match prev with
                 | Some p => if nonEmpty p && ConnectPage.hasPool pools p
                             then Some p else Some (ConnectPage.poolId first)
                 | None => Some (ConnectPage.poolId first)
                 end = Some (ConnectPage.poolId pool)).
    { destruct prev as [p|]; [|exact Hfirst].
      destruct (nonEmpty p); cbn [andb]; [|exact Hfirst].
      destruct (ConnectPage.hasPool pools p) eqn:Hp;
        [now apply Hname | exact Hfirst]. }
    destruct requested as [r|]; [|exact Hprev].
    change (toLowerCase <$> Some r) with (Some (toLowerCase r)). cbv iota.
    destruct (nonEmpty (toLowerCase r)); cbn [andb]; [|exact Hprev].
    destruct (ConnectPage.hasPool pools (toLowerCase r)) eqn:Hr;
      [now apply Hname | exact Hprev]. }
  split; [|split; [|reflexivity]].
  - destruct Hcases as (pool & Hin & Hnext). exists pool.
    split; [exact Hin|]. split; [exact Hnext|]. rewrite Hnext. now apply Hfound.
  - intros r -> Hr Hlisted. apply hasPool_spec in Hlisted.
    unfold ConnectPage.nextActivePoolId. subst pools. cbv beta iota zeta.
    change (toLowerCase <$> Some r) with (Some (toLowerCase r)). cbv iota.
    now rewrite Hr, Hlisted.
Qed.

Lemma portEntries_length (pool : ConnectPage.Pool) :
  length (ConnectPage.portEntries (Some pool))
  = length (match ConnectPage.ports pool with Some es => es | None => [] end).
Proof.
  unfold ConnectPage.portEntries. now rewrite sortWith_perm.
Qed.

(** X18: on the connect page the panel lists every port of the active
    pool, one entry per port and also more than six of them; only when the
    active pool lists no port, or no pool is active, does the panel fall
    back on the capped list it derives from all pools. *)
Theorem panel_lists_all_ports_of_active_pool
    (pools : list Panel.Pool) (active : option ConnectPage.Pool) (host : string) :
  (ConnectPage.portEntries active <> [] ->
   Panel.derivedLocations pools host (Some (ConnectPage.latencyLocations host active))
   = ConnectPage.latencyLocations host active)
  /\ length (ConnectPage.latencyLocations host active)
     = match active with
       | Some pool =>
           length (match ConnectPage.ports pool with Some es => es | None => [] end)
       | None => 0%nat
       end
  /\ (ConnectPage.portEntries active = [] ->
      Panel.derivedLocations pools host (Some (ConnectPage.latencyLocations host active))
      = Panel.derivedLocations pools host None).
Proof.
  split; [|split].
  - intros Hsome. unfold ConnectPage.latencyLocations.
    destruct (ConnectPage.portEntries active) as [|e es]; [contradiction|].
    reflexivity.
  - unfold ConnectPage.latencyLocations. rewrite length_map.
    destruct active as [pool|]; [apply portEntries_length | reflexivity].
  - intros Hnone. unfold ConnectPage.latencyLocations. rewrite Hnone. reflexivity.
Qed.

(** ** Relative times *)

(** X19: for a time stamp the clock can read, the relative time is "just
    now" below one minute, also for a time stamp in the future, and is
    otherwise a whole count of at least 1: minutes up to 59, then hours up
    to 23, then days. *)
Theorem relativeTime_counts_from_one
    (getTime : string -> option Z) (now then_ : Z) (text : string)
    (Htext : nonEmpty text = true) (Htime : getTime text = Some then_) :
  (now - then_ < 60000 ->
   Text.relativeTime getTime now (Some text) = "just now")
  /\ (60000 <= now - then_ ->
      exists n : Z,
        1 <= n
        /\ ((Text.relativeTime getTime now (Some text)
             = Display.decimal n +:+ " min ago"
             /\ n <= 59 /\ now - then_ < 3600000)
            \/ (Text.relativeTime getTime now (Some text)
                = Display.decimal n +:+ " h ago"
                /\ n <= 23 /\ 3600000 <= now - then_ < 86400000)
            \/ (Text.relativeTime getTime now (Some text)
                = Display.decimal n +:+ " d ago"
                /\ 86400000 <= now - then_))).
Proof.
  unfold Text.relativeTime. rewrite Htext, Htime. cbv zeta. cbn [negb].
  change (60 * 60000) with 3600000. change (24 * 3600000) with 86400000.
  set (diff := now - then_).
  split.
  - intros Hlt. now rewrite (proj2 (Z.ltb_lt diff 60000) Hlt).
  - intros Hge. rewrite (proj2 (Z.ltb_ge diff 60000) Hge).
    destruct (Z.ltb_spec diff 3600000) as [Hhour|Hhour].
    + exists (diff / 60000). split; [apply Z.div_le_lower_bound; lia|].
      left. split; [reflexivity|]. split; [|exact Hhour].
      enough (diff / 60000 < 60) by lia. apply Z.div_lt_upper_bound; lia.
    + destruct (Z.ltb_spec diff 86400000) as [Hday|Hday].
      * exists (diff / 3600000). split; [apply Z.div_le_lower_bound; lia|].
        right. left. split; [reflexivity|]. split; [|lia].
        enough (diff / 3600000 < 24) by lia. apply Z.div_lt_upper_bound; lia.
      * exists (diff / 86400000). split; [apply Z.div_le_lower_bound; lia|].
        right. right. split; [reflexivity | exact Hday].
Qed.

(** Two minutes after the time stamp the text counts minutes, hours or
    days, from one up. *)
Lemma relativeTime_counts_from_one_witness :
  exists n : Z,
    1 <= n
    /\ ((Text.relativeTime (fun _ => Some 0) 120000 (Some "2024-01-01T00:00:00Z")
         = Display.decimal n +:+ " min ago"
         /\ n <= 59 /\ 120000 - 0 < 3600000)
        \/ (Text.relativeTime (fun _ => Some 0) 120000 (Some "2024-01-01T00:00:00Z")
            = Display.decimal n +:+ " h ago"
            /\ n <= 23 /\ 3600000 <= 120000 - 0 < 86400000)
        \/ (Text.relativeTime (fun _ => Some 0) 120000 (Some "2024-01-01T00:00:00Z")
            = Display.decimal n +:+ " d ago"
            /\ 86400000 <= 120000 - 0)).
Proof.
  destruct (relativeTime_counts_from_one (fun _ => Some 0) 120000 0
              "2024-01-01T00:00:00Z" eq_refl eq_refl) as [_ Hcount].
  apply Hcount. lia.
Defined.

(** ** Latency samples and the selection of the pool page *)

Lemma page_default_within (h : string) (entries : list (string * PortConfig))
    (g : ConnectionGroup) :
  groupHost g = h -> endpoints g ≡ₚ connectionRows h entries ->
  exists d e,
    defaultEndpointRow (connectionRows h entries) = Some d
    /\ defaultWithin g (Some d) = Some e /\ id e = id d.
Proof.
  intros Hhost Hperm.
  destruct (connectionRows_cons h entries) as (r & rest & Hrows).
  destruct (defaultEndpointRow_is_Some r rest) as (d & Hd).
  rewrite <- Hrows in Hd.
  assert (Hdin : d ∈ connectionRows h entries) by now apply defaultEndpointRow_elem.
  assert (Hdh : host d = h).
  { pose proof (connectionRows_host h entries) as Hall.
    rewrite Forall_forall in Hall. now apply Hall. }
  destruct (find_by_id (endpoints g) d) as (e & Hfind & Hid & _);
    [now rewrite Hperm|].
  exists d, e. split; [exact Hd|]. split; [|exact Hid].
  unfold defaultWithin. now rewrite Hdh, Hhost, String.eqb_refl.
Qed.

(** X20: on the pool page the latency samples never move the selection:
    one render with its effects gives the same selection state whatever
    the latency map holds, and when the endpoint is not marked manual the
    endpoint selected is the default endpoint of the rows. *)
Theorem page_selection_ignores_latency
    (env : option string) (entries : list (string * PortConfig))
    (m m' : gmap string LatencyState) (s : Selection) :
  reconcile (connectionRows (stratumHost env) entries) m s
  = reconcile (connectionRows (stratumHost env) entries) m' s
  /\ (manualEndpointRef s = false ->
      selectedEndpointId (reconcile (connectionRows (stratumHost env) entries) m s)
      = id <$> defaultEndpointRow (connectionRows (stratumHost env) entries)).
Proof.
  set (h := stratumHost env).
  pose proof (stratumHost_nonEmpty env) as Hh. fold h in Hh.
  destruct (render_page h entries m s Hh)
    as (g & Hpage & Hid & Hhost & Hperm & Hgroups & Hbyid & Hfallback & Hefallback).
  destruct (render_page h entries m' s Hh)
    as (g' & Hpage' & _ & _ & _ & Hgroups' & Hbyid' & Hfallback' & Hefallback').
  assert (g' = g) by congruence. subst g'.
  destruct (page_default_within h entries g Hhost Hperm) as (d & e & Hd & Hwithin & Hde).
  set (rows := connectionRows h entries) in *.
  assert (Hpick : forall latency,
            pickEndpointForGroup (defaultEndpointRow rows) latency (Some g) = Some e).
  { intros latency. rewrite pickEndpointForGroup_preference.
    unfold endpointPreference. now rewrite Hd, Hwithin. }
  assert (Hgroup : groupEffect (render rows m s) s s
                   = groupEffect (render rows m' s) s s).
  { unfold groupEffect. now rewrite Hgroups, Hgroups', Hbyid, Hbyid', Hfallback, Hfallback'. }
  split.
  - unfold reconcile. rewrite <- Hgroup. unfold endpointEffect.
    rewrite Hefallback, Hefallback'.
    change (viewDefaultEndpoint (render rows m s)) with (defaultEndpointRow rows).
    change (viewDefaultEndpoint (render rows m' s)) with (defaultEndpointRow rows).
    change (viewLatency (render rows m s)) with m.
    change (viewLatency (render rows m' s)) with m'.
    now rewrite !Hpick.
  - intros Hauto. unfold reconcile.
    destruct (groupEffect_keeps_endpoint (render rows m s) s s) as [Hcell Href];
      [now rewrite Hgroups|].
    rewrite (proj1 (endpointEffect_recomputes (render rows m s) s
                      (groupEffect (render rows m s) s s) g Hefallback Hcell
                      (or_introl (eq_trans Href Hauto)))).
    change (viewDefaultEndpoint (render rows m s)) with (defaultEndpointRow rows).
    rewrite <- pickEndpointForGroup_preference, Hpick, Hd. simpl. now rewrite Hde.
Qed.

(** ** Runs of pool fetches *)

Lemma lastResolved_seen (ticks : list (PoolsData.HttpResult * Z))
    (seen : option (PoolsData.Json * Z)) :
  lastResolved ticks seen
  = match lastResolved ticks None with
    | Some latest => Some latest
    | None => seen
    end.
Proof.
  revert seen. induction ticks as [|[http now] ticks IH]; intros seen.
  - reflexivity.
  - unfold lastResolved in *. cbn [fold_left fst snd].
    destruct http as [|data].
    + apply IH.
    + rewrite (IH (Some (data, now))).
      destruct (fold_left _ ticks None); reflexivity.
Qed.

Lemma runLoads_last (ticks : list (PoolsData.HttpResult * Z)) (s : PoolsData.State) :
  PoolsData.pools (runLoads ticks s)
  = match lastResolved ticks None with
    | Some (data, _) => PoolsData.poolList data
    | None => PoolsData.pools s
    end
  /\ PoolsData.lastUpdated (runLoads ticks s)
     = match lastResolved ticks None with
       | Some (_, now) => Some now
       | None => PoolsData.lastUpdated s
       end.
Proof.
  revert s. induction ticks as [|[http now] ticks IH]; intros s.
  - split; reflexivity.
  - destruct (IH (PoolsData.load http now s)) as [H1 H2].
    change (runLoads ((http, now) :: ticks) s)
      with (runLoads ticks (PoolsData.load http now s)).
    rewrite H1, H2. destruct http as [|data].
    + split; reflexivity.
    + change (lastResolved ((PoolsData.Resolved data, now) :: ticks) None)
        with (lastResolved ticks (Some (data, now))).
      rewrite (lastResolved_seen ticks (Some (data, now))).
      destruct (lastResolved ticks None) as [[d t]|]; split; reflexivity.
Qed.

(** X21: after any run of scheduled fetches the hook shows the pools of
    the latest fetch that succeeded, normalised, with its time stamp, and
    the pools and time stamp it started with when none succeeded; the
    loading flag is clear after every fetch, and the error tells whether
    the last fetch failed. *)
Theorem runLoads_shows_latest_success
    (ticks : list (PoolsData.HttpResult * Z)) (s : PoolsData.State) :
  PoolsData.pools (runLoads ticks s)
  = match lastResolved ticks None with
    | Some (data, _) => PoolsData.poolList data
    | None => PoolsData.pools s
    end
  /\ PoolsData.lastUpdated (runLoads ticks s)
     = match lastResolved ticks None with
       | Some (_, now) => Some now
       | None => PoolsData.lastUpdated s
       end
  /\ (forall earlier http now,
        ticks = (earlier ++ [(http, now)])%list ->
        PoolsData.loading (runLoads ticks s) = false
        /\ PoolsData.error (runLoads ticks s)
           = match http with
             | PoolsData.Resolved _ => None
             | PoolsData.Rejected => Some "Unable to load pool data."
             end).
Proof.
  destruct (runLoads_last ticks s) as [Hpools Hupdated].
  split; [exact Hpools|]. split; [exact Hupdated|].
  intros earlier http now ->. unfold runLoads. rewrite fold_left_app. simpl.
  destruct http; split; reflexivity.
Qed.

(** * The automatic choice of group and endpoint *)

Lemma nonEmpty_true (h : string) : nonEmpty h = true <-> h <> "".
Proof. destruct h; simpl; split; congruence. Qed.

Lemma groupByHost_byId (groups : list ConnectionGroup) :
  Forall (fun g => groupHost g = groupId g) groups ->
  groupByHost groups = groupById groups.
Proof.
  unfold groupByHost, groupById. generalize (∅ : gmap string ConnectionGroup).
  induction groups as [|g groups IH]; intros m0 Hshape; [reflexivity|].
  apply Forall_cons in Hshape as [Hg Hshape]. simpl. rewrite Hg. now apply IH.
Qed.

Lemma groupById_listed (groups : list ConnectionGroup) (k : string)
    (g : ConnectionGroup) :
  NoDup (map groupId groups) ->
  groupById groups !! k = Some g -> g ∈ groups /\ groupId g = k.
Proof.
  intros Hnodup Hlook. destruct (decide (k ∈ map groupId groups)) as [Hin|Hout].
  - apply list_elem_of_fmap in Hin as (g' & -> & Hin).
    rewrite (groupById_lookup groups g' Hnodup Hin) in Hlook.
    injection Hlook as <-. now split.
  - unfold groupById in Hlook. rewrite fold_insert_other in Hlook by exact Hout.
    now rewrite lookup_empty in Hlook.
Qed.

Lemma groupById_unlisted (groups : list ConnectionGroup) (k : string) :
  NoDup (map groupId groups) ->
  groupById groups !! k = None ->
  forall g, g ∈ groups -> groupId g <> k.
Proof.
  intros Hnodup Hlook g Hin <-.
  rewrite (groupById_lookup groups g Hnodup Hin) in Hlook. discriminate.
Qed.

(** Every row is an endpoint of the group of its host. *)
Lemma row_in_its_group (rows : list ConnectionRow) (r : ConnectionRow) :
  r ∈ rows ->
  exists g, g ∈ connectionGroups rows /\ groupId g = host r
            /\ groupHost g = host r /\ r ∈ endpoints g.
Proof.
  intros Hin. destruct (connectionGroups_facts rows) as (_ & Hshape & Hperm).
  rewrite <- Hperm in Hin. apply list_elem_of_In, in_concat in Hin
    as (l & Hl & Hr).
  apply in_map_iff in Hl as (g & <- & Hg).
  rewrite Forall_forall in Hshape.
  destruct (Hshape g (proj2 (list_elem_of_In _ _) Hg)) as (Hid & _ & Hhosts).
  rewrite Forall_forall in Hhosts.
  apply list_elem_of_In in Hr. specialize (Hhosts r Hr).
  exists g. split; [now apply list_elem_of_In|]. repeat split; auto. congruence.
Qed.

(** The lookup by host finds the group of a row with a host. *)
Lemma group_of_row (rows : list ConnectionRow) (r : ConnectionRow) :
  r ∈ rows -> host r <> "" ->
  exists g, getIfSet (groupByHost (connectionGroups rows)) (Some (host r)) = Some g
            /\ g ∈ connectionGroups rows /\ groupHost g = host r
            /\ r ∈ endpoints g.
Proof.
  intros Hin Hhost. destruct (row_in_its_group rows r Hin) as (g & Hg & Hid & Hh & Hr).
  destruct (connectionGroups_facts rows) as (Hnodup & Hshape & _).
  exists g. split; [|now repeat split].
  unfold getIfSet. rewrite (proj2 (nonEmpty_true (host r)) Hhost).
  rewrite groupByHost_byId.
  - rewrite <- Hid. now apply groupById_lookup.
  - eapply Forall_impl; [exact Hshape|]. now intros x (Hx & _).
Qed.

Lemma getIfSet_empty (table : gmap string ConnectionGroup) :
  getIfSet table (Some "") = None.
Proof. reflexivity. Qed.

Lemma bestLatencyRow_cases (rows : list ConnectionRow)
    (m : gmap string LatencyState) :
  match bestLatencyRow rows m with
  | Some r => BestLatency m rows r
  | None => NoSuccess m rows
  end.
Proof.
  unfold bestLatencyRow, BestLatency, NoSuccess.
  pose proof (Leading_all m rows) as H.
  destruct (fold_left (latencyStep m) rows (None, None)) as [[r|] [l|]];
    simpl in *; try contradiction.
  - destruct H as (pre & post & Heq & Hr & Hpre & Hpost).
    exists pre, post, l. split; [exact Heq|].
    split; [now apply successLatency_Qualifies|]. split.
    + intros x lx Hx Hq. apply (Hpre x lx Hx). now apply successLatency_Qualifies.
    + intros x lx Hx Hq. apply (Hpost x lx Hx). now apply successLatency_Qualifies.
  - intros x lx Hx Hq. apply successLatency_Qualifies in Hq.
    rewrite (H x Hx) in Hq. discriminate.
Qed.

Lemma BestLatency_elem (m : gmap string LatencyState) (rows : list ConnectionRow)
    (r : ConnectionRow) :
  BestLatency m rows r -> r ∈ rows.
Proof.
  intros (pre & post & l & -> & _). apply elem_of_app. right. apply list_elem_of_here.
Qed.

Lemma connectionGroups_nonempty (rows : list ConnectionRow) :
  rows <> [] -> connectionGroups rows <> [].
Proof.
  intros Hrows Hnil. destruct (connectionGroups_facts rows) as (_ & _ & Hperm).
  rewrite Hnil in Hperm. simpl in Hperm. apply Permutation_nil in Hperm.
  contradiction.
Qed.

(** The group the group effect falls back on is the group of the automatic
    choice. *)
Lemma groupFallback_auto (rows : list ConnectionRow)
    (m : gmap string LatencyState) (s : Selection) :
  rows <> [] ->
  exists g, groupFallback (render rows m s) = Some g /\ AutoGroup rows m g.
Proof.
  intros Hrows. unfold groupFallback, AutoGroup. cbn [render bestLatencyGroup
    defaultGroup viewGroups].
  assert (Hdefault : exists d, defaultEndpointRow rows = Some d /\ d ∈ rows).
  { destruct rows as [|r rest]; [contradiction|].
    destruct (defaultEndpointRow_is_Some r rest) as [d Hd].
    exists d. split; [exact Hd | now apply defaultEndpointRow_elem]. }
  destruct Hdefault as (d & Hd & Hdin).
  assert (Hrest :
    NoBestGroup m rows ->
    exists g,
      orAlt (getIfSet (groupByHost (connectionGroups rows))
               (host <$> defaultEndpointRow rows))
        (head (connectionGroups rows)) = Some g
      /\ g ∈ connectionGroups rows
      /\ ((exists r, BestLatency m rows r /\ host r <> ""
                     /\ groupHost g = host r /\ r ∈ endpoints g)
          \/ (NoBestGroup m rows
              /\ exists d, defaultEndpointRow rows = Some d /\ host d <> ""
                           /\ groupHost g = host d /\ d ∈ endpoints g)
          \/ (NoBestGroup m rows
              /\ (exists d, defaultEndpointRow rows = Some d /\ host d = "")
              /\ head (connectionGroups rows) = Some g))).
  { intros Hnobest. rewrite Hd. cbn [fmap option_fmap option_map].
    destruct (decide (host d = "")) as [Hempty|Hhost].
    - rewrite Hempty, getIfSet_empty. cbn [orAlt].
      destruct (connectionGroups rows) as [|g gs] eqn:Hgroups;
        [now apply connectionGroups_nonempty in Hgroups|].
      exists g. split; [reflexivity|]. split; [apply list_elem_of_here|].
      right. right. split; [exact Hnobest|]. split; [now exists d | reflexivity].
    - destruct (group_of_row rows d Hdin Hhost) as (g & Hlook & Hg & Hh & Hr).
      rewrite Hlook. exists g. split; [reflexivity|]. split; [exact Hg|].
      right. left. split; [exact Hnobest|]. now exists d. }
  pose proof (bestLatencyRow_cases rows m) as Hbest.
  destruct (bestLatencyRow rows m) as [r|]; cbn [fmap option_fmap option_map].
  - destruct (decide (host r = "")) as [Hempty|Hhost].
    + rewrite Hempty, getIfSet_empty. cbn [orAlt]. apply Hrest.
      right. now exists r.
    + destruct (group_of_row rows r (BestLatency_elem m rows r Hbest) Hhost)
        as (g & Hlook & Hg & Hh & Hr).
      rewrite Hlook. exists g. split; [reflexivity|]. split; [exact Hg|].
      left. now exists r.
  - cbn [getIfSet orAlt]. apply Hrest. now left.
Qed.

Lemma find_FirstWith {A : Type} (f : A -> bool) (P : A -> Prop)
    (l : list A) (x : A) :
  (forall y, f y = true <-> P y) ->
  List.find f l = Some x -> FirstWith P l x.
Proof.
  intros Hf Hfind. apply find_split in Hfind as (pre & post & -> & Hpre & Hx).
  exists pre, post. split; [reflexivity|]. split; [now apply Hf|].
  eapply Forall_impl; [exact Hpre|]. intros y Hy HP. apply Hf in HP. congruence.
Qed.

Lemma find_none_with {A : Type} (f : A -> bool) (P : A -> Prop) (l : list A) :
  (forall y, f y = true <-> P y) ->
  List.find f l = None -> Forall (fun y => ~ P y) l.
Proof.
  intros Hf Hfind. apply find_none in Hfind.
  eapply Forall_impl; [exact Hfind|]. intros y Hy HP. apply Hf in HP. congruence.
Qed.

Lemma nameHasMid_spec (e : ConnectionRow) : nameHasMid e = true <-> NameHasMid e.
Proof.
  unfold nameHasMid, NameHasMid. destruct (profileName e) as [| |n].
  - split; [discriminate | intros (n & Hn & _); discriminate].
  - split; [discriminate | intros (n & Hn & _); discriminate].
  - rewrite includes_spec. split.
    + intros H. now exists n.
    + now intros (n' & [= <-] & H).
Qed.

Lemma looksVarDiff_spec (e : ConnectionRow) :
  looksVarDiff e = true <-> VariableDifficulty e.
Proof.
  unfold looksVarDiff, VariableDifficulty, isNull, notNull.
  destruct (rowDifficulty e), (varDiffMin e); simpl; split; intros H;
    try reflexivity; try discriminate;
    try (now left); try (right; discriminate);
    destruct H as [H|H]; congruence.
Qed.

(** The endpoint the page prefers in a group with endpoints is the endpoint
    of the automatic choice. *)
Lemma endpointPreference_auto (d : option ConnectionRow)
    (m : gmap string LatencyState) (g : ConnectionGroup) :
  endpoints g <> [] ->
  exists e, endpointPreference d m g = Some e /\ AutoEndpoint d m g e.
Proof.
  intros Hne. unfold endpointPreference, AutoEndpoint.
  assert (Hdefault :
    match defaultWithin g d with
    | Some e => exists d0, d = Some d0 /\ host d0 = groupHost g
                           /\ FirstWith (fun x => id x = id d0) (endpoints g) e
    | None => NoDefaultHeld d g
    end).
  { unfold defaultWithin, NoDefaultHeld. destruct d as [d0|]; [|discriminate].
    destruct (String.eqb (host d0) (groupHost g)) eqn:Hhost.
    - apply String.eqb_eq in Hhost.
      destruct (List.find _ (endpoints g)) as [e|] eqn:Hfind.
      + exists d0. split; [reflexivity|]. split; [exact Hhost|].
        apply (find_FirstWith _ _ _ _ (fun y => String.eqb_eq (id y) (id d0)) Hfind).
      + intros d1 [= <-]. right.
        apply (find_none_with _ _ _ (fun y => String.eqb_eq (id y) (id d0)) Hfind).
    - intros d1 [= <-]. left. now apply String.eqb_neq. }
  destruct (defaultWithin g d) as [e|]; cbn [orAlt].
  { exists e. split; [reflexivity | now left]. }
  destruct (List.find nameHasMid (endpoints g)) as [e|] eqn:Hmid; cbn [orAlt].
  { exists e. split; [reflexivity|]. right. split; [exact Hdefault|]. left.
    exact (find_FirstWith _ _ _ _ nameHasMid_spec Hmid). }
  apply (find_none_with _ _ _ nameHasMid_spec) in Hmid.
  destruct (List.find looksVarDiff (endpoints g)) as [e|] eqn:Hvar; cbn [orAlt].
  { exists e. split; [reflexivity|]. right. split; [exact Hdefault|]. right.
    split; [exact Hmid|]. left.
    exact (find_FirstWith _ _ _ _ looksVarDiff_spec Hvar). }
  apply (find_none_with _ _ _ looksVarDiff_spec) in Hvar.
  pose proof (bestLatencyRow_cases (endpoints g) m) as Hbest.
  destruct (bestLatencyRow (endpoints g) m) as [e|]; cbn [orAlt].
  { exists e. split; [reflexivity|]. right. split; [exact Hdefault|]. right.
    split; [exact Hmid|]. right. split; [exact Hvar|]. now left. }
  destruct (endpoints g) as [|e rest] eqn:Hends; [contradiction|].
  exists e. split; [reflexivity|]. right. split; [exact Hdefault|]. right.
  split; [exact Hmid|]. right. split; [exact Hvar|]. right. now split.
Qed.

(** The group the endpoint effect works in is the group in view. *)
Lemma endpointFallbackGroup_in_view (rows : list ConnectionRow)
    (m : gmap string LatencyState) (s : Selection) :
  rows <> [] ->
  exists g, endpointFallbackGroup (render rows m s) = Some g
            /\ InView rows m s g.
Proof.
  intros Hrows. destruct (connectionGroups_facts rows) as (Hnodup & _ & _).
  destruct (groupFallback_auto rows m s Hrows) as (ga & Hfallback & Hauto).
  unfold endpointFallbackGroup, InView.
  change (orAlt (bestLatencyGroup (render rows m s))
            (orAlt (defaultGroup (render rows m s))
               (head (viewGroups (render rows m s)))))
    with (groupFallback (render rows m s)).
  rewrite Hfallback. cbn [render selectedGroup]. unfold getIfSet.
  destruct (selectedGroupId s) as [k|] eqn:Hsel.
  - destruct (nonEmpty k) eqn:Hk.
    + destruct (groupById (connectionGroups rows) !! k) as [g|] eqn:Hlook;
        cbn [orAlt].
      * apply groupById_listed in Hlook as [Hg Hid]; [|exact Hnodup].
        exists g. split; [reflexivity|]. split; [exact Hg|]. left.
        exists k. split; [reflexivity|]. split; [now apply nonEmpty_true | exact Hid].
      * exists ga. split; [reflexivity|]. split; [apply Hauto|]. right.
        split; [|exact Hauto]. intros k' Hk'. rewrite Hsel in Hk'.
        injection Hk' as <-. right. now apply groupById_unlisted.
    + cbn [orAlt]. exists ga. split; [reflexivity|]. split; [apply Hauto|].
      right. split; [|exact Hauto]. intros k' Hk'. rewrite Hsel in Hk'.
      injection Hk' as <-. left. destruct k; [reflexivity | discriminate].
  - cbn [orAlt]. exists ga. split; [reflexivity|]. split; [apply Hauto|].
    right. split; [|exact Hauto]. intros k' Hk'. rewrite Hsel in Hk'.
    discriminate.
Qed.

Lemma GroupUnlisted_lookup (rows : list ConnectionRow)
    (m : gmap string LatencyState) (s : Selection) :
  GroupUnlisted rows s -> selectedGroup (render rows m s) = None.
Proof.
  intros Hun. cbn [render selectedGroup]. unfold getIfSet.
  destruct (selectedGroupId s) as [k|] eqn:Hsel; [|reflexivity].
  destruct (nonEmpty k) eqn:Hk; [|reflexivity].
  destruct (Hun k Hsel) as [->|Hnone]; [discriminate|].
  destruct (groupById (connectionGroups rows) !! k) as [g|] eqn:Hlook;
    [|reflexivity].
  destruct (connectionGroups_facts rows) as (Hnodup & _ & _).
  apply groupById_listed in Hlook as [Hg Hid]; [|exact Hnodup].
  now destruct (Hnone g Hg).
Qed.

(** C2, as the page does it.  With at least one row, one render and its
    effects recompute each level on its own condition.  When no manual
    group selection is in force, or the selected group is not listed, the
    group selected is the group of the best-latency row, else (no success
    sample) the group of the default endpoint, else the first group.  When
    no manual endpoint selection is in force, or the selected endpoint is
    not among the endpoints of the group in view, the endpoint selected is,
    within that group, the default endpoint when the group holds it, else
    the first endpoint whose name contains "mid", else the first whose fixed
    difficulty is null or whose variable-difficulty minimum is not null,
    else the best latency of the group, else its first endpoint. *)
Theorem reconcile_automatic_choice
    (rows : list ConnectionRow) (m : gmap string LatencyState) (s : Selection)
    (Hrows : rows <> []) :
  (manualSelectionRef s = false \/ GroupUnlisted rows s ->
   exists g,
     AutoGroup rows m g
     /\ selectedGroupId (reconcile rows m s) = Some (groupId g))
  /\ exists g,
       InView rows m s g
       /\ (manualEndpointRef s = false \/ ~ EndpointListed g s ->
           exists e,
             AutoEndpoint (defaultEndpointRow rows) m g e
             /\ selectedEndpointId (reconcile rows m s) = Some (id e)).
Proof.
  pose proof (connectionGroups_nonempty rows Hrows) as Hgroups.
  destruct (reconcile_follows_fallback rows m s Hgroups) as [Hgroup Hendpoint].
  split.
  - intros Hauto.
    destruct (groupFallback_auto rows m s Hrows) as (g & Hfallback & Hg).
    exists g. split; [exact Hg|]. rewrite Hgroup, Hfallback; [reflexivity|].
    destruct Hauto as [Hauto|Hauto]; [now left | right].
    now apply GroupUnlisted_lookup.
  - destruct (endpointFallbackGroup_in_view rows m s Hrows) as (g & Hview & Hg).
    exists g. split; [exact Hg|]. intros Hauto.
    destruct (connectionGroups_facts rows) as (_ & Hshape & _).
    rewrite Forall_forall in Hshape.
    destruct (Hshape g (proj1 Hg)) as (_ & Hne & _).
    destruct (endpointPreference_auto (defaultEndpointRow rows) m g Hne)
      as (e & Hpref & He).
    exists e. split; [exact He|].
    rewrite (Hendpoint g Hview Hauto), Hpref. reflexivity.
Qed.

(** With Europe's port 3333 and America's ports 3333 and 3355 (named
    "Mid"), America's 3333 answering fastest and nothing selected yet, the
    first render selects a group and an endpoint of the automatic choice. *)
Lemma reconcile_automatic_choice_witness :
  (exists g,
     AutoGroup rowsTwoHosts samplesTwoHosts g
     /\ selectedGroupId (reconcile rowsTwoHosts samplesTwoHosts initialSelection)
        = Some (groupId g))
  /\ exists g,
       InView rowsTwoHosts samplesTwoHosts initialSelection g
       /\ exists e,
            AutoEndpoint (defaultEndpointRow rowsTwoHosts) samplesTwoHosts g e
            /\ selectedEndpointId
                 (reconcile rowsTwoHosts samplesTwoHosts initialSelection)
               = Some (id e).
Proof.
  destruct (reconcile_automatic_choice rowsTwoHosts samplesTwoHosts
              initialSelection) as [Hgroup (g & Hview & Hendpoint)].
  - discriminate.
  - split; [apply Hgroup; left; reflexivity|].
    exists g. split; [exact Hview|]. apply Hendpoint. left. reflexivity.
Defined.
